(** * Bedrock API timing test: a shallow embedding of [bedrock-test-script.py]

    The script times the three stages of a call to a model-serving API
    (client initialisation, invocation, response parsing), repeats the call
    [iterations] times and prints summary statistics.

    The embedding follows the script function by function.  Durations are
    Python floats, that is IEEE-754 binary64 numbers: they are modelled by
    Rocq's primitive floats, whose operations are the same binary64
    operations with rounding to nearest, ties to even.  Values decoded from
    JSON are dynamically typed and are modelled by [pyval].  The outside
    world (the monotonic clock, boto3, the json module, the console) is an
    explicit environment and an explicit trace of events. *)

From Stdlib Require Import ZArith List String Ascii Bool Lia Floats Sorted Permutation.
From stdpp Require Import base option list strings gmap.

Set Warnings "-register-all,-inexact-float".

Local Open Scope string_scope.
Local Open Scope Z_scope.

(** ** Python values *)

Module Py.

(** Exceptions the script can meet.  All of them derive from [Exception];
    [ServiceError] stands for whatever boto3 raises (missing credentials,
    transport and service-side errors). *)
Inductive exn : Type :=
  | JSONDecodeError
  | AttributeError
  | IndexError
  | KeyError
  | TypeError
  | ZeroDivisionError
  | OverflowError
  | UnboundLocalError
  | ServiceError (kind message : string).

Inductive result (A : Type) : Type :=
  | Ok (a : A)
  | Raise (e : exn).
Arguments Ok {A} a.
Arguments Raise {A} e.

#[global] Instance result_ret : MRet result := @Ok.
#[global] Instance result_bind : MBind result := fun A B f r =>
  match r with
  | Ok a => f a
  | Raise e => Raise e
  end.

(** What [json.loads] can return, and what the request bodies are made of.
    A [dict] keeps its items in insertion order, with distinct keys; a [str]
    is a sequence of characters, here 8-bit ones. *)
Inductive pyval : Type :=
  | PNone
  | PBool (b : bool)
  | PInt (n : Z)
  | PFloat (f : float)
  | PStr (s : string)
  | PList (l : list pyval)
  | PDict (d : list (string * pyval)).

(** [sub in s] for two strings: [sub] occurs in [s] as a substring. *)
Fixpoint str_in (sub s : string) : bool :=
  String.prefix sub s ||
  match s with
  | EmptyString => false
  | String _ s' => str_in sub s'
  end.

(** Lookup of a key among the items of a dict. *)
Fixpoint dict_lookup (key : string) (d : list (string * pyval)) : option pyval :=
  match d with
  | [] => None
  | (k, v) :: d' => if String.eqb k key then Some v else dict_lookup key d'
  end.

(** [o.get(key, dflt)]: only a dict has the method. *)
Definition get (o : pyval) (key : string) (dflt : pyval) : result pyval :=
  match o with
  | PDict d => Ok (default dflt (dict_lookup key d))
  | _ => Raise AttributeError
  end.

(** [o[0]]: the first element of a list, the first character of a string;
    a dict decoded from JSON has string keys only, so the key [0] is
    missing; the other values are not subscriptable. *)
Definition item0 (o : pyval) : result pyval :=
  match o with
  | PList (x :: _) => Ok x
  | PList [] => Raise IndexError
  | PStr (String c _) => Ok (PStr (String c EmptyString))
  | PStr EmptyString => Raise IndexError
  | PDict _ => Raise KeyError
  | PNone | PBool _ | PInt _ | PFloat _ => Raise TypeError
  end.

(** [len(o)]. *)
Definition len (o : pyval) : result Z :=
  match o with
  | PStr s => Ok (Z.of_nat (String.length s))
  | PList l => Ok (Z.of_nat (length l))
  | PDict d => Ok (Z.of_nat (length d))
  | PNone | PBool _ | PInt _ | PFloat _ => Raise TypeError
  end.

(** Truth value of an optional string ([if profile:]). *)
Definition truthy (o : option string) : bool :=
  match o with
  | None | Some EmptyString => false
  | Some _ => true
  end.

(** *** Numbers *)

(** [float(n)] for an int: the nearest binary64 number, [OverflowError]
    when the int is too large. *)
Definition float_of_int (n : Z) : result float :=
  let f := SF2Prim (binary_normalize prec emax n 0 false) in
  if is_infinity f then Raise OverflowError else Ok f.

(** The float of a small non-negative int such as a length or the
    literal [1000]. *)
Definition float_of_nat (n : nat) : float :=
  SF2Prim (binary_normalize prec emax (Z.of_nat n) 0 false).

(** [a / b] for two ints: the quotient rounded once to binary64. *)
Definition int_truediv (a b : Z) : result float :=
  if b =? 0 then Raise ZeroDivisionError
  else
    let sf (n : Z) :=
      match n with
      | Z0 => S754_zero false
      | Zpos p => S754_finite false p 0
      | Zneg p => S754_finite true p 0
      end in
    let f := SF2Prim (SFdiv prec emax (sf a) (sf b)) in
    if is_infinity f then Raise OverflowError else Ok f.

(** The accumulator of [sum]: it starts as the int [0] and stays a
    number. *)
Inductive num : Type :=
  | NInt (n : Z)
  | NFloat (f : float).

(** [acc + v] for a numeric accumulator.  [bool] is a subclass of [int];
    adding anything that is not a number to a number is a [TypeError]. *)
Definition num_add (acc : num) (v : pyval) : result num :=
  match acc, v with
  | NInt a, PInt b => Ok (NInt (a + b))
  | NInt a, PBool b => Ok (NInt (a + Z.b2z b))
  | NInt a, PFloat g => f ← float_of_int a; Ok (NFloat (f + g))
  | NFloat f, PInt b => g ← float_of_int b; Ok (NFloat (f + g))
  | NFloat f, PBool b => Ok (NFloat (f + (if b then 1 else 0)))
  | NFloat f, PFloat g => Ok (NFloat (f + g))
  | _, (PNone | PStr _ | PList _ | PDict _) => Raise TypeError
  end.

(** [sum(values)]: the items are added to [0] from left to right. *)
Fixpoint sum_from (acc : num) (values : list pyval) : result num :=
  match values with
  | [] => Ok acc
  | v :: values' => acc' ← num_add acc v; sum_from acc' values'
  end.

Definition sum (values : list pyval) : result num := sum_from (NInt 0) values.

(** [total / n] where [n] is a length. *)
Definition num_div_len (total : num) (n : nat) : result float :=
  match total with
  | NInt a => int_truediv a (Z.of_nat n)
  | NFloat f =>
      if (n =? 0)%nat then Raise ZeroDivisionError
      else Ok (f / float_of_nat n)%float
  end.

End Py.

Import Py.

(** ** The outside world *)

(** Handles handed out by boto3; the script never looks inside them. *)
Inductive session : Type := SessionHandle (id : nat).
Inductive client : Type := ClientHandle (id : nat).

(** The raw response of the service: [response["body"].read()] yields its
    bytes. *)
Record response : Type := Response { body_read : string }.

(** What the script does not define itself.  The clock and the service are
    indexed by the number of earlier calls, so that successive calls may
    answer differently. *)
Record Env : Type := {
  (** [time.perf_counter()], by number of earlier readings *)
  perf_counter_at : nat -> float;
  (** [boto3.Session] applied to its keyword arguments *)
  boto3_Session : gmap string string -> result session;
  (** [session.client(service, region_name=region)] *)
  session_client : session -> string -> string -> result client;
  (** [client.invoke_model(modelId=.., body=.., contentType=.., accept=..)],
      by number of earlier invocations *)
  client_invoke_model :
    nat -> client -> string -> string -> string -> string -> result response;
  (** [json.dumps] on the request bodies built here *)
  json_dumps : pyval -> string;
  (** [json.loads]; [None] when the text is not JSON *)
  json_loads : string -> option pyval;
  (** [str] of a decoded value *)
  py_str : pyval -> string
}.

(** One record of a run: the dict [timings] of [run_timing_test].  Its
    duration entries, the only ones looked up by name, are a finite map from
    key to float; the three remaining keys are always set and hold the two
    token counts as decoded and the response length. *)
Record timings : Type := Timings {
  durations : gmap string float;
  input_tokens : pyval;
  output_tokens : pyval;
  response_length : Z
}.

(** A row of the summary table: title, min, max, avg, median (ms). *)
Definition table_row : Type := string * float * float * float * float.

(** What the script does to the outside world, in order.  [Print] is a
    [console.print] of an f-string: the literal as the source writes it, each
    replacement field reduced to its format spec, and the values of the
    fields. *)
Inductive event : Type :=
  | Print (template : string) (args : list pyval)
  | PrintTable (rows : list table_row)
  | PrintError (e : exn)
  | PrintTraceback (e : exn)
  | Sleep (seconds : float)
  | Boto3Session (kwargs : gmap string string)
  | SessionClient (s : session) (service region : string)
  | ClientInvokeModel (c : client) (modelId body contentType accept : string).

(** The state of the process: how often the clock was read and the service
    invoked, the events so far, and the two variables of [run_timing_test]
    that live across iterations, the list [all_timings] (mutated in place by
    [append]) and [client] (unbound until iteration 0 binds it). *)
Record World : Type := MkWorld {
  ticks : nat;
  invocations : nat;
  trace : list event;
  all_timings : list timings;
  client_var : option client
}.

Definition start_world : World := MkWorld 0 0 [] [] None.

(** Computations: they read and change the world and return or raise. *)
Definition M (A : Type) : Type := World -> result A * World.

#[global] Instance M_ret : MRet M := fun A a w => (Ok a, w).
#[global] Instance M_bind : MBind M := fun A B f m w =>
  match m w with
  | (Ok a, w') => f a w'
  | (Raise e, w') => (Raise e, w')
  end.

Definition lift {A : Type} (r : result A) : M A := fun w => (r, w).

Definition emit (ev : event) : M unit := fun w =>
  (Ok tt, MkWorld (ticks w) (invocations w) (trace w ++ [ev]) (all_timings w) (client_var w)).

Definition console_print (template : string) (args : list pyval) : M unit :=
  emit (Print template args).

Definition time_sleep (seconds : float) : M unit := emit (Sleep seconds).

(** [for x in l: body]: the first exception leaves the loop. *)
Fixpoint for_in {A : Type} (l : list A) (body : A -> M unit) : M unit :=
  match l with
  | [] => mret tt
  | x :: l' => _ ← body x; for_in l' body
  end.

(** [range(n)]. *)
Definition range (n : Z) : list Z := Z.of_nat <$> seq 0 (Z.to_nat n).

(** [all_timings = []], [all_timings.append(t)], reading [all_timings]. *)
Definition all_timings_new : M unit := fun w =>
  (Ok tt, MkWorld (ticks w) (invocations w) (trace w) [] (client_var w)).
Definition all_timings_append (t : timings) : M unit := fun w =>
  (Ok tt, MkWorld (ticks w) (invocations w) (trace w) (all_timings w ++ [t]) (client_var w)).
Definition all_timings_read : M (list timings) := fun w => (Ok (all_timings w), w).

(** Binding and reading the variable [client]. *)
Definition client_bind (c : client) : M unit := fun w =>
  (Ok tt, MkWorld (ticks w) (invocations w) (trace w) (all_timings w) (Some c)).
Definition client_read : M client := fun w =>
  match client_var w with
  | Some c => (Ok c, w)
  | None => (Raise UnboundLocalError, w)
  end.

(** [d[key]] on the duration entries. *)
Definition getitem (d : gmap string float) (key : string) : result float :=
  match d !! key with
  | Some v => Ok v
  | None => Raise KeyError
  end.

(** ** Sorting and the summary statistics *)

(** [sorted(values)]: a stable ascending sort that compares with [<] only;
    insertion from the right keeps equal items in their order. *)
Fixpoint insert (x : float) (l : list float) : list float :=
  match l with
  | [] => [x]
  | y :: l' => if (y <? x)%float then y :: insert x l' else x :: y :: l'
  end.

Definition sorted (values : list float) : list float := foldr insert [] values.

(** [min] and [max] of a non-empty sequence [first :: rest]: the first item
    is kept until a strictly smaller (larger) one is met. *)
Definition py_min (first : float) (rest : list float) : float :=
  fold_left (fun best item => if (item <? best)%float then item else best) rest first.

Definition py_max (first : float) (rest : list float) : float :=
  fold_left (fun best item => if (best <? item)%float then item else best) rest first.

(** [sum(values)] for floats: the items added to [0] from left to right,
    each partial sum rounded (CPython up to 3.11; later versions also carry
    a compensation term for the rounding errors of the partial sums). *)
Definition fsum (values : list float) : float :=
  fold_left (fun acc v => (acc + v)%float) values 0%float.

(** [s.replace("_", " ")] and [s.title()] on ASCII letters. *)
Definition is_upper (c : ascii) : bool := (65 <=? nat_of_ascii c)%nat && (nat_of_ascii c <=? 90)%nat.
Definition is_lower (c : ascii) : bool := (97 <=? nat_of_ascii c)%nat && (nat_of_ascii c <=? 122)%nat.
Definition to_upper (c : ascii) : ascii :=
  if is_lower c then ascii_of_nat (nat_of_ascii c - 32) else c.
Definition to_lower (c : ascii) : ascii :=
  if is_upper c then ascii_of_nat (nat_of_ascii c + 32) else c.

Fixpoint replace_underscore (s : string) : string :=
  match s with
  | EmptyString => EmptyString
  | String c s' =>
      String (if Ascii.eqb c "_"%char then " "%char else c) (replace_underscore s')
  end.

Fixpoint title_from (previous_is_cased : bool) (s : string) : string :=
  match s with
  | EmptyString => EmptyString
  | String c s' =>
      if is_upper c || is_lower c
      then String (if previous_is_cased then to_lower c else to_upper c) (title_from true s')
      else String c (title_from false s')
  end.

Definition title (s : string) : string := title_from false s.

(** ** The script *)

Section Script.

Context (env : Env).

Definition perf_counter : M float := fun w =>
  (Ok (perf_counter_at env (ticks w)),
   MkWorld (S (ticks w)) (invocations w) (trace w) (all_timings w) (client_var w)).

(** The three calls into boto3; each is recorded in the trace. *)
Definition call_boto3_Session (kwargs : gmap string string) : M session :=
  _ ← emit (Boto3Session kwargs); lift (boto3_Session env kwargs).

Definition call_session_client (s : session) (service region : string) : M client :=
  _ ← emit (SessionClient s service region); lift (session_client env s service region).

Definition call_client_invoke_model
    (c : client) (modelId body contentType accept : string) : M response := fun w =>
  (client_invoke_model env (invocations w) c modelId body contentType accept,
   MkWorld (ticks w) (S (invocations w))
     (trace w ++ [ClientInvokeModel c modelId body contentType accept])
     (all_timings w) (client_var w)).

(** [time_operation(operation_name)(func)] applied to the arguments of
    [func]: the decorator's [wrapper]. *)
Definition time_operation (operation_name : string) {A : Type} (func : M A) : M (A * float) :=
  start ← perf_counter;
  result ← func;
  end_ ← perf_counter;
  let elapsed := (end_ - start)%float in
  mret (result, elapsed).

(** The keyword arguments of [boto3.Session]: the profile name when a
    profile is given and not empty. *)
Definition session_kwargs (profile : option string) : gmap string string :=
  let session_kwargs : gmap string string := ∅ in
  match profile with
  | Some p => if truthy profile then <["profile_name" := p]> session_kwargs else session_kwargs
  | None => session_kwargs
  end.

(** The undecorated [initialize_client]. *)
Definition initialize_client__wrapped (region : string) (profile : option string) : M client :=
  let session_kwargs := session_kwargs profile in
  session ← call_boto3_Session session_kwargs;
  client ← call_session_client session "bedrock-runtime" region;
  mret client.

Definition initialize_client (region : string) (profile : option string) : M (client * float) :=
  time_operation "client_initialization" (initialize_client__wrapped region profile).

(** The request body of [invoke_model], chosen by the model identifier. *)
Definition request_body (model_id prompt : string) (max_tokens : Z) : pyval :=
  if str_in "claude" model_id then
    PDict [("anthropic_version", PStr "bedrock-2023-05-31");
           ("max_tokens", PInt max_tokens);
           ("messages", PList [PDict [("role", PStr "user"); ("content", PStr prompt)]])]
  else if str_in "titan" model_id then
    PDict [("inputText", PStr prompt);
           ("textGenerationConfig",
            PDict [("maxTokenCount", PInt max_tokens); ("temperature", PFloat 0.7)])]
  else
    PDict [("prompt", PStr prompt); ("max_tokens", PInt max_tokens)].

(** The undecorated [invoke_model]. *)
Definition invoke_model__wrapped
    (client : client) (model_id prompt : string) (max_tokens : Z) : M response :=
  let body := request_body model_id prompt max_tokens in
  response ← call_client_invoke_model client model_id (json_dumps env body)
               "application/json" "application/json";
  mret response.

Definition invoke_model (client : client) (model_id prompt : string) (max_tokens : Z)
  : M (response * float) :=
  time_operation "api_call" (invoke_model__wrapped client model_id prompt max_tokens).

(** [json.loads(response["body"].read())] *)
Definition decode_body (response : response) : result pyval :=
  match json_loads env (body_read response) with
  | Some v => Ok v
  | None => Raise JSONDecodeError
  end.

(** The undecorated [parse_response]. *)
Definition parse_response__wrapped (response : response) (model_id : string)
  : result (pyval * pyval * pyval) :=
  response_body ← decode_body response;
  if str_in "claude" model_id then
    content ← (l ← get response_body "content" (PList [PDict []]);
               o ← item0 l;
               get o "text" (PStr ""));
    input_tokens ← (o ← get response_body "usage" (PDict []);
                    get o "input_tokens" (PInt 0));
    output_tokens ← (o ← get response_body "usage" (PDict []);
                     get o "output_tokens" (PInt 0));
    Ok (content, input_tokens, output_tokens)
  else if str_in "titan" model_id then
    content ← (l ← get response_body "results" (PList [PDict []]);
               o ← item0 l;
               get o "outputText" (PStr ""));
    input_tokens ← get response_body "inputTextTokenCount" (PInt 0);
    output_tokens ← (l ← get response_body "results" (PList [PDict []]);
                     o ← item0 l;
                     get o "tokenCount" (PInt 0));
    Ok (content, input_tokens, output_tokens)
  else
    let content := PStr (py_str env response_body) in
    let input_tokens := PInt 0 in
    let output_tokens := PInt 0 in
    Ok (content, input_tokens, output_tokens).

Definition parse_response (response : response) (model_id : string)
  : M ((pyval * pyval * pyval) * float) :=
  time_operation "response_parsing" (lift (parse_response__wrapped response model_id)).

(** *** print_summary *)

Definition metrics : list string := ["api_call"; "response_parse"; "total_without_init"].

(** [[t[metric] * 1000 for t in all_timings if metric in t]] *)
Definition metric_values (metric : string) (all_timings : list timings) : list float :=
  omap (fun t => (fun v => (v * 1000)%float) <$> (durations t !! metric)) all_timings.

(** The body of [for metric in metrics]: the row added to the table when
    [values] is not empty. *)
Definition summary_row (metric : string) (values : list float) : result (option table_row) :=
  match values with
  | [] => Ok None
  | first :: rest =>
      let values_sorted := sorted values in
      let min_val := py_min first rest in
      let max_val := py_max first rest in
      let avg_val := (fsum values / float_of_nat (length values))%float in
      median_val ←
        match values_sorted !! (length values_sorted / 2)%nat with
        | Some v => Ok v
        | None => Raise IndexError
        end;
      Ok (Some (title (replace_underscore metric), min_val, max_val, avg_val, median_val))
  end.

Fixpoint summary_rows (metrics : list string) (all_timings : list timings)
  : result (list table_row) :=
  match metrics with
  | [] => Ok []
  | metric :: metrics' =>
      row ← summary_row metric (metric_values metric all_timings);
      rows ← summary_rows metrics' all_timings;
      Ok (option_list row ++ rows)%list
  end.

(** [sum(t[key] for t in all_timings) / len(all_timings)] for a token key. *)
Definition token_average (key : timings -> pyval) (all_timings : list timings) : result float :=
  total ← Py.sum (key <$> all_timings);
  num_div_len total (length all_timings).

Definition print_summary (all_timings : list timings) : M unit :=
  _ ← console_print "\n[bold cyan]Summary Statistics[/bold cyan]" [];
  table ← lift (summary_rows metrics all_timings);
  _ ← emit (PrintTable table);
  avg_input ← lift (token_average input_tokens all_timings);
  avg_output ← lift (token_average output_tokens all_timings);
  console_print "\nAverage tokens - Input: {:.0f}, Output: {:.0f}"
    [PFloat avg_input; PFloat avg_output].

(** *** run_timing_test *)

(** The body of [for i in range(iterations)]. *)
Definition iteration (model_id prompt region : string) (profile : option string)
    (max_tokens iterations : Z) (i : Z) : M unit :=
  _ ← (if 1 <? iterations
       then console_print "[yellow]Iteration {}/{}[/yellow]" [PInt (i + 1); PInt iterations]
       else mret tt);
  let timings : gmap string float := ∅ in
  timings ←
    (if i =? 0 then
       '(client, init_time) ← initialize_client region profile;
       _ ← client_bind client;
       let timings := <["client_init" := init_time]> timings in
       _ ← console_print "  Client initialization: {:.2f}ms" [PFloat (init_time * 1000)];
       mret timings
     else mret timings);
  start_api ← perf_counter;
  client ← client_read;
  '(response, api_time) ← invoke_model client model_id prompt max_tokens;
  end_api ← perf_counter;
  let timings := <["api_call" := api_time]> timings in
  _ ← console_print "  API call: {:.2f}ms" [PFloat (api_time * 1000)];
  '(content, input_tokens, output_tokens, parse_time) ← parse_response response model_id;
  let timings := <["response_parse" := parse_time]> timings in
  _ ← console_print "  Response parsing: {:.2f}ms" [PFloat (parse_time * 1000)];
  total_with_init ←
    lift (a ← getitem timings "api_call";
          p ← getitem timings "response_parse";
          Ok (default 0%float (timings !! "client_init") + a + p)%float);
  let timings := <["total_with_init" := total_with_init]> timings in
  total_without_init ←
    lift (a ← getitem timings "api_call";
          p ← getitem timings "response_parse";
          Ok (a + p)%float);
  let timings := <["total_without_init" := total_without_init]> timings in
  response_length ← lift (len content);
  let timings := Timings timings input_tokens output_tokens response_length in
  with_init ← lift (getitem (durations timings) "total_with_init");
  _ ← console_print "  [bold]Total (with init): {:.2f}ms[/bold]" [PFloat (with_init * 1000)];
  without_init ← lift (getitem (durations timings) "total_without_init");
  _ ← console_print "  [bold]Total (without init): {:.2f}ms[/bold]"
        [PFloat (without_init * 1000)];
  _ ← console_print "  Input tokens: {}, Output tokens: {}" [input_tokens; output_tokens];
  _ ← console_print "  Response length: {} chars\n" [PInt response_length];
  _ ← all_timings_append timings;
  if (1 <? iterations) && (i <? iterations - 1)
  then time_sleep 0.5
  else mret tt.

Definition run_timing_test (model_id prompt region : string) (profile : option string)
    (max_tokens iterations : Z) : M (list timings) :=
  _ ← console_print "\n[bold cyan]Bedrock Timing Test[/bold cyan]" [];
  _ ← console_print "Model: {}" [PStr model_id];
  _ ← console_print "Region: {}" [PStr region];
  _ ← console_print "Iterations: {}" [PInt iterations];
  _ ← console_print "Prompt length: {} chars\n" [PInt (Z.of_nat (String.length prompt))];
  _ ← all_timings_new;
  _ ← for_in (range iterations)
        (iteration model_id prompt region profile max_tokens iterations);
  _ ← (if 1 <? iterations
       then all_timings ← all_timings_read; print_summary all_timings
       else mret tt);
  all_timings_read.

(** *** main *)

(** The parsed command line. *)
Record args : Type := Args {
  arg_model : string;
  arg_prompt : string;
  arg_region : string;
  arg_profile : option string;
  arg_max_tokens : Z;
  arg_iterations : Z
}.

(** The defaults of the argument parser. *)
Definition default_args : args :=
  Args "us.anthropic.claude-sonnet-4-5-20250929-v1:0"
       "Hello! Please respond with a short greeting."
       "us-east-1" None 1000 1.

(** [main()] once the arguments are parsed; its result is the exit code
    of the process. *)
Definition main (a : args) : M Z := fun w =>
  match run_timing_test (arg_model a) (arg_prompt a) (arg_region a) (arg_profile a)
          (arg_max_tokens a) (arg_iterations a) w with
  | (Ok _, w') => (Ok 0, w')
  | (Raise e, w') =>
      (_ ← emit (PrintError e);
       _ ← emit (PrintTraceback e);
       mret 1) w'
  end.

End Script.

(** ** Notions used to state the properties *)

(** [sub] occurs in [s]. *)
Definition occurs_in (sub s : string) : Prop :=
  exists pre post : string, s = (pre ++ sub ++ post)%string.

(** The provider schemas as a closed set of variants, and the dispatch on the
    model identifier resolved once: the form under which the two substring
    tests of [invoke_model] and [parse_response] are compared. *)
Inductive provider : Type := Claude | Titan | Generic.

Definition provider_of (model_id : string) : provider :=
  if str_in "claude" model_id then Claude
  else if str_in "titan" model_id then Titan
  else Generic.

Definition request_body_for (p : provider) (prompt : string) (max_tokens : Z) : pyval :=
  match p with
  | Claude =>
      PDict [("anthropic_version", PStr "bedrock-2023-05-31");
             ("max_tokens", PInt max_tokens);
             ("messages", PList [PDict [("role", PStr "user"); ("content", PStr prompt)]])]
  | Titan =>
      PDict [("inputText", PStr prompt);
             ("textGenerationConfig",
              PDict [("maxTokenCount", PInt max_tokens); ("temperature", PFloat 0.7)])]
  | Generic =>
      PDict [("prompt", PStr prompt); ("max_tokens", PInt max_tokens)]
  end.

(** The first item of the list under [key], [[{}]] when the key is missing. *)
Definition first_item (key : string) (body : pyval) : result pyval :=
  l ← get body key (PList [PDict []]); item0 l.

Definition parse_body_for (env : Env) (p : provider) (body : pyval)
  : result (pyval * pyval * pyval) :=
  match p with
  | Claude =>
      content ← (o ← first_item "content" body; get o "text" (PStr ""));
      input_tokens ← (o ← get body "usage" (PDict []); get o "input_tokens" (PInt 0));
      output_tokens ← (o ← get body "usage" (PDict []); get o "output_tokens" (PInt 0));
      Ok (content, input_tokens, output_tokens)
  | Titan =>
      content ← (o ← first_item "results" body; get o "outputText" (PStr ""));
      input_tokens ← get body "inputTextTokenCount" (PInt 0);
      output_tokens ← (o ← first_item "results" body; get o "tokenCount" (PInt 0));
      Ok (content, input_tokens, output_tokens)
  | Generic => Ok (PStr (py_str env body), PInt 0, PInt 0)
  end.

(** The keys of a dict, in order. *)
Definition keys (v : pyval) : list string :=
  match v with
  | PDict d => fst <$> d
  | _ => []
  end.

(** A sample environment: the clock advances by one second per reading,
    boto3 hands out fixed handles, the service answers every request with
    the same text, which decodes to a Claude-style body. *)
Definition sample_body : pyval :=
  PDict [("content", PList [PDict [("type", PStr "text"); ("text", PStr "Hello!")]]);
         ("usage", PDict [("input_tokens", PInt 12); ("output_tokens", PInt 5)])].

Definition sample_env : Env := {|
  perf_counter_at := float_of_nat;
  boto3_Session := fun _ => Ok (SessionHandle 0);
  session_client := fun _ _ _ => Ok (ClientHandle 0);
  client_invoke_model := fun _ _ _ _ _ _ => Ok (Response "<claude response>");
  json_dumps := fun _ => "<request>";
  json_loads := fun s => if String.eqb s "<claude response>" then Some sample_body else None;
  py_str := fun _ => "<str>"
|}.









(** The record an iteration appends, from the measured durations. *)
Definition iteration_record (client_init : option float) (api_call response_parse : float)
    (input_tokens output_tokens : pyval) (response_length : Z) : timings :=
  let d : gmap string float :=
    match client_init with
    | Some t => <["client_init" := t]> ∅
    | None => ∅
    end in
  let d := <["api_call" := api_call]> d in
  let d := <["response_parse" := response_parse]> d in
  let d := <["total_with_init" :=
              (default 0 client_init + api_call + response_parse)%float]> d in
  let d := <["total_without_init" := (api_call + response_parse)%float]> d in
  Timings d input_tokens output_tokens response_length.

(** Reading the trace: the clients the service was invoked with, the
    clients boto3 was asked for, the events of the summary. *)
Definition invoked_with (ev : event) : option client :=
  match ev with
  | ClientInvokeModel c _ _ _ _ => Some c
  | _ => None
  end.

Definition invoke_clients (tr : list event) : list client := omap invoked_with tr.

Definition is_boto3_setup (ev : event) : bool :=
  match ev with
  | Boto3Session _ | SessionClient _ _ _ => true
  | _ => false
  end.

Definition is_summary_event (ev : event) : bool :=
  match ev with
  | PrintTable _ => true
  | Print template _ =>
      String.eqb template "\n[bold cyan]Summary Statistics[/bold cyan]"
      || String.eqb template "\nAverage tokens - Input: {:.0f}, Output: {:.0f}"
  | _ => false
  end.

(** The world once [run_timing_test] has printed its heading and created
    the empty list [all_timings]. *)
Definition after_heading (model_id prompt region : string) (iterations : Z) (w : World)
  : World :=
  MkWorld (ticks w) (invocations w)
    (trace w ++
     [Print "\n[bold cyan]Bedrock Timing Test[/bold cyan]" [];
      Print "Model: {}" [PStr model_id];
      Print "Region: {}" [PStr region];
      Print "Iterations: {}" [PInt iterations];
      Print "Prompt length: {} chars\n" [PInt (Z.of_nat (String.length prompt))]])
    [] (client_var w).

(** The record of the pass that starts when the clock has been read [t]
    times: the first pass times the client initialisation with readings
    [t] and [t+1]; every pass then reads the clock once, times the
    invocation with the next two readings, reads the clock once more and
    times the parsing with the two readings after that. *)
Definition pass_record (env : Env) (first : bool) (t : nat)
    (input_tokens output_tokens : pyval) (response_length : Z) : timings :=
  let t0 := ((if first then 2 else 0) + t)%nat in
  iteration_record
    (if first
     then Some (perf_counter_at env (S t) - perf_counter_at env t)%float
     else None)
    (perf_counter_at env (2 + t0) - perf_counter_at env (1 + t0))%float
    (perf_counter_at env (5 + t0) - perf_counter_at env (4 + t0))%float
    input_tokens output_tokens response_length.

(** The world with more events in its trace. *)
Definition logged (evs : list event) (w : World) : World :=
  MkWorld (ticks w) (invocations w) (trace w ++ evs) (all_timings w) (client_var w).

(** The sample service, failing on its third invocation. *)
Definition third_call_fails_env : Env := {|
  perf_counter_at := float_of_nat;
  boto3_Session := fun _ => Ok (SessionHandle 0);
  session_client := fun _ _ _ => Ok (ClientHandle 0);
  client_invoke_model := fun n _ _ _ _ _ =>
    if (n =? 2)%nat then Raise (ServiceError "ClientError" "ThrottlingException")
    else Ok (Response "<claude response>");
  json_dumps := fun _ => "<request>";
  json_loads := fun s => if String.eqb s "<claude response>" then Some sample_body else None;
  py_str := fun _ => "<str>"
|}.

(** The default command line, with three iterations. *)
Definition three_iterations : args :=
  Args "us.anthropic.claude-sonnet-4-5-20250929-v1:0"
       "Hello! Please respond with a short greeting."
       "us-east-1" None 1000 3.

Definition run_of (env : Env) (a : args) : M (list timings) :=
  run_timing_test env (arg_model a) (arg_prompt a) (arg_region a) (arg_profile a)
    (arg_max_tokens a) (arg_iterations a).

Definition pass_of (env : Env) (a : args) : Z -> M unit :=
  iteration env (arg_model a) (arg_prompt a) (arg_region a) (arg_profile a)
    (arg_max_tokens a) (arg_iterations a).

Definition heading_of (a : args) (w : World) : World :=
  after_heading (arg_model a) (arg_prompt a) (arg_region a) (arg_iterations a) w.

(** Order on floats as [<=] computes it, and the floats that are numbers. *)
Definition fle (x y : float) : Prop := (x <=? y)%float = true.

Definition not_nan (x : float) : Prop := is_nan x = false.


(** A clock whose readings are 0, 0.3, 0.3, 0.3, 0.6, 0.6, 0.6, 0.9 and 0.9
    from then on, with the sample service. *)
Definition rounding_clock (n : nat) : float :=
  nth n [0; 0.3; 0.3; 0.3; 0.6; 0.6; 0.6; 0.9]%float 0.9%float.

Definition rounding_env : Env := {|
  perf_counter_at := rounding_clock;
  boto3_Session := fun _ => Ok (SessionHandle 0);
  session_client := fun _ _ _ => Ok (ClientHandle 0);
  client_invoke_model := fun _ _ _ _ _ _ => Ok (Response "<claude response>");
  json_dumps := fun _ => "<request>";
  json_loads := fun s => if String.eqb s "<claude response>" then Some sample_body else None;
  py_str := fun _ => "<str>"
|}.


(** ** Binary64 rounding

    Python floats are binary64 numbers and [+] rounds the exact sum to the
    nearest one, ties to even.  The notions below describe that rounding on
    integers: a dyadic number is a pair [(m, e)] standing for [m * 2^e]. *)

Definition nonzero (z : Z) : bool := negb (z =? 0).

(** [M / 2^n] rounded to the nearest integer, ties to even. *)
Definition rne (M n : Z) : Z :=
  let q := M / 2 ^ n in
  let rem := M mod 2 ^ n in
  let half := 2 ^ (n - 1) in
  if (half <? rem) || ((rem =? half) && Z.odd q) then q + 1 else q.

(** The exponent of the binary64 numbers with [x] digits above the unit. *)
Definition fexp64 (x : Z) : Z := Z.max (x - 53) (-1074).

(** The binary64 number of sign [s], mantissa [m] and exponent [E]. *)
Definition pack (s : bool) (m E : Z) : spec_float :=
  match m with
  | Z0 => S754_zero s
  | Zpos p => if E <=? 971 then S754_finite s p E else S754_infinity s
  | Zneg _ => S754_nan
  end.

(** Mantissa and exponent of the rounding of [M * 2^e], for [M] positive. *)
Definition rnd_pos (M e : Z) : Z * Z :=
  let E := fexp64 (Z.log2 M + 1 + e) in
  if E <=? e then (M * 2 ^ (e - E), E)
  else
    let m1 := rne M (E - e) in
    if m1 =? 2 ^ 53 then (2 ^ 52, E + 1) else (m1, E).

(** The same before the carry of a mantissa rounded up to [2^53]. *)
Definition rnd_pre (M e : Z) : Z * Z :=
  let E := fexp64 (Z.log2 M + 1 + e) in
  if E <=? e then (M * 2 ^ (e - E), E) else (rne M (E - e), E).

Definition carry (me : Z * Z) : Z * Z :=
  if fst me =? 2 ^ 53 then (2 ^ 52, snd me + 1) else me.

(** The dyadic number [m * 2^e] counted in units of [2^b]. *)
Definition scaled (b m e : Z) : Z := m * 2 ^ (e - b).

(** Order of two dyadic numbers. *)
Definition dle (x y : Z * Z) : Prop :=
  let b := Z.min (snd x) (snd y) in scaled b (fst x) (snd x) <= scaled b (fst y) (snd y).

(** Mantissa and exponent of a binary64 number in canonical form. *)
Definition canonical (me : Z * Z) : Prop :=
  0 <= fst me < 2 ^ 53 /\ -1074 <= snd me /\ (snd me = -1074 \/ 2 ^ 52 <= fst me).

(** The dyadic number a binary64 number stands for. *)
Definition dyadic (x : spec_float) : option (Z * Z) :=
  match x with
  | S754_zero _ => Some (0, 0)
  | S754_finite s m e => Some (cond_Zopp s (Zpos m), e)
  | _ => None
  end.

(** Rounding of the dyadic number [S * 2^e] to binary64. *)
Definition round64 (S e : Z) : spec_float := binary_normalize prec emax S e false.

(** ** Notions used to state the further properties *)

(** The Sleep events of a trace, in order. *)
Definition slept (ev : event) : option float :=
  match ev with
  | Sleep seconds => Some seconds
  | _ => None
  end.

Definition sleeps (tr : list event) : list float := omap slept tr.


(** The record [rec] reports the response to invocation number [n], made
    with client [c]: its token counts are those parsed from that response
    and its response length is the length of the parsed content. *)
Definition reports (env : Env) (model_id prompt : string) (max_tokens : Z)
    (c : client) (n : nat) (rec : timings) : Prop :=
  exists (response : response) (content : pyval),
    client_invoke_model env n c model_id
      (json_dumps env (request_body model_id prompt max_tokens))
      "application/json" "application/json" = Ok response
    /\ parse_response__wrapped env response model_id =
         Ok (content, input_tokens rec, output_tokens rec)
    /\ len content = Ok (response_length rec).

(** The requests sent to the service, in order. *)
Definition is_request (ev : event) : bool :=
  match ev with
  | ClientInvokeModel _ _ _ _ _ => true
  | _ => false
  end.

Definition requests (tr : list event) : list event := List.filter is_request tr.

(** The request [invoke_model] sends with client [c]. *)
Definition request_of (env : Env) (c : client) (model_id prompt : string) (max_tokens : Z)
  : event :=
  ClientInvokeModel c model_id (json_dumps env (request_body model_id prompt max_tokens))
    "application/json" "application/json".

(** What is printed on the console. *)
Definition is_console (ev : event) : bool :=
  match ev with
  | Print _ _ | PrintTable _ | PrintError _ | PrintTraceback _ => true
  | Sleep _ | Boto3Session _ | SessionClient _ _ _ | ClientInvokeModel _ _ _ _ _ => false
  end.

Definition console (tr : list event) : list event := List.filter is_console tr.

(** An entry of a record, in milliseconds. *)
Definition millis (rec : timings) (key : string) : pyval :=
  PFloat (default 0%float (durations rec !! key) * 1000).

(** The console lines of pass [i] of a run of [iterations] passes, read off
    the record [rec] the pass appends. *)
Definition pass_lines (iterations i : Z) (rec : timings) : list event :=
  ((if 1 <? iterations
    then [Print "[yellow]Iteration {}/{}[/yellow]" [PInt (i + 1); PInt iterations]]
    else []) ++
   (match durations rec !! "client_init" with
    | Some _ => [Print "  Client initialization: {:.2f}ms" [millis rec "client_init"]]
    | None => []
    end) ++
   [Print "  API call: {:.2f}ms" [millis rec "api_call"];
    Print "  Response parsing: {:.2f}ms" [millis rec "response_parse"];
    Print "  [bold]Total (with init): {:.2f}ms[/bold]" [millis rec "total_with_init"];
    Print "  [bold]Total (without init): {:.2f}ms[/bold]" [millis rec "total_without_init"];
    Print "  Input tokens: {}, Output tokens: {}" [input_tokens rec; output_tokens rec];
    Print "  Response length: {} chars\n" [PInt (response_length rec)]])%list.

(** The five lines [run_timing_test] starts with. *)
Definition run_heading (model_id prompt region : string) (iterations : Z) : list event :=
  [Print "\n[bold cyan]Bedrock Timing Test[/bold cyan]" [];
   Print "Model: {}" [PStr model_id];
   Print "Region: {}" [PStr region];
   Print "Iterations: {}" [PInt iterations];
   Print "Prompt length: {} chars\n" [PInt (Z.of_nat (String.length prompt))]].


(** The clock never runs backwards and its readings are finite. *)
Definition monotone_clock (env : Env) : Prop :=
  forall n : nat,
    is_finite (perf_counter_at env n) = true
    /\ fle (perf_counter_at env n) (perf_counter_at env (S n)).

(** The values [sum] can add to a number. *)
Definition is_number (v : pyval) : bool :=
  match v with
  | PBool _ | PInt _ | PFloat _ => true
  | PNone | PStr _ | PList _ | PDict _ => false
  end.

(** The title of a row of the table. *)
Definition row_title (row : table_row) : string :=
  let '(heading, _, _, _, _) := row in heading.

(** The console lines of the passes that appended [records], the first of
    them being pass [a]. *)
Definition passes_lines (iterations : Z) (a : nat) (records : list timings) : list event :=
  concat (imap (fun k rec => pass_lines iterations (Z.of_nat (a + k)) rec) records).

(** The values that are JSON objects. *)
Definition is_object (v : pyval) : bool :=
  match v with
  | PDict _ => true
  | _ => false
  end.

(** A service whose response decodes to the JSON array [[1, 2]]. *)
Definition array_body_env : Env := {|
  perf_counter_at := float_of_nat;
  boto3_Session := fun _ => Ok (SessionHandle 0);
  session_client := fun _ _ _ => Ok (ClientHandle 0);
  client_invoke_model := fun _ _ _ _ _ _ => Ok (Response "[1, 2]");
  json_dumps := fun _ => "<request>";
  json_loads := fun s => if String.eqb s "[1, 2]" then Some (PList [PInt 1; PInt 2]) else None;
  py_str := fun _ => "[1, 2]"
|}.

(** The duration keys every record has. *)
Definition duration_keys : gset string :=
  {["api_call"; "response_parse"; "total_with_init"; "total_without_init"]}.

(** boto3 finds no credentials: the session cannot be created. *)
Definition no_session_env : Env := {|
  perf_counter_at := float_of_nat;
  boto3_Session := fun _ => Raise (ServiceError "NoCredentialsError" "Unable to locate credentials");
  session_client := fun _ _ _ => Ok (ClientHandle 0);
  client_invoke_model := fun _ _ _ _ _ _ => Ok (Response "<claude response>");
  json_dumps := fun _ => "<request>";
  json_loads := fun s => if String.eqb s "<claude response>" then Some sample_body else None;
  py_str := fun _ => "<str>"
|}.

(** The sample service with a null input token count in its responses. *)
Definition null_tokens_body : pyval :=
  PDict [("content", PList [PDict [("type", PStr "text"); ("text", PStr "Hello!")]]);
         ("usage", PDict [("input_tokens", PNone); ("output_tokens", PInt 5)])].

Definition null_tokens_env : Env := {|
  perf_counter_at := float_of_nat;
  boto3_Session := fun _ => Ok (SessionHandle 0);
  session_client := fun _ _ _ => Ok (ClientHandle 0);
  client_invoke_model := fun _ _ _ _ _ _ => Ok (Response "<null tokens>");
  json_dumps := fun _ => "<request>";
  json_loads := fun s => if String.eqb s "<null tokens>" then Some null_tokens_body else None;
  py_str := fun _ => "<str>"
|}.

(** Two records, the first with a null input token count. *)
Definition null_token_records : list timings :=
  [iteration_record (Some 0.05%float) 0.01 0.002 PNone (PInt 5) 6;
   iteration_record None 0.02 0.002 (PInt 12) (PInt 5) 6].

(** * Properties *)

(** ** Substring test *)

Lemma append_cons (c : ascii) (a b : string) :
  (String c a ++ b)%string = String c (a ++ b)%string.
Proof. reflexivity. Qed.

Lemma append_nil (b : string) : (EmptyString ++ b)%string = b.
Proof. reflexivity. Qed.

Lemma prefix_app (sub s : string) :
  String.prefix sub s = true <-> exists post, s = (sub ++ post)%string.
Proof.
  revert s. induction sub as [|c sub IH]; intros s.
  - split; [intros _; exists s; reflexivity | intros _; destruct s; reflexivity].
  - destruct s as [|c' s]; simpl.
    + split; [discriminate | intros [post H]; discriminate].
    + destruct (Ascii.ascii_dec c c') as [->|Hne].
      * rewrite IH. split; intros [post H]; exists post;
          rewrite append_cons in *; congruence.
      * split; [discriminate | intros [post H]; rewrite append_cons in H; congruence].
Qed.

Lemma str_in_occurs (sub s : string) : str_in sub s = true <-> occurs_in sub s.
Proof.
  unfold occurs_in. induction s as [|c s IH]; cbn [str_in].
  - rewrite orb_false_r, prefix_app. split.
    + intros [post H]. exists EmptyString, post. exact H.
    + intros [pre [post H]]. destruct pre; [eauto | discriminate].
  - rewrite orb_true_iff, prefix_app, IH. split.
    + intros [[post H] | [pre [post H]]].
      * exists EmptyString, post. exact H.
      * exists (String c pre), post. rewrite append_cons. congruence.
    + intros [pre [post H]]. destruct pre as [|c' pre].
      * left. eauto.
      * right. exists pre, post. rewrite append_cons in H. congruence.
Qed.

Lemma str_in_not_occurs (sub s : string) : str_in sub s = false <-> ~ occurs_in sub s.
Proof.
  rewrite <- str_in_occurs. destruct (str_in sub s); split; congruence.
Qed.

(** ** Request construction (C6) *)

Lemma invoke_model_run (env : Env) (c : client) (model_id prompt : string) (max_tokens : Z)
    (w : World) :
  invoke_model env c model_id prompt max_tokens w =
  let body := json_dumps env (request_body model_id prompt max_tokens) in
  let tr := (trace w ++
             [ClientInvokeModel c model_id body "application/json" "application/json"])%list in
  match client_invoke_model env (invocations w) c model_id body
          "application/json" "application/json" with
  | Ok r =>
      (Ok (r, (perf_counter_at env (S (ticks w)) - perf_counter_at env (ticks w))%float),
       MkWorld (S (S (ticks w))) (S (invocations w)) tr (all_timings w) (client_var w))
  | Raise e =>
      (Raise e, MkWorld (S (ticks w)) (S (invocations w)) tr (all_timings w) (client_var w))
  end.
Proof.
  unfold invoke_model, time_operation, invoke_model__wrapped, call_client_invoke_model,
    perf_counter, mbind, M_bind, mret, M_ret; simpl.
  destruct (client_invoke_model _ _ _ _ _ _ _); reflexivity.
Qed.

(** C6. [invoke_model] sends the service one request whose body is the JSON
    text of a dict chosen by substring tests on the model identifier, tried in
    this order: an identifier containing "claude" gives the chat-message body
    (anthropic_version, max_tokens, messages with the prompt as the one user
    message); otherwise one containing "titan" gives inputText and
    textGenerationConfig (maxTokenCount, temperature 0.7); any other
    identifier gives the generic body (prompt, max_tokens). *)
Theorem invoke_model_body_by_substring :
  forall (env : Env) (c : client) (model_id prompt : string) (max_tokens : Z) (w : World),
    trace (snd (invoke_model env c model_id prompt max_tokens w)) =
      (trace w ++
       [ClientInvokeModel c model_id (json_dumps env (request_body model_id prompt max_tokens))
          "application/json" "application/json"])%list
    /\ (occurs_in "claude" model_id ->
        request_body model_id prompt max_tokens =
          PDict [("anthropic_version", PStr "bedrock-2023-05-31");
                 ("max_tokens", PInt max_tokens);
                 ("messages",
                  PList [PDict [("role", PStr "user"); ("content", PStr prompt)]])])
    /\ (~ occurs_in "claude" model_id -> occurs_in "titan" model_id ->
        request_body model_id prompt max_tokens =
          PDict [("inputText", PStr prompt);
                 ("textGenerationConfig",
                  PDict [("maxTokenCount", PInt max_tokens);
                         ("temperature", PFloat 0.7)])])
    /\ (~ occurs_in "claude" model_id -> ~ occurs_in "titan" model_id ->
        request_body model_id prompt max_tokens =
          PDict [("prompt", PStr prompt); ("max_tokens", PInt max_tokens)]).
Proof.
  intros env c model_id prompt max_tokens w. split; [|repeat split].
  - rewrite invoke_model_run. simpl.
    destruct (client_invoke_model _ _ _ _ _ _ _); reflexivity.
  - intros H. apply str_in_occurs in H. unfold request_body. rewrite H. reflexivity.
  - intros H1 H2. apply str_in_not_occurs in H1. apply str_in_occurs in H2.
    unfold request_body. rewrite H1, H2. reflexivity.
  - intros H1 H2. apply str_in_not_occurs in H1. apply str_in_not_occurs in H2.
    unfold request_body. rewrite H1, H2. reflexivity.
Qed.

Lemma invoke_model_body_by_substring_witness :
  request_body "anthropic.claude-v2" "Hi" 1000 =
    PDict [("anthropic_version", PStr "bedrock-2023-05-31");
           ("max_tokens", PInt 1000);
           ("messages", PList [PDict [("role", PStr "user"); ("content", PStr "Hi")]])]
  /\ request_body "amazon.titan-text-express-v1" "Hi" 1000 =
    PDict [("inputText", PStr "Hi");
           ("textGenerationConfig",
            PDict [("maxTokenCount", PInt 1000); ("temperature", PFloat 0.7)])]
  /\ request_body "meta.llama3-8b-instruct-v1:0" "Hi" 1000 =
    PDict [("prompt", PStr "Hi"); ("max_tokens", PInt 1000)].
Proof.
  split; [|split].
  - apply (invoke_model_body_by_substring sample_env (ClientHandle 0)
             "anthropic.claude-v2" "Hi" 1000 start_world).
    apply str_in_occurs. reflexivity.
  - apply (invoke_model_body_by_substring sample_env (ClientHandle 0)
             "amazon.titan-text-express-v1" "Hi" 1000 start_world).
    + apply str_in_not_occurs. reflexivity.
    + apply str_in_occurs. reflexivity.
  - apply (invoke_model_body_by_substring sample_env (ClientHandle 0)
             "meta.llama3-8b-instruct-v1:0" "Hi" 1000 start_world).
    + apply str_in_not_occurs. reflexivity.
    + apply str_in_not_occurs. reflexivity.
Defined.

(** ** Dispatch at the two sites (C9) *)

Lemma request_body_for_inj (p q : provider) (prompt : string) (max_tokens : Z) :
  keys (request_body_for p prompt max_tokens) = keys (request_body_for q prompt max_tokens) ->
  p = q.
Proof. destruct p, q; simpl; intros H; try reflexivity; discriminate. Qed.

Lemma request_body_provider (model_id prompt : string) (max_tokens : Z) :
  request_body model_id prompt max_tokens =
  request_body_for (provider_of model_id) prompt max_tokens.
Proof.
  unfold request_body, provider_of.
  destruct (str_in "claude" model_id); [reflexivity|].
  destruct (str_in "titan" model_id); reflexivity.
Qed.

Lemma parse_response_provider (env : Env) (response : response) (model_id : string) :
  parse_response__wrapped env response model_id =
  (body ← decode_body env response; parse_body_for env (provider_of model_id) body).
Proof.
  unfold parse_response__wrapped, provider_of, parse_body_for, first_item.
  destruct (decode_body env response) as [body|e]; [|reflexivity].
  cbn [mbind result_bind].
  destruct (str_in "claude" model_id); [|destruct (str_in "titan" model_id)];
    cbn [mbind result_bind].
  - destruct (get body "content" _) as [l|]; [|reflexivity].
    cbn [mbind result_bind]. reflexivity.
  - destruct (get body "results" _) as [l|]; [|reflexivity].
    cbn [mbind result_bind]. reflexivity.
  - reflexivity.
Qed.

Lemma provider_of_claude (model_id : string) :
  occurs_in "claude" model_id -> provider_of model_id = Claude.
Proof. intros H. apply str_in_occurs in H. unfold provider_of. rewrite H. reflexivity. Qed.

Lemma provider_of_titan (model_id : string) :
  ~ occurs_in "claude" model_id -> occurs_in "titan" model_id ->
  provider_of model_id = Titan.
Proof.
  intros H1 H2. apply str_in_not_occurs in H1. apply str_in_occurs in H2.
  unfold provider_of. rewrite H1, H2. reflexivity.
Qed.

Lemma provider_of_generic (model_id : string) :
  ~ occurs_in "claude" model_id -> ~ occurs_in "titan" model_id ->
  provider_of model_id = Generic.
Proof.
  intros H1 H2. apply str_in_not_occurs in H1. apply str_in_not_occurs in H2.
  unfold provider_of. rewrite H1, H2. reflexivity.
Qed.

(** C9. For every model identifier the request body built by [invoke_model]
    and the parsing done by [parse_response] are those of one and the same
    provider variant, [provider_of model_id]; the variants build bodies with
    different keys; and the variant is Claude as soon as "claude" occurs in
    the identifier, whether or not "titan" occurs too, Titan only when
    "titan" occurs and "claude" does not. *)
Theorem dispatch_same_branch :
  forall (env : Env) (model_id prompt : string) (max_tokens : Z) (response : response),
    request_body model_id prompt max_tokens =
      request_body_for (provider_of model_id) prompt max_tokens
    /\ parse_response__wrapped env response model_id =
         (body ← decode_body env response; parse_body_for env (provider_of model_id) body)
    /\ (forall p q,
          keys (request_body_for p prompt max_tokens) =
          keys (request_body_for q prompt max_tokens) -> p = q)
    /\ (occurs_in "claude" model_id -> provider_of model_id = Claude)
    /\ (~ occurs_in "claude" model_id -> occurs_in "titan" model_id ->
        provider_of model_id = Titan)
    /\ (~ occurs_in "claude" model_id -> ~ occurs_in "titan" model_id ->
        provider_of model_id = Generic).
Proof.
  intros env model_id prompt max_tokens response.
  split; [|split; [|split; [|split; [|split]]]].
  - apply request_body_provider.
  - apply parse_response_provider.
  - intros p q. apply request_body_for_inj.
  - apply provider_of_claude.
  - apply provider_of_titan.
  - apply provider_of_generic.
Qed.

(** An identifier containing both substrings is handled as Claude at both
    sites. *)
Lemma dispatch_same_branch_witness :
  provider_of "claude-titan" = Claude
  /\ request_body "claude-titan" "Hi" 1000 = request_body_for Claude "Hi" 1000
  /\ parse_response__wrapped sample_env (Response "<claude response>") "claude-titan" =
       parse_body_for sample_env Claude sample_body.
Proof.
  pose proof (dispatch_same_branch sample_env "claude-titan" "Hi" 1000
                (Response "<claude response>")) as (Hreq & Hparse & _ & Hclaude & _).
  assert (Hp : provider_of "claude-titan" = Claude).
  { apply Hclaude. apply str_in_occurs. reflexivity. }
  split; [exact Hp|]. split.
  - rewrite Hreq, Hp. reflexivity.
  - rewrite Hparse, Hp. reflexivity.
Defined.

(** ** The timer (C7) *)

Lemma time_operation_run (env : Env) (operation_name : string) {A : Type} (func : M A)
    (w : World) :
  time_operation env operation_name func w =
  match func (MkWorld (S (ticks w)) (invocations w) (trace w) (all_timings w) (client_var w)) with
  | (Ok result, w1) =>
      (Ok (result, (perf_counter_at env (ticks w1) - perf_counter_at env (ticks w))%float),
       MkWorld (S (ticks w1)) (invocations w1) (trace w1) (all_timings w1) (client_var w1))
  | (Raise e, w1) => (Raise e, w1)
  end.
Proof.
  unfold time_operation, perf_counter, mbind, M_bind, mret, M_ret.
  destruct (func _) as [[result|e] w1]; reflexivity.
Qed.

(** C7. [time_operation] reads the clock, runs the wrapped operation exactly
    once on the world the first reading left, and then: when the operation
    returns, reads the clock again and returns the pair of the operation's
    result and the difference of the two readings, a float; when the
    operation raises, returns that same exception in the world the operation
    left, without a second reading and without any elapsed time. *)
Theorem time_operation_once :
  forall (env : Env) (operation_name : string) (A : Type) (func : M A) (w : World),
    time_operation env operation_name func w =
    match func (MkWorld (S (ticks w)) (invocations w) (trace w) (all_timings w) (client_var w)) with
    | (Ok result, w1) =>
        (Ok (result, (perf_counter_at env (ticks w1) - perf_counter_at env (ticks w))%float),
         MkWorld (S (ticks w1)) (invocations w1) (trace w1) (all_timings w1) (client_var w1))
    | (Raise e, w1) => (Raise e, w1)
    end.
Proof. intros. apply time_operation_run. Qed.

(** ** Response parsing (C1) *)














(** ** Running the script step by step *)

Lemma bind_run {A B : Type} (m : M A) (f : A -> M B) (w : World) :
  (m ≫= f) w =
  match m w with
  | (Ok a, w1) => f a w1
  | (Raise e, w1) => (Raise e, w1)
  end.
Proof. reflexivity. Qed.

Lemma ret_run {A : Type} (a : A) (w : World) : (mret a : M A) w = (Ok a, w).
Proof. reflexivity. Qed.

Lemma lift_run {A : Type} (r : result A) (w : World) : lift r w = (r, w).
Proof. reflexivity. Qed.

Lemma emit_run (ev : event) (w : World) :
  emit ev w =
  (Ok tt, MkWorld (ticks w) (invocations w) (trace w ++ [ev]) (all_timings w) (client_var w)).
Proof. reflexivity. Qed.

Lemma console_print_run (template : string) (args : list pyval) (w : World) :
  console_print template args w =
  (Ok tt, MkWorld (ticks w) (invocations w) (trace w ++ [Print template args])
            (all_timings w) (client_var w)).
Proof. reflexivity. Qed.

Lemma perf_counter_run (env : Env) (w : World) :
  perf_counter env w =
  (Ok (perf_counter_at env (ticks w)),
   MkWorld (S (ticks w)) (invocations w) (trace w) (all_timings w) (client_var w)).
Proof. reflexivity. Qed.

Lemma client_bind_run (c : client) (w : World) :
  client_bind c w =
  (Ok tt, MkWorld (ticks w) (invocations w) (trace w) (all_timings w) (Some c)).
Proof. reflexivity. Qed.

Lemma all_timings_append_run (t : timings) (w : World) :
  all_timings_append t w =
  (Ok tt, MkWorld (ticks w) (invocations w) (trace w) (all_timings w ++ [t]) (client_var w)).
Proof. reflexivity. Qed.

Lemma all_timings_new_run (w : World) :
  all_timings_new w =
  (Ok tt, MkWorld (ticks w) (invocations w) (trace w) [] (client_var w)).
Proof. reflexivity. Qed.

Lemma all_timings_read_run (w : World) : all_timings_read w = (Ok (all_timings w), w).
Proof. reflexivity. Qed.

(** An optional event, as in [if iterations > 1: console.print(..)]. *)
Lemma optional_emit_run (b : bool) (ev : event) (w : World) :
  (if b then emit ev else mret tt) w =
  (Ok tt, MkWorld (ticks w) (invocations w) (trace w ++ (if b then [ev] else []))
            (all_timings w) (client_var w)).
Proof. destruct b, w; cbn; rewrite ?app_nil_r; reflexivity. Qed.

Lemma initialize_client_run (env : Env) (region : string) (profile : option string)
    (w : World) :
  initialize_client env region profile w =
  match boto3_Session env (session_kwargs profile) with
  | Ok s =>
      let tr := (trace w ++ [Boto3Session (session_kwargs profile);
                             SessionClient s "bedrock-runtime" region])%list in
      match session_client env s "bedrock-runtime" region with
      | Ok c =>
          (Ok (c, (perf_counter_at env (S (ticks w)) - perf_counter_at env (ticks w))%float),
           MkWorld (S (S (ticks w))) (invocations w) tr (all_timings w) (client_var w))
      | Raise e =>
          (Raise e, MkWorld (S (ticks w)) (invocations w) tr (all_timings w) (client_var w))
      end
  | Raise e =>
      (Raise e,
       MkWorld (S (ticks w)) (invocations w) (trace w ++ [Boto3Session (session_kwargs profile)])
         (all_timings w) (client_var w))
  end.
Proof.
  unfold initialize_client. rewrite time_operation_run.
  unfold initialize_client__wrapped, call_boto3_Session, call_session_client.
  rewrite bind_run, bind_run, emit_run, lift_run. cbn [ticks invocations trace all_timings client_var].
  destruct (boto3_Session env (session_kwargs profile)) as [s|e]; [|reflexivity].
  rewrite bind_run, bind_run, emit_run, lift_run.
  cbn [ticks invocations trace all_timings client_var].
  destruct (session_client env s _ _) as [c|e]; cbn; rewrite <- ?app_assoc; reflexivity.
Qed.

Lemma getitem_insert_eq (d : gmap string float) (k : string) (v : float) :
  getitem (<[k := v]> d) k = Ok v.
Proof. unfold getitem. rewrite lookup_insert_eq. reflexivity. Qed.

Lemma getitem_insert_ne (d : gmap string float) (k k' : string) (v : float) :
  k <> k' -> getitem (<[k := v]> d) k' = getitem d k'.
Proof. intros H. unfold getitem. rewrite lookup_insert_ne by exact H. reflexivity. Qed.

Lemma optional_print_run (b : bool) (template : string) (args : list pyval) (w : World) :
  (if b then console_print template args else mret tt) w =
  (Ok tt, MkWorld (ticks w) (invocations w)
            (trace w ++ (if b then [Print template args] else []))
            (all_timings w) (client_var w)).
Proof. apply optional_emit_run. Qed.

Lemma optional_sleep_run (b : bool) (seconds : float) (w : World) :
  (if b then time_sleep seconds else mret tt) w =
  (Ok tt, MkWorld (ticks w) (invocations w)
            (trace w ++ (if b then [Sleep seconds] else []))
            (all_timings w) (client_var w)).
Proof. apply optional_emit_run. Qed.

(** Symbolic execution of a computation in hypothesis [H]: the script's
    own definitions are unfolded and the lookups in the duration entries
    evaluated, up to the next answer of the outside world. *)
Ltac lookups_in H :=
  repeat match type of H with
  | context [getitem (<[?k := ?v]> ?d) ?k'] =>
      first [ constr_eq k k'; rewrite (getitem_insert_eq d k v) in H
            | rewrite (getitem_insert_ne d k k' v) in H by discriminate ]
  | context [(<[?k := ?v]> ?d) !! ?k'] =>
      first [ constr_eq k k'; rewrite (lookup_insert_eq d k v) in H
            | rewrite (lookup_insert_ne d k k' v) in H by discriminate ]
  | context [@lookup _ _ (gmap string float) _ ?k ∅] =>
      rewrite (lookup_empty (M:=gmap string) (A:=float) k) in H
  end.

Ltac run_in H :=
  repeat (progress (
    cbv beta iota zeta delta
      [iteration mbind M_bind result_bind mret M_ret lift emit console_print time_sleep
       perf_counter client_bind client_read all_timings_append all_timings_new
       all_timings_read initialize_client initialize_client__wrapped time_operation
       invoke_model invoke_model__wrapped call_boto3_Session call_session_client
       call_client_invoke_model parse_response] in H;
    cbn [ticks invocations trace all_timings client_var durations fst snd] in H;
    lookups_in H)).

(** Case analysis on the innermost answer [H] is waiting for. *)
Ltac answer_in H :=
  match type of H with
  | context [match ?x with _ => _ end] =>
      lazymatch x with
      | context [match _ with _ => _ end] => fail
      | _ => destruct x eqn:?
      end
  end.

Ltac step_in H := run_in H; try answer_in H.

(** What one pass of the loop does, whatever its outcome: it prints
    nothing of the summary; when it raises, [all_timings] is as before; when
    it returns, it has appended the record of the pass, read the clock eight
    times (the first pass) or six, invoked the service once with the client
    bound by the first pass, and set up boto3 in the first pass only. *)
Lemma iteration_outcome (env : Env) (model_id prompt region : string)
    (profile : option string) (max_tokens iterations i : Z) (w w' : World)
    (res : result unit) :
  iteration env model_id prompt region profile max_tokens iterations i w = (res, w') ->
  List.filter is_summary_event (trace w') = List.filter is_summary_event (trace w)
  /\ match res with
     | Raise e => all_timings w' = all_timings w
     | Ok _ =>
         exists (c : client) (input_tokens output_tokens : pyval) (response_length : Z)
                (setup : list event),
           (if i =? 0
            then exists s, boto3_Session env (session_kwargs profile) = Ok s
                           /\ session_client env s "bedrock-runtime" region = Ok c
                           /\ setup = [Boto3Session (session_kwargs profile);
                                       SessionClient s "bedrock-runtime" region]
            else client_var w = Some c /\ setup = [])
           /\ all_timings w' =
                (all_timings w ++
                 [pass_record env (i =? 0) (ticks w) input_tokens output_tokens
                    response_length])%list
           /\ ticks w' = ((if (i =? 0)%Z then 8 else 6) + ticks w)%nat
           /\ invocations w' = S (invocations w)
           /\ client_var w' = Some c
           /\ invoke_clients (trace w') = (invoke_clients (trace w) ++ [c])%list
           /\ List.filter is_boto3_setup (trace w') =
                (List.filter is_boto3_setup (trace w) ++ setup)%list
     end.
Proof.
  intros H. unfold iteration in H.
  destruct (1 <? iterations) eqn:HN; destruct (i =? 0) eqn:Hi.
  all: repeat (progress step_in H).
  all: injection H as <- <-.
  all: split;
    [ cbn [trace]; rewrite ?List.filter_app; cbn; rewrite ?app_nil_r; reflexivity | ].
  all: try reflexivity.
  all: eexists _, _, _, _, _.
  all: repeat match goal with
              | |- _ /\ _ => split
              | |- exists _, _ => eexists
              end.
  all: try first [eassumption | reflexivity].
  all: unfold invoke_clients; cbn [trace]; rewrite ?omap_app, ?List.filter_app; cbn;
    rewrite ?app_nil_r, <- ?app_assoc; reflexivity.
Qed.

(** ** The loop *)

Lemma for_in_cons {A : Type} (x : A) (l : list A) (body : A -> M unit) (w : World) :
  for_in (x :: l) body w =
  match body x w with
  | (Ok _, w1) => for_in l body w1
  | (Raise e, w1) => (Raise e, w1)
  end.
Proof. reflexivity. Qed.

Lemma for_in_app {A : Type} (l1 l2 : list A) (body : A -> M unit) (w : World) :
  for_in (l1 ++ l2) body w =
  match for_in l1 body w with
  | (Ok _, w1) => for_in l2 body w1
  | (Raise e, w1) => (Raise e, w1)
  end.
Proof.
  revert w. induction l1 as [|x l1 IH]; intros w.
  - reflexivity.
  - rewrite <- app_comm_cons, !for_in_cons.
    destruct (body x w) as [[[]|e] w1]; [apply IH | reflexivity].
Qed.

Lemma range_split (n k : Z) :
  0 <= k < n ->
  range n = (range k ++ k :: (Z.of_nat <$> seq (S (Z.to_nat k)) (Z.to_nat n - S (Z.to_nat k))))%list.
Proof.
  intros H. unfold range.
  set (rest := (Z.to_nat n - S (Z.to_nat k))%nat).
  replace (Z.to_nat n) with (Z.to_nat k + S rest)%nat by (unfold rest; lia).
  rewrite seq_app, fmap_app. cbn [seq fmap list_fmap]. simpl.
  rewrite Z2Nat.id by lia. reflexivity.
Qed.

Lemma range_nonpositive (n : Z) : n <= 0 -> range n = [].
Proof. intros H. unfold range. replace (Z.to_nat n) with 0%nat by lia. reflexivity. Qed.

Lemma range_positive (n : Z) :
  1 <= n -> range n = 0 :: (Z.of_nat <$> seq 1 (Z.to_nat n - 1)).
Proof.
  intros H. unfold range.
  replace (Z.to_nat n) with (S (Z.to_nat n - 1)) at 1 by lia. reflexivity.
Qed.

(** The passes after the first, [count] of them starting with pass [a]. *)
Lemma later_passes_outcome (env : Env) (model_id prompt region : string)
    (profile : option string) (max_tokens iterations : Z) (count : nat) :
  forall (a : nat) (w w' : World),
    (1 <= a)%nat ->
    for_in (Z.of_nat <$> seq a count)
      (iteration env model_id prompt region profile max_tokens iterations) w = (Ok tt, w') ->
    exists recs : list timings,
      all_timings w' = (all_timings w ++ recs)%list
      /\ length recs = count
      /\ (forall (k : nat) (rec : timings),
            recs !! k = Some rec ->
            exists input_tokens output_tokens response_length,
              rec = pass_record env false (6 * k + ticks w) input_tokens output_tokens
                      response_length)
      /\ ticks w' = (6 * count + ticks w)%nat
      /\ invocations w' = (count + invocations w)%nat
      /\ client_var w' = client_var w
      /\ (forall c, client_var w = Some c ->
            invoke_clients (trace w') = (invoke_clients (trace w) ++ replicate count c)%list)
      /\ List.filter is_boto3_setup (trace w') = List.filter is_boto3_setup (trace w)
      /\ List.filter is_summary_event (trace w') = List.filter is_summary_event (trace w).
Proof.
  induction count as [|count IH]; intros a w w' Ha H.
  - cbn in H. injection H as <-. exists []. rewrite app_nil_r.
    repeat split; try reflexivity.
    + intros k rec Hk. discriminate.
    + intros c _. cbn. rewrite app_nil_r. reflexivity.
  - change (Z.of_nat <$> seq a (S count))
      with (Z.of_nat a :: (Z.of_nat <$> seq (S a) count)) in H.
    rewrite for_in_cons in H.
    destruct (iteration _ _ _ _ _ _ _ _ w) as [[[]|e] w1] eqn:Hpass; [|discriminate].
    apply iteration_outcome in Hpass as (Hsum & c & itok & otok & rlen & setup & Hc & Hrec
                                         & Hticks & Hinv & Hvar & Hcalls & Hsetup).
    assert (Hne : (Z.of_nat a =? 0) = false) by (apply Z.eqb_neq; lia).
    rewrite Hne in Hc, Hrec, Hticks. destruct Hc as [Hc ->].
    apply IH in H as (recs & Hall & Hlen & Hrecs & Hticks' & Hinv' & Hvar' & Hcalls'
                      & Hsetup' & Hsum'); [|lia].
    exists (pass_record env false (ticks w) itok otok rlen :: recs).
    split; [rewrite Hall, Hrec, <- app_assoc; reflexivity|].
    split; [cbn; rewrite Hlen; reflexivity|].
    split.
    { intros [|k] rec Hk.
      - injection Hk as <-. exists itok, otok, rlen. reflexivity.
      - apply Hrecs in Hk as (i' & o' & l' & ->). exists i', o', l'.
        f_equal. rewrite Hticks. lia. }
    split; [rewrite Hticks', Hticks; lia|].
    split; [rewrite Hinv', Hinv; lia|].
    split; [rewrite Hvar', Hvar, Hc; reflexivity|].
    split.
    { intros c' Hc'. rewrite Hc in Hc'. injection Hc' as <-.
      rewrite (Hcalls' c Hvar), Hcalls, <- app_assoc. reflexivity. }
    split; [rewrite Hsetup', Hsetup, app_nil_r; reflexivity|].
    rewrite Hsum', Hsum. reflexivity.
Qed.

(** ** print_summary, run_timing_test and main, step by step *)

Lemma print_summary_run (ts : list timings) (w : World) :
  print_summary ts w =
  match summary_rows metrics ts with
  | Raise e => (Raise e, logged [Print "\n[bold cyan]Summary Statistics[/bold cyan]" []] w)
  | Ok table =>
      let w2 := logged [Print "\n[bold cyan]Summary Statistics[/bold cyan]" [];
                        PrintTable table] w in
      match token_average input_tokens ts with
      | Raise e => (Raise e, w2)
      | Ok avg_input =>
          match token_average output_tokens ts with
          | Raise e => (Raise e, w2)
          | Ok avg_output =>
              (Ok tt,
               logged [Print "\n[bold cyan]Summary Statistics[/bold cyan]" [];
                       PrintTable table;
                       Print "\nAverage tokens - Input: {:.0f}, Output: {:.0f}"
                         [PFloat avg_input; PFloat avg_output]] w)
          end
      end
  end.
Proof.
  unfold print_summary, logged.
  cbv beta iota zeta delta [mbind M_bind mret M_ret lift emit console_print].
  cbn [ticks invocations trace all_timings client_var].
  destruct (summary_rows metrics ts) as [table|e]; [|reflexivity].
  cbn [ticks invocations trace all_timings client_var]. rewrite <- !app_assoc.
  destruct (token_average input_tokens ts) as [avg_input|e]; [|reflexivity].
  destruct (token_average output_tokens ts) as [avg_output|e]; [|reflexivity].
  cbn [ticks invocations trace all_timings client_var]. rewrite <- !app_assoc. reflexivity.
Qed.

Lemma run_timing_test_run (env : Env) (model_id prompt region : string)
    (profile : option string) (max_tokens iterations : Z) (w : World) :
  run_timing_test env model_id prompt region profile max_tokens iterations w =
  match for_in (range iterations)
          (iteration env model_id prompt region profile max_tokens iterations)
          (after_heading model_id prompt region iterations w) with
  | (Ok _, w1) =>
      if 1 <? iterations then
        match print_summary (all_timings w1) w1 with
        | (Ok _, w2) => (Ok (all_timings w2), w2)
        | (Raise e, w2) => (Raise e, w2)
        end
      else (Ok (all_timings w1), w1)
  | (Raise e, w1) => (Raise e, w1)
  end.
Proof.
  unfold run_timing_test, after_heading.
  cbv beta iota zeta delta [mbind M_bind mret M_ret lift emit console_print all_timings_new
                            all_timings_read].
  cbn [ticks invocations trace all_timings client_var]. rewrite <- !app_assoc.
  cbn [app].
  destruct (for_in _ _ _) as [[[]|e] w1]; [|reflexivity].
  destruct (1 <? iterations); [|reflexivity].
  destruct (print_summary (all_timings w1) w1) as [[[]|e] w2]; reflexivity.
Qed.

Lemma main_run (env : Env) (a : args) (w : World) :
  main env a w =
  match run_timing_test env (arg_model a) (arg_prompt a) (arg_region a) (arg_profile a)
          (arg_max_tokens a) (arg_iterations a) w with
  | (Ok _, w') => (Ok 0, w')
  | (Raise e, w') => (Ok 1, logged [PrintError e; PrintTraceback e] w')
  end.
Proof.
  unfold main, logged.
  destruct (run_timing_test _ _ _ _ _ _ _ w) as [[records|e] w']; [reflexivity|].
  cbv beta iota zeta delta [mbind M_bind mret M_ret emit].
  cbn [ticks invocations trace all_timings client_var]. rewrite <- app_assoc. reflexivity.
Qed.

Ltac trace_facts :=
  unfold invoke_clients, logged;
  cbn [trace ticks invocations all_timings client_var];
  rewrite ?omap_app, ?List.filter_app; cbn; rewrite ?app_nil_r;
  repeat split; reflexivity.

(** [print_summary] only prints. *)
Lemma print_summary_only_prints (ts : list timings) (w w' : World) (res : result unit) :
  print_summary ts w = (res, w') ->
  ticks w' = ticks w /\ invocations w' = invocations w
  /\ all_timings w' = all_timings w /\ client_var w' = client_var w
  /\ invoke_clients (trace w') = invoke_clients (trace w)
  /\ List.filter is_boto3_setup (trace w') = List.filter is_boto3_setup (trace w).
Proof.
  rewrite print_summary_run. intros H.
  destruct (summary_rows metrics ts) as [table|e].
  2:{ injection H as <- <-. trace_facts. }
  cbv zeta in H.
  destruct (token_average input_tokens ts) as [avg_input|e].
  2:{ injection H as <- <-. trace_facts. }
  destruct (token_average output_tokens ts) as [avg_output|e].
  2:{ injection H as <- <-. trace_facts. }
  injection H as <- <-. trace_facts.
Qed.

(** ** The passes of a run *)

(** The first [k] passes, when they all return: nothing of the summary is
    printed; there is one record per pass, record [i] being the record of
    pass [i]; boto3 is set up once, in the first pass, and every invocation
    is made with the client obtained there. *)
Lemma loop_outcome (env : Env) (model_id prompt region : string)
    (profile : option string) (max_tokens iterations k : Z) (w0 w1 : World) :
  for_in (range k) (iteration env model_id prompt region profile max_tokens iterations) w0
    = (Ok tt, w1) ->
  List.filter is_summary_event (trace w1) = List.filter is_summary_event (trace w0)
  /\ (k <= 0 -> w1 = w0)
  /\ (1 <= k ->
      exists recs : list timings,
        all_timings w1 = (all_timings w0 ++ recs)%list
        /\ length recs = Z.to_nat k
        /\ (forall (i : nat) (rec : timings),
              recs !! i = Some rec ->
              exists input_tokens output_tokens response_length,
                rec = pass_record env (i =? 0)%nat
                        ((if (i =? 0)%nat then 0 else 2) + 6 * i + ticks w0)%nat
                        input_tokens output_tokens response_length)
        /\ exists (s : session) (c : client),
             boto3_Session env (session_kwargs profile) = Ok s
             /\ session_client env s "bedrock-runtime" region = Ok c
             /\ List.filter is_boto3_setup (trace w1) =
                  (List.filter is_boto3_setup (trace w0) ++
                   [Boto3Session (session_kwargs profile);
                    SessionClient s "bedrock-runtime" region])%list
             /\ invoke_clients (trace w1) =
                  (invoke_clients (trace w0) ++ replicate (Z.to_nat k) c)%list).
Proof.
  intros Hloop. destruct (Z_le_gt_dec k 0) as [Hk|Hk].
  - rewrite (range_nonpositive _ Hk) in Hloop. injection Hloop as <-.
    split; [reflexivity|]. split; [reflexivity|]. intros Hk'. lia.
  - assert (Hn : 1 <= k) by lia. clear Hk.
    rewrite (range_positive _ Hn), for_in_cons in Hloop.
    destruct (iteration _ _ _ _ _ _ _ 0 w0) as [[[]|e] wa] eqn:Hfirst; [|discriminate].
    apply iteration_outcome in Hfirst as (Hsum & c & itok & otok & rlen & setup & Hc & Hrec
                                          & Hticks & Hinv & Hvar & Hcalls & Hsetup).
    change (0 =? 0) with true in Hc, Hrec, Hticks.
    destruct Hc as (s & Hs & Hcl & ->).
    apply later_passes_outcome in Hloop
      as (recs & Hall & Hlen & Hrecs & _ & _ & _ & Hcalls1 & Hsetup1 & Hsum1); [|lia].
    split; [rewrite Hsum1, Hsum; reflexivity|]. split; [lia|]. intros _.
    exists (pass_record env true (ticks w0) itok otok rlen :: recs).
    split; [rewrite Hall, Hrec, <- app_assoc; reflexivity|].
    split; [cbn; rewrite Hlen; lia|]. split.
    + intros [|i] rec Hi.
      * injection Hi as <-. exists itok, otok, rlen. reflexivity.
      * apply Hrecs in Hi as (i' & o' & l' & ->). exists i', o', l'.
        cbn [Nat.eqb]. f_equal. rewrite Hticks. lia.
    + exists s, c. split; [exact Hs|]. split; [exact Hcl|]. split.
      * rewrite Hsetup1, Hsetup. reflexivity.
      * rewrite (Hcalls1 c Hvar), Hcalls, <- app_assoc.
        f_equal. destruct (Z.to_nat k) as [|n] eqn:Hnat; [lia|].
        cbn. rewrite Nat.sub_0_r. reflexivity.
Qed.

(** ** A run that returns *)

(** The records of a run that returns: none when [iterations] is not
    positive; otherwise one per pass, record [i] being the record of pass
    [i], with boto3 set up once, in the first pass, and every invocation
    made with the client obtained there. *)
Lemma run_timing_test_records (env : Env) (model_id prompt region : string)
    (profile : option string) (max_tokens iterations : Z) (w w' : World)
    (records : list timings) :
  run_timing_test env model_id prompt region profile max_tokens iterations w
    = (Ok records, w') ->
  records = all_timings w'
  /\ (iterations <= 0 -> records = [])
  /\ (1 <= iterations ->
      length records = Z.to_nat iterations
      /\ (forall (i : nat) (rec : timings),
            records !! i = Some rec ->
            exists input_tokens output_tokens response_length,
              rec = pass_record env (i =? 0)%nat
                      ((if (i =? 0)%nat then 0 else 2) + 6 * i + ticks w)%nat
                      input_tokens output_tokens response_length)
      /\ exists (s : session) (c : client),
           boto3_Session env (session_kwargs profile) = Ok s
           /\ session_client env s "bedrock-runtime" region = Ok c
           /\ List.filter is_boto3_setup (trace w') =
                (List.filter is_boto3_setup (trace w) ++
                 [Boto3Session (session_kwargs profile);
                  SessionClient s "bedrock-runtime" region])%list
           /\ invoke_clients (trace w') =
                (invoke_clients (trace w) ++ replicate (Z.to_nat iterations) c)%list).
Proof.
  rewrite run_timing_test_run. intros H.
  set (w0 := after_heading model_id prompt region iterations w) in H.
  assert (Hw0 : ticks w0 = ticks w /\ all_timings w0 = []
                /\ invoke_clients (trace w0) = invoke_clients (trace w)
                /\ List.filter is_boto3_setup (trace w0) = List.filter is_boto3_setup (trace w)).
  { unfold w0, after_heading. trace_facts. }
  destruct Hw0 as (Ht0 & Hall0 & Hcalls0 & Hsetup0).
  destruct (for_in _ _ w0) as [[[]|e] w1] eqn:Hloop; [|discriminate].
  assert (Hend : records = all_timings w' /\ all_timings w' = all_timings w1
                 /\ invoke_clients (trace w') = invoke_clients (trace w1)
                 /\ List.filter is_boto3_setup (trace w') =
                    List.filter is_boto3_setup (trace w1)).
  { destruct (1 <? iterations).
    - destruct (print_summary (all_timings w1) w1) as [[[]|e] w2] eqn:Hsum; [|discriminate].
      injection H as <- <-.
      apply print_summary_only_prints in Hsum as (_ & _ & Hall & _ & Hcalls & Hsetup).
      auto.
    - injection H as <- <-. auto. }
  clear H. destruct Hend as (Hrecords & Hall' & Hcalls' & Hsetup').
  apply loop_outcome in Hloop as (_ & Hzero & Hpos).
  split; [exact Hrecords|]. split.
  - intros Hn. rewrite Hrecords, Hall', (Hzero Hn). exact Hall0.
  - intros Hn. destruct (Hpos Hn) as (recs & Hall & Hlen & Hrecs & s & c & Hs & Hcl & Hsetup
                                      & Hcalls).
    rewrite Hall0 in Hall. cbn [app] in Hall.
    assert (Hrecords' : records = recs) by (rewrite Hrecords, Hall', Hall; reflexivity).
    rewrite Hrecords'. clear Hrecords Hrecords' Hall.
    split; [exact Hlen|]. split.
    + intros i rec Hi. rewrite <- Ht0. exact (Hrecs i rec Hi).
    + exists s, c. split; [exact Hs|]. split; [exact Hcl|]. split.
      * rewrite Hsetup', Hsetup, Hsetup0. reflexivity.
      * rewrite Hcalls', Hcalls, Hcalls0. reflexivity.
Qed.

Lemma pass_record_client_init (env : Env) (first : bool) (t : nat)
    (input_tokens output_tokens : pyval) (response_length : Z) :
  durations (pass_record env first t input_tokens output_tokens response_length)
    !! "client_init" =
  if first then Some (perf_counter_at env (S t) - perf_counter_at env t)%float else None.
Proof.
  unfold pass_record, iteration_record. cbn [durations].
  rewrite !lookup_insert_ne by discriminate.
  destruct first; [apply lookup_insert_eq | apply lookup_empty].
Qed.

(** C5. A run of [iterations >= 1] passes that returns has produced exactly
    [iterations] records, record [i] being the record of pass [i] (its
    durations are differences of the clock readings of that pass); only
    record 0 has a [client_init] entry; boto3 was asked for a client once,
    and every invocation of the run was made with the client it returned. *)
Theorem run_records_and_client :
  forall (env : Env) (model_id prompt region : string) (profile : option string)
         (max_tokens iterations : Z) (w w' : World) (records : list timings),
    1 <= iterations ->
    run_timing_test env model_id prompt region profile max_tokens iterations w
      = (Ok records, w') ->
    length records = Z.to_nat iterations
    /\ (forall (i : nat) (rec : timings),
          records !! i = Some rec ->
          exists input_tokens output_tokens response_length,
            rec = pass_record env (i =? 0)%nat
                    ((if (i =? 0)%nat then 0 else 2) + 6 * i + ticks w)%nat
                    input_tokens output_tokens response_length)
    /\ (forall (i : nat) (rec : timings),
          records !! i = Some rec ->
          (is_Some (durations rec !! "client_init") <-> i = 0%nat))
    /\ exists (s : session) (c : client),
         boto3_Session env (session_kwargs profile) = Ok s
         /\ session_client env s "bedrock-runtime" region = Ok c
         /\ List.filter is_boto3_setup (trace w') =
              (List.filter is_boto3_setup (trace w) ++
               [Boto3Session (session_kwargs profile);
                SessionClient s "bedrock-runtime" region])%list
         /\ invoke_clients (trace w') =
              (invoke_clients (trace w) ++ replicate (Z.to_nat iterations) c)%list.
Proof.
  intros env model_id prompt region profile max_tokens iterations w w' records Hn Hrun.
  apply run_timing_test_records in Hrun as (_ & _ & Hpos).
  destruct (Hpos Hn) as (Hlen & Hrecs & Hclient).
  split; [exact Hlen|]. split; [exact Hrecs|]. split; [|exact Hclient].
  intros i rec Hi. apply Hrecs in Hi as (itok & otok & rlen & ->).
  rewrite pass_record_client_init.
  destruct i as [|i]; cbn [Nat.eqb]; split.
  - reflexivity.
  - intros _. eexists. reflexivity.
  - intros [x Hx]. discriminate.
  - discriminate.
Qed.

Lemma run_records_and_client_witness :
  exists (records : list timings) (w' : World),
    run_timing_test sample_env "us.anthropic.claude-sonnet-4-5-20250929-v1:0"
      "Hello! Please respond with a short greeting." "us-east-1" None 1000 3 start_world
      = (Ok records, w')
    /\ length records = 3%nat
    /\ invoke_clients (trace w') = [ClientHandle 0; ClientHandle 0; ClientHandle 0].
Proof.
  destruct (run_timing_test sample_env "us.anthropic.claude-sonnet-4-5-20250929-v1:0"
      "Hello! Please respond with a short greeting." "us-east-1" None 1000 3 start_world)
    as [[records|e] w'] eqn:Hrun;
    [|vm_compute in Hrun; discriminate].
  exists records, w'. split; [reflexivity|].
  apply run_records_and_client in Hrun as (Hlen & _ & _ & s & c & _ & Hc & _ & Hcalls); [|lia].
  split; [exact Hlen|]. rewrite Hcalls. injection Hc as <-. reflexivity.
Defined.

(** ** No iteration at all (C10) *)

(** C10. With [iterations = 0] the loop body never runs: [run_timing_test]
    prints its heading and returns the empty list, without reading the
    clock, setting up boto3, invoking the service or printing anything of an
    iteration or of the summary, and [main] returns the exit code 0. *)
Theorem zero_iterations :
  forall (env : Env) (model_id prompt region : string) (profile : option string)
         (max_tokens : Z) (w : World),
    run_timing_test env model_id prompt region profile max_tokens 0 w =
      (Ok [], after_heading model_id prompt region 0 w)
    /\ main env (Args model_id prompt region profile max_tokens 0) w =
         (Ok 0, after_heading model_id prompt region 0 w)
    /\ trace (after_heading model_id prompt region 0 w) =
         (trace w ++
          [Print "\n[bold cyan]Bedrock Timing Test[/bold cyan]" [];
           Print "Model: {}" [PStr model_id];
           Print "Region: {}" [PStr region];
           Print "Iterations: {}" [PInt 0];
           Print "Prompt length: {} chars\n" [PInt (Z.of_nat (String.length prompt))]])%list
    /\ ticks (after_heading model_id prompt region 0 w) = ticks w
    /\ invocations (after_heading model_id prompt region 0 w) = invocations w
    /\ client_var (after_heading model_id prompt region 0 w) = client_var w
    /\ all_timings (after_heading model_id prompt region 0 w) = [].
Proof.
  intros env model_id prompt region profile max_tokens w.
  assert (Hrun : run_timing_test env model_id prompt region profile max_tokens 0 w =
                 (Ok [], after_heading model_id prompt region 0 w)).
  { rewrite run_timing_test_run. reflexivity. }
  split; [exact Hrun|]. split.
  - rewrite main_run. cbn [arg_model arg_prompt arg_region arg_profile arg_max_tokens
                           arg_iterations]. rewrite Hrun. reflexivity.
  - repeat split; reflexivity.
Qed.

(** ** A failing iteration (C2) *)

(** C2. When passes 0 to k-1 of a run of [iterations] passes return and
    pass [k] raises (0 <= k < iterations): [all_timings] holds exactly k
    records, those of passes 0 to k-1, and none for pass [k];
    [run_timing_test] raises the same exception in the world the failing
    pass left, so that no later pass runs; nothing of the summary has been
    printed; and [main] prints the error and the traceback and returns the
    exit code 1. *)
Theorem failure_halts_run :
  forall (env : Env) (a : args) (k : Z) (e : exn) (w wk wf : World),
    0 <= k < arg_iterations a ->
    for_in (range k) (pass_of env a) (heading_of a w) = (Ok tt, wk) ->
    pass_of env a k wk = (Raise e, wf) ->
    length (all_timings wk) = Z.to_nat k
    /\ all_timings wf = all_timings wk
    /\ run_of env a w = (Raise e, wf)
    /\ List.filter is_summary_event (trace wf) = List.filter is_summary_event (trace w)
    /\ main env a w = (Ok 1, logged [PrintError e; PrintTraceback e] wf).
Proof.
  intros env a k e w wk wf Hk Hloop Hpass.
  unfold pass_of, heading_of, run_of in *.
  assert (Hrun : run_timing_test env (arg_model a) (arg_prompt a) (arg_region a)
                   (arg_profile a) (arg_max_tokens a) (arg_iterations a) w = (Raise e, wf)).
  { rewrite run_timing_test_run, (range_split _ _ Hk), for_in_app, Hloop, for_in_cons, Hpass.
    reflexivity. }
  pose proof (iteration_outcome _ _ _ _ _ _ _ _ _ _ _ Hpass) as (Hsum & Hall).
  pose proof (loop_outcome _ _ _ _ _ _ _ _ _ _ Hloop) as (Hsum0 & Hzero & Hpos).
  split.
  { destruct (Z_le_gt_dec k 0) as [Hk0|Hk0].
    - rewrite (Hzero Hk0). cbn. lia.
    - destruct Hpos as (recs & Hrecs & Hlen & _); [lia|].
      rewrite Hrecs. cbn. exact Hlen. }
  split; [exact Hall|]. split; [exact Hrun|]. split.
  - rewrite Hsum, Hsum0. unfold after_heading. cbn [trace].
    rewrite List.filter_app. cbn. apply app_nil_r.
  - rewrite main_run, Hrun. reflexivity.
Qed.

Lemma failure_halts_run_witness :
  fst (main third_call_fails_env three_iterations start_world) = Ok 1
  /\ length (all_timings (snd (main third_call_fails_env three_iterations start_world)))
     = 2%nat.
Proof.
  destruct (for_in (range 2) (pass_of third_call_fails_env three_iterations)
              (heading_of three_iterations start_world)) as [[[]|e0] wk] eqn:Hloop;
    [|vm_compute in Hloop; discriminate].
  destruct (pass_of third_call_fails_env three_iterations 2 wk) as [[[]|e] wf] eqn:Hpass.
  { exfalso. vm_compute in Hloop. injection Hloop as <-.
    vm_compute in Hpass. discriminate. }
  destruct (failure_halts_run third_call_fails_env three_iterations 2 e start_world wk wf)
    as (Hlen & Hall & _ & _ & Hmain).
  - cbn. lia.
  - exact Hloop.
  - exact Hpass.
  - rewrite Hmain. cbn [fst snd logged all_timings]. rewrite Hall. split; [reflexivity|].
    exact Hlen.
Defined.

(** ** Binary64 order *)

Lemma lex_cases (e1 e2 : Z) (m1 m2 : positive) :
  match e1 ?= e2 with
  | Lt => Lt
  | Gt => Gt
  | Eq => Pos.compare_cont Eq m1 m2
  end =
  if decide (e1 < e2 \/ (e1 = e2 /\ (m1 < m2)%positive)) then Lt
  else if decide (e1 = e2 /\ m1 = m2) then Eq else Gt.
Proof.
  change (Pos.compare_cont Eq m1 m2) with (Pos.compare m1 m2).
  destruct (Z.compare_spec e1 e2), (Pos.compare_spec m1 m2);
    repeat case_decide; try reflexivity; lia.
Qed.

Lemma lex_cases_neg (e1 e2 : Z) (m1 m2 : positive) :
  match e1 ?= e2 with
  | Lt => Gt
  | Gt => Lt
  | Eq => CompOpp (Pos.compare_cont Eq m1 m2)
  end =
  if decide (e1 < e2 \/ (e1 = e2 /\ (m1 < m2)%positive)) then Gt
  else if decide (e1 = e2 /\ m1 = m2) then Eq else Lt.
Proof.
  change (Pos.compare_cont Eq m1 m2) with (Pos.compare m1 m2).
  destruct (Z.compare_spec e1 e2), (Pos.compare_spec m1 m2);
    repeat case_decide; try reflexivity; lia.
Qed.

Lemma SFleb_trans (x y z : spec_float) :
  SFleb x y = true -> SFleb y z = true -> SFleb x z = true.
Proof.
  unfold SFleb.
  destruct x as [sx|sx| |sx mx ex], y as [sy|sy| |sy my ey], z as [sz|sz| |sz mz ez];
    try destruct sx; try destruct sy; try destruct sz; cbn [SFcompare];
    try reflexivity; try discriminate.
  all: rewrite ?lex_cases, ?lex_cases_neg; intros H1 H2; repeat case_decide;
    cbn [CompOpp] in *; try reflexivity; try discriminate; lia.
Qed.

Lemma SFcompare_swap (x y : spec_float) :
  SFcompare y x = option_map CompOpp (SFcompare x y).
Proof.
  destruct x as [sx|sx| |sx mx ex], y as [sy|sy| |sy my ey];
    try destruct sx; try destruct sy; cbn [SFcompare option_map CompOpp]; try reflexivity.
  all: rewrite ?lex_cases, ?lex_cases_neg; repeat case_decide; cbn [CompOpp];
    try reflexivity; lia.
Qed.

Lemma SFcompare_refl (x : spec_float) : x <> S754_nan -> SFcompare x x = Some Eq.
Proof.
  destruct x as [sx|sx| |sx mx ex]; try destruct sx; cbn [SFcompare]; try reflexivity.
  - congruence.
  - intros _. rewrite lex_cases_neg. repeat case_decide; try reflexivity; lia.
  - intros _. rewrite lex_cases. repeat case_decide; try reflexivity; lia.
Qed.

Lemma SFcompare_some (x y : spec_float) :
  x <> S754_nan -> y <> S754_nan -> exists c, SFcompare x y = Some c.
Proof.
  destruct x as [sx|sx| |sx mx ex], y as [sy|sy| |sy my ey]; cbn [SFcompare];
    try congruence; eauto.
Qed.

Lemma not_nan_spec (x : float) : not_nan x <-> Prim2SF x <> S754_nan.
Proof.
  unfold not_nan, is_nan. rewrite FloatAxioms.eqb_spec. unfold SFeqb. split.
  - intros H Hnan. rewrite Hnan in H. discriminate.
  - intros H. rewrite (SFcompare_refl _ H). reflexivity.
Qed.

Lemma not_nan_eqb (x : float) : not_nan x -> (x =? x)%float = true.
Proof. unfold not_nan, is_nan. destruct (x =? x)%float; [reflexivity | discriminate]. Qed.

Lemma fle_refl (x : float) : not_nan x -> fle x x.
Proof.
  intros H. apply not_nan_spec in H. unfold fle. rewrite FloatAxioms.leb_spec. unfold SFleb.
  rewrite (SFcompare_refl _ H). reflexivity.
Qed.

Lemma fle_trans (x y z : float) : fle x y -> fle y z -> fle x z.
Proof. unfold fle. rewrite !FloatAxioms.leb_spec. apply SFleb_trans. Qed.

Lemma ltb_fle (x y : float) : (x <? y)%float = true -> fle x y.
Proof.
  unfold fle. rewrite FloatAxioms.ltb_spec, FloatAxioms.leb_spec. unfold SFltb, SFleb.
  destruct (SFcompare (Prim2SF x) (Prim2SF y)) as [[]|]; congruence.
Qed.

Lemma not_ltb_fle (x y : float) :
  not_nan x -> not_nan y -> (x <? y)%float = false -> fle y x.
Proof.
  intros Hx Hy. apply not_nan_spec in Hx, Hy.
  unfold fle. rewrite FloatAxioms.ltb_spec, FloatAxioms.leb_spec. unfold SFltb, SFleb.
  rewrite (SFcompare_swap (Prim2SF x) (Prim2SF y)).
  destruct (SFcompare_some _ _ Hx Hy) as [c ->]. destruct c; cbn; congruence.
Qed.

Lemma eqb_fle (x y : float) : (x =? y)%float = true -> fle x y.
Proof.
  unfold fle. rewrite FloatAxioms.eqb_spec, FloatAxioms.leb_spec. unfold SFeqb, SFleb.
  destruct (SFcompare (Prim2SF x) (Prim2SF y)) as [[]|]; congruence.
Qed.

#[global] Instance fle_transitive : Transitive fle.
Proof. intros x y z. apply fle_trans. Qed.

(** ** Sorting *)

Lemma insert_perm (x : float) (l : list float) : Permutation (insert x l) (x :: l).
Proof.
  induction l as [|y l IH]; cbn [insert].
  - reflexivity.
  - destruct (y <? x)%float.
    + rewrite IH. apply perm_swap.
    + reflexivity.
Qed.

Lemma sorted_perm (values : list float) : Permutation (sorted values) values.
Proof.
  induction values as [|x values IH]; cbn [sorted foldr].
  - reflexivity.
  - fold (sorted values). rewrite insert_perm, IH. reflexivity.
Qed.

Lemma sorted_length (values : list float) : length (sorted values) = length values.
Proof. apply Permutation_length, sorted_perm. Qed.

Lemma insert_HdRel (x y : float) (l : list float) :
  fle y x -> HdRel fle y l -> HdRel fle y (insert x l).
Proof.
  intros Hyx Hl. destruct l as [|z l]; cbn [insert].
  - constructor. exact Hyx.
  - destruct (z <? x)%float; constructor; [|exact Hyx].
    inversion Hl; assumption.
Qed.

Lemma insert_sorted (x : float) (l : list float) :
  not_nan x -> Forall not_nan l -> Sorted fle l -> Sorted fle (insert x l).
Proof.
  intros Hx Hl Hs. induction l as [|y l IH]; cbn [insert].
  - repeat constructor.
  - apply Forall_cons in Hl as [Hy Hl]. inversion Hs as [|? ? Hs' Hhd]; subst.
    destruct (y <? x)%float eqn:Hlt.
    + constructor; [apply IH; assumption|].
      apply insert_HdRel; [apply ltb_fle; exact Hlt | exact Hhd].
    + constructor; [exact Hs|]. constructor. apply not_ltb_fle; assumption.
Qed.

Lemma sorted_not_nan (values : list float) :
  Forall not_nan values -> Forall not_nan (sorted values).
Proof.
  intros H. rewrite sorted_perm. exact H.
Qed.

Lemma sorted_ascending (values : list float) :
  Forall not_nan values -> StronglySorted fle (sorted values).
Proof.
  intros H. apply Sorted_StronglySorted; [exact fle_transitive|].
  induction values as [|x values IH]; cbn [sorted foldr].
  - constructor.
  - apply Forall_cons in H as [Hx H]. fold (sorted values).
    apply insert_sorted; [exact Hx | apply sorted_not_nan; exact H | apply IH; exact H].
Qed.

Lemma sorted_middle (values : list float) :
  values <> [] -> exists med, sorted values !! (length (sorted values) / 2)%nat = Some med.
Proof.
  intros H. apply lookup_lt_is_Some_2. rewrite sorted_length.
  apply Nat.div_lt; [|lia]. destruct values; [congruence | cbn; lia].
Qed.

(** ** min, max, mean *)

Lemma py_min_spec (rest : list float) :
  forall first : float,
    not_nan first -> Forall not_nan rest ->
    In (py_min first rest) (first :: rest)
    /\ Forall (fle (py_min first rest)) (first :: rest).
Proof.
  unfold py_min. induction rest as [|x rest IH]; intros first Hf Hr; cbn [fold_left].
  - split; [left; reflexivity|]. constructor; [apply fle_refl; exact Hf | constructor].
  - apply Forall_cons in Hr as [Hx Hr].
    destruct (x <? first)%float eqn:Hlt.
    + destruct (IH x Hx Hr) as [Hin Hall]. apply Forall_cons in Hall as [Hmx Hall].
      split; [right; exact Hin|].
      constructor; [|constructor; assumption].
      apply (fle_trans _ x); [exact Hmx | apply ltb_fle; exact Hlt].
    + destruct (IH first Hf Hr) as [Hin Hall]. apply Forall_cons in Hall as [Hmf Hall].
      split; [destruct Hin as [Hin|Hin]; [left; exact Hin | right; right; exact Hin]|].
      constructor; [exact Hmf|]. constructor; [|exact Hall].
      apply (fle_trans _ first); [exact Hmf | apply not_ltb_fle; assumption].
Qed.

Lemma py_max_spec (rest : list float) :
  forall first : float,
    not_nan first -> Forall not_nan rest ->
    In (py_max first rest) (first :: rest)
    /\ Forall (fun v => fle v (py_max first rest)) (first :: rest).
Proof.
  unfold py_max. induction rest as [|x rest IH]; intros first Hf Hr; cbn [fold_left].
  - split; [left; reflexivity|]. constructor; [apply fle_refl; exact Hf | constructor].
  - apply Forall_cons in Hr as [Hx Hr].
    destruct (first <? x)%float eqn:Hlt.
    + destruct (IH x Hx Hr) as [Hin Hall]. apply Forall_cons in Hall as [Hmx Hall].
      split; [right; exact Hin|].
      constructor; [|constructor; assumption].
      apply (fle_trans _ x); [apply ltb_fle; exact Hlt | exact Hmx].
    + destruct (IH first Hf Hr) as [Hin Hall]. apply Forall_cons in Hall as [Hmf Hall].
      split; [destruct Hin as [Hin|Hin]; [left; exact Hin | right; right; exact Hin]|].
      constructor; [exact Hmf|]. constructor; [|exact Hall].
      apply (fle_trans _ first); [apply not_ltb_fle; assumption | exact Hmf].
Qed.

Lemma summary_row_nonempty (metric : string) (first : float) (rest : list float) :
  exists med : float,
    sorted (first :: rest) !! (length (first :: rest) / 2)%nat = Some med
    /\ summary_row metric (first :: rest) =
         Ok (Some (title (replace_underscore metric), py_min first rest, py_max first rest,
                   (fsum (first :: rest) / float_of_nat (length (first :: rest)))%float,
                   med)).
Proof.
  destruct (sorted_middle (first :: rest)) as [med Hmed]; [discriminate|].
  exists med. split; [rewrite <- (sorted_length (first :: rest)); exact Hmed|].
  unfold summary_row. cbv zeta. rewrite Hmed. reflexivity.
Qed.

(** ** The median (C3) *)

(** C3. For every non-empty list of metric values the row computed by
    [print_summary] holds as its median the item at index [len // 2] of
    [sorted(values)], a rearrangement of the values that is ascending
    whenever the values are numbers (not NaN): the upper of the two middle
    items when the length is even, never an interpolation. *)
Theorem median_upper_middle :
  forall (metric : string) (values : list float),
    values <> [] ->
    exists (heading : string) (min_val max_val avg_val median_val : float),
      summary_row metric values = Ok (Some (heading, min_val, max_val, avg_val, median_val))
      /\ sorted values !! (length values / 2)%nat = Some median_val
      /\ Permutation (sorted values) values
      /\ (Forall not_nan values -> StronglySorted fle (sorted values)).
Proof.
  intros metric [|first rest] H; [congruence|].
  destruct (summary_row_nonempty metric first rest) as (med & Hmed & Hrow).
  eexists _, _, _, _, med. split; [exact Hrow|]. split; [exact Hmed|].
  split; [apply sorted_perm | apply sorted_ascending].
Qed.

Lemma median_upper_middle_witness :
  (exists heading min_val max_val avg_val,
     summary_row "api_call" [2; 4; 6]%float =
       Ok (Some (heading, min_val, max_val, avg_val, 4%float)))
  /\ (exists heading min_val max_val avg_val,
        summary_row "api_call" [2; 4; 6; 8]%float =
          Ok (Some (heading, min_val, max_val, avg_val, 6%float))).
Proof.
  split.
  - destruct (median_upper_middle "api_call" [2; 4; 6]%float)
      as (heading & mn & mx & av & med & Hrow & Hmed & _); [discriminate|].
    vm_compute in Hmed. injection Hmed as <-. eauto.
  - destruct (median_upper_middle "api_call" [2; 4; 6; 8]%float)
      as (heading & mn & mx & av & med & Hrow & Hmed & _); [discriminate|].
    vm_compute in Hmed. injection Hmed as <-. eauto.
Defined.

(** ** The summary (C8) *)

Lemma summary_rows_ok (ms : list string) (ts : list timings) :
  exists rows : list table_row,
    summary_rows ms ts = Ok rows
    /\ (forall (metric : string) (first : float) (rest : list float),
          In metric ms -> metric_values metric ts = first :: rest ->
          exists med : float,
            sorted (first :: rest) !! (length (first :: rest) / 2)%nat = Some med
            /\ In (title (replace_underscore metric), py_min first rest, py_max first rest,
                   (fsum (first :: rest) / float_of_nat (length (first :: rest)))%float, med)
                  rows)
    /\ (forall row : table_row,
          In row rows ->
          exists (metric : string) (first : float) (rest : list float) (med : float),
            In metric ms /\ metric_values metric ts = first :: rest
            /\ row = (title (replace_underscore metric), py_min first rest, py_max first rest,
                      (fsum (first :: rest) / float_of_nat (length (first :: rest)))%float,
                      med)).
Proof.
  induction ms as [|m ms (rows & Hrows & Hin & Hout)]; cbn [summary_rows].
  - exists []. split; [reflexivity|]. split; [intros ? ? ? []|intros ? []].
  - rewrite Hrows. destruct (metric_values m ts) as [|first rest] eqn:Hvalues.
    + exists rows. split; [reflexivity|]. split.
      * intros metric f r [<-|Hm] Hv; [congruence|]. exact (Hin _ _ _ Hm Hv).
      * intros row Hrow. destruct (Hout row Hrow) as (metric & f & r & med & Hm & Hv & ->).
        exists metric, f, r, med. split; [right; exact Hm|]. split; [exact Hv | reflexivity].
    + destruct (summary_row_nonempty m first rest) as (med & Hmed & ->).
      cbn [mbind result_bind option_list app].
      eexists. split; [reflexivity|]. split.
      * intros metric f r [<-|Hm] Hv.
        -- rewrite Hvalues in Hv. injection Hv as <- <-.
           exists med. split; [exact Hmed | left; reflexivity].
        -- destruct (Hin _ _ _ Hm Hv) as (med' & Hmed' & Hrow).
           exists med'. split; [exact Hmed' | right; exact Hrow].
      * intros row [<-|Hrow].
        -- exists m, first, rest, med. split; [left; reflexivity|].
           split; [exact Hvalues | reflexivity].
        -- destruct (Hout row Hrow) as (metric & f & r & med' & Hm & Hv & ->).
           exists metric, f, r, med'. split; [right; exact Hm|].
           split; [exact Hv | reflexivity].
Qed.



Lemma loop_no_summary (env : Env) (model_id prompt region : string)
    (profile : option string) (max_tokens iterations : Z) (l : list Z) :
  forall (w w' : World) (res : result unit),
    for_in l (iteration env model_id prompt region profile max_tokens iterations) w
      = (res, w') ->
    List.filter is_summary_event (trace w') = List.filter is_summary_event (trace w).
Proof.
  induction l as [|i l IH]; intros w w' res H.
  - injection H as <- <-. reflexivity.
  - rewrite for_in_cons in H.
    destruct (iteration _ _ _ _ _ _ _ i w) as [[[]|e] w1] eqn:Hpass.
    + apply iteration_outcome in Hpass as [Hsum _]. rewrite (IH _ _ _ H). exact Hsum.
    + injection H as <- <-. apply iteration_outcome in Hpass as [Hsum _]. exact Hsum.
Qed.

Lemma pass_record_metric (env : Env) (first : bool) (t : nat)
    (input_tokens output_tokens : pyval) (response_length : Z) (metric : string) :
  In metric metrics ->
  is_Some (durations (pass_record env first t input_tokens output_tokens response_length)
             !! metric).
Proof.
  unfold pass_record, iteration_record, metrics. cbn [durations In].
  intros [<-|[<-|[<-|[]]]].
  - rewrite !lookup_insert_ne by discriminate. rewrite lookup_insert_eq. eauto.
  - rewrite !lookup_insert_ne by discriminate. rewrite lookup_insert_eq. eauto.
  - rewrite lookup_insert_eq. eauto.
Qed.

Lemma metric_values_all (metric : string) (ts : list timings) :
  Forall (fun t => is_Some (durations t !! metric)) ts ->
  length (metric_values metric ts) = length ts.
Proof.
  unfold metric_values. induction 1 as [|t ts [v Hv] _ IH]; cbn [omap list_omap].
  - reflexivity.
  - rewrite Hv. cbn. rewrite <- IH. reflexivity.
Qed.



(** ** Binary64 addition

    [SFadd] aligns the two mantissas, adds them and rounds the sum with
    [binary_normalize].  The rounding is first given in closed form
    ([binary_round_formula]), then shown to be monotone in the number it
    rounds ([round64_mono]); the monotonicity of the addition follows
    ([SFadd_mono], [fadd_mono]). *)

(** The number of digits of a mantissa. *)
Lemma digits2_pos_size (p : positive) : digits2_pos p = Pos.size p.
Proof. induction p; cbn; congruence. Qed.

Lemma digits2_bounds (p : positive) :
  2 ^ (Zpos (digits2_pos p) - 1) <= Zpos p < 2 ^ Zpos (digits2_pos p).
Proof.
  rewrite digits2_pos_size.
  pose proof (Pos.size_gt p) as Hgt. pose proof (Pos.size_le p) as Hle.
  apply Pos2Z.pos_lt_pos in Hgt. apply Pos2Z.pos_le_pos in Hle.
  rewrite Pos2Z.inj_pow in Hgt, Hle.
  change (Zpos p~0) with (2 * Zpos p) in Hle.
  split; [|exact Hgt].
  replace (Zpos (Pos.size p)) with (Zpos (Pos.size p) - 1 + 1) in Hle by lia.
  rewrite Z.pow_add_r in Hle by lia. lia.
Qed.

Lemma digits2_log2 (p : positive) : Zpos (digits2_pos p) = Z.log2 (Zpos p) + 1.
Proof.
  pose proof (digits2_bounds p) as [H1 H2].
  symmetry. apply Z.add_move_r. apply Z.log2_unique; [lia|].
  replace (Z.succ (Zpos (digits2_pos p) - 1)) with (Zpos (digits2_pos p)) by lia. lia.
Qed.

(** The right shift of [shr], one bit at a time. *)
Lemma iter_pos_nat {A} (f : A -> A) (p : positive) (x : A) :
  SpecFloat.iter_pos f p x = Nat.iter (Pos.to_nat p) f x.
Proof.
  revert x. induction p as [p IH|p IH|]; intros x; cbn [SpecFloat.iter_pos].
  - rewrite !IH. rewrite Pos2Nat.inj_xI.
    replace (S (2 * Pos.to_nat p))%nat with (Pos.to_nat p + (Pos.to_nat p + 1))%nat by lia.
    rewrite !Nat.iter_add. reflexivity.
  - rewrite !IH. rewrite Pos2Nat.inj_xO.
    replace (2 * Pos.to_nat p)%nat with (Pos.to_nat p + Pos.to_nat p)%nat by lia.
    rewrite Nat.iter_add. reflexivity.
  - reflexivity.
Qed.

Lemma shr_1_spec (m : Z) (r s : bool) :
  0 <= m ->
  shr_1 (Build_shr_record m r s) = Build_shr_record (m / 2) (Z.odd m) (r || s).
Proof.
  intros Hm. destruct m as [|[p|p|]|p]; try lia; cbn [shr_1].
  - reflexivity.
  - f_equal. rewrite Pos2Z.inj_xI. apply Z.div_unique with 1; lia.
  - f_equal. rewrite Pos2Z.inj_xO. apply Z.div_unique with 0; lia.
  - reflexivity.
Qed.

Lemma shr_iter_spec (M : Z) (k : nat) :
  0 <= M ->
  Nat.iter (S k) shr_1 (Build_shr_record M false false) =
  Build_shr_record (M / 2 ^ Z.of_nat (S k)) (Z.odd (M / 2 ^ Z.of_nat k))
    (nonzero (M mod 2 ^ Z.of_nat k)).
Proof.
  intros HM. induction k as [|k IH].
  - cbn [Nat.iter]. rewrite shr_1_spec by lia. cbn. rewrite Z.div_1_r, Z.mod_1_r.
    change (2 ^ 1) with 2. reflexivity.
  - change (Nat.iter (S (S k)) shr_1 ?x) with (shr_1 (Nat.iter (S k) shr_1 x)).
    rewrite IH. rewrite shr_1_spec by (apply Z.div_pos; lia).
    assert (Hp : 0 < 2 ^ Z.of_nat k) by (apply Z.pow_pos_nonneg; lia).
    replace (Z.of_nat (S (S k))) with (Z.of_nat (S k) + 1) by lia.
    rewrite Z.pow_add_r by lia. change (2 ^ 1) with 2.
    rewrite Z.div_div by lia. f_equal.
    replace (Z.of_nat (S k)) with (Z.of_nat k + 1) by lia.
    rewrite Z.pow_add_r by lia. change (2 ^ 1) with 2.
    unfold nonzero.
    rewrite Z.rem_mul_r by lia.
    pose proof (Z.mod_pos_bound M (2 ^ Z.of_nat k) Hp).
    pose proof (Z.mod_pos_bound (M / 2 ^ Z.of_nat k) 2 ltac:(lia)).
    rewrite (Zodd_mod (M / 2 ^ Z.of_nat k)).
    destruct (Z.eqb_spec (M mod 2 ^ Z.of_nat k) 0), (Z.eqb_spec ((M / 2 ^ Z.of_nat k) mod 2) 1);
      cbn; symmetry; try (apply negb_true_iff); try (apply negb_false_iff);
      rewrite ?Z.eqb_neq, ?Z.eqb_eq; nia.
Qed.

Lemma fexp_fexp64 (x : Z) : fexp prec emax x = fexp64 x.
Proof. reflexivity. Qed.

Lemma Zdigits2_log2 (M : Z) : 0 < M -> Zdigits2 M = Z.log2 M + 1.
Proof. destruct M as [|p|p]; try lia. intros _. apply digits2_log2. Qed.

Lemma shr_zero (mrs : shr_record) (e n : Z) : n <= 0 -> shr mrs e n = (mrs, e).
Proof. intros H. destruct n; try reflexivity. lia. Qed.

Lemma shr_pos (M e n : Z) :
  0 <= M -> 0 < n ->
  shr (Build_shr_record M false false) e n =
  (Build_shr_record (M / 2 ^ n) (Z.odd (M / 2 ^ (n - 1))) (nonzero (M mod 2 ^ (n - 1))),
   e + n).
Proof.
  intros HM Hn. destruct n as [|p|p]; try lia. cbn [shr].
  rewrite iter_pos_nat.
  destruct (Pos.to_nat p) as [|k] eqn:Hk; [lia|].
  rewrite shr_iter_spec by exact HM.
  replace (Z.of_nat (S k)) with (Zpos p) by lia.
  replace (Z.of_nat k) with (Zpos p - 1) by lia. reflexivity.
Qed.

Lemma round_shr (M n : Z) :
  0 <= M -> 0 < n ->
  round_nearest_even (M / 2 ^ n)
    (loc_of_shr_record
       (Build_shr_record (M / 2 ^ n) (Z.odd (M / 2 ^ (n - 1)))
          (nonzero (M mod 2 ^ (n - 1))))) = rne M n.
Proof.
  intros HM Hn. unfold rne.
  assert (Hh : 0 < 2 ^ (n - 1)) by (apply Z.pow_pos_nonneg; lia).
  assert (Hpow : 2 ^ n = 2 ^ (n - 1) * 2).
  { replace n with (n - 1 + 1) at 1 by lia. rewrite Z.pow_add_r by lia. reflexivity. }
  assert (Hrem : M mod 2 ^ n = M mod 2 ^ (n - 1) + 2 ^ (n - 1) * ((M / 2 ^ (n - 1)) mod 2)).
  { rewrite Hpow. apply Z.rem_mul_r; lia. }
  pose proof (Z.mod_pos_bound M (2 ^ (n - 1)) Hh) as Hb.
  pose proof (Z.mod_pos_bound (M / 2 ^ (n - 1)) 2 ltac:(lia)) as Hb2.
  rewrite Hrem. rewrite (Zodd_mod (M / 2 ^ (n - 1))). unfold nonzero.
  set (a := M mod 2 ^ (n - 1)) in *. set (b := (M / 2 ^ (n - 1)) mod 2) in *.
  set (h := 2 ^ (n - 1)) in *.
  destruct (Z.eqb_spec b 1) as [Hb1|Hb1].
  - rewrite Hb1. destruct (Z.eqb_spec a 0) as [Ha|Ha]; cbn [negb loc_of_shr_record round_nearest_even].
    + rewrite Ha. replace (h <? 0 + h * 1) with false by (symmetry; apply Z.ltb_ge; lia).
      replace (0 + h * 1 =? h) with true by (symmetry; apply Z.eqb_eq; lia).
      cbn [orb andb]. rewrite <- Z.negb_even. destruct (Z.even (M / 2 ^ n)); reflexivity.
    + replace (h <? a + h * 1) with true by (symmetry; apply Z.ltb_lt; lia). reflexivity.
  - assert (b = 0) by lia.
    replace (h <? a + h * b) with false by (symmetry; apply Z.ltb_ge; nia).
    replace (a + h * b =? h) with false by (symmetry; apply Z.eqb_neq; nia).
    cbn [orb andb]. destruct (negb (a =? 0)); reflexivity.
Qed.

Lemma binary_round_aux_exact (s : bool) (m e : Z) :
  0 <= m -> fexp64 (Zdigits2 m + e) <= e ->
  binary_round_aux prec emax s m e loc_Exact = pack s m e.
Proof.
  intros Hm He. unfold binary_round_aux, shr_fexp. rewrite !fexp_fexp64.
  cbn [shr_record_of_loc]. rewrite shr_zero by lia.
  cbn [shr_m loc_of_shr_record round_nearest_even]. rewrite ?fexp_fexp64.
  rewrite shr_zero by lia. cbn [shr_m]. unfold pack.
  change (emax - prec) with 971. reflexivity.
Qed.

Lemma rne_bounds (M n : Z) : M / 2 ^ n <= rne M n <= M / 2 ^ n + 1.
Proof. unfold rne. destruct (_ || _); lia. Qed.

Lemma log2_bounds (M : Z) : 0 < M -> 2 ^ Z.log2 M <= M < 2 ^ (Z.log2 M + 1).
Proof. intros H. pose proof (Z.log2_spec M H). rewrite <- Z.add_1_r in *. lia. Qed.

Lemma div_pow2_lt (M n d : Z) :
  0 <= M -> 0 <= n -> 0 <= d -> M < 2 ^ (d + n) -> M / 2 ^ n < 2 ^ d.
Proof.
  intros HM Hn Hd H. apply Z.div_lt_upper_bound; [apply Z.pow_pos_nonneg; lia|].
  rewrite <- Z.pow_add_r by lia. replace (n + d) with (d + n) by lia. exact H.
Qed.

Lemma binary_round_aux_round (s : bool) (M e : Z) :
  0 < M -> e < fexp64 (Zdigits2 M + e) ->
  binary_round_aux prec emax s M e loc_Exact =
  let E := fexp64 (Zdigits2 M + e) in
  let m1 := rne M (E - e) in
  if m1 =? 2 ^ 53 then pack s (2 ^ 52) (E + 1) else pack s m1 E.
Proof.
  intros HM He. cbv zeta. set (E := fexp64 (Zdigits2 M + e)) in *.
  unfold binary_round_aux, shr_fexp. rewrite !fexp_fexp64. fold E.
  cbn [shr_record_of_loc]. rewrite shr_pos by lia.
  cbn [shr_m]. rewrite round_shr by lia. rewrite ?fexp_fexp64.
  replace (e + (E - e)) with E by lia.
  set (m1 := rne M (E - e)).
  assert (Hq : 0 <= M / 2 ^ (E - e) < 2 ^ 53).
  { split; [apply Z.div_pos; [lia | apply Z.pow_pos_nonneg; lia]|].
    apply div_pow2_lt; try lia.
    pose proof (log2_bounds M HM) as [_ Hlt].
    eapply Z.lt_le_trans; [exact Hlt|]. apply Z.pow_le_mono_r; [lia|].
    unfold E, fexp64 in *. rewrite Zdigits2_log2 in * by lia. lia. }
  pose proof (rne_bounds M (E - e)) as Hm1. fold m1 in Hm1.
  assert (HE : -1074 <= E) by (unfold E, fexp64; lia).
  destruct (Z.eqb_spec m1 (2 ^ 53)) as [Heq|Hne].
  - rewrite Heq. change (Zdigits2 (2 ^ 53)) with 54.
    replace (fexp64 (54 + E) - E) with 1 by (unfold fexp64; lia).
    rewrite shr_pos by lia. cbn [shr_m fst snd]. unfold pack.
    change (2 ^ 53 / 2 ^ 1) with (2 ^ 52). change (emax - prec) with 971. reflexivity.
  - rewrite shr_zero.
    + cbn [shr_m]. unfold pack. change (emax - prec) with 971. reflexivity.
    + destruct (Z.eq_dec m1 0) as [->|Hnz].
      * change (Zdigits2 0) with 0. unfold fexp64. lia.
      * rewrite Zdigits2_log2 by lia. unfold fexp64.
        assert (Z.log2 m1 < 53); [|lia].
        apply Z.log2_lt_pow2; lia.
Qed.

Lemma Zdigits2_mul_pow2 (M k : Z) :
  0 < M -> 0 <= k -> Zdigits2 (M * 2 ^ k) = Zdigits2 M + k.
Proof.
  intros HM Hk. assert (0 < 2 ^ k) by (apply Z.pow_pos_nonneg; lia).
  rewrite !Zdigits2_log2 by nia. rewrite Z.log2_mul_pow2 by lia. lia.
Qed.

Lemma binary_round_formula (s : bool) (p : positive) (e : Z) :
  binary_round prec emax s p e =
  let me := rnd_pos (Zpos p) e in pack s (fst me) (snd me).
Proof.
  unfold binary_round, rnd_pos. rewrite fexp_fexp64. cbv zeta.
  replace (Z.log2 (Zpos p) + 1 + e) with (Zpos (digits2_pos p) + e)
    by (rewrite digits2_log2; lia).
  set (E := fexp64 (Zpos (digits2_pos p) + e)).
  unfold shl_align. destruct (E - e) as [|d|d] eqn:Hd.
  - replace (E <=? e) with true by (symmetry; apply Z.leb_le; lia).
    cbn [fst snd]. rewrite binary_round_aux_exact; [|lia|fold E; cbn [Zdigits2]; lia].
    replace (e - E) with 0 by lia. rewrite Z.mul_1_r. replace E with e by lia. reflexivity.
  - replace (E <=? e) with false by (symmetry; apply Z.leb_gt; lia).
    rewrite binary_round_aux_round; [|lia|cbn [Zdigits2]; fold E; lia].
    cbn [Zdigits2]. fold E. cbv zeta. rewrite <- Hd.
    destruct (rne (Zpos p) (E - e) =? 2 ^ 53); reflexivity.
  - replace (E <=? e) with true by (symmetry; apply Z.leb_le; lia).
    cbn [fst snd].
    assert (Hmz : Zpos (Pos.iter xO p d) = Zpos p * 2 ^ (e - E)).
    { change (Pos.iter xO p d) with (shift_pos d p). rewrite shift_pos_correct.
      replace (e - E) with (Zpos d) by lia. rewrite Z.mul_comm. reflexivity. }
    rewrite Hmz. apply binary_round_aux_exact.
    + assert (0 < 2 ^ (e - E)) by (apply Z.pow_pos_nonneg; lia). nia.
    + rewrite Zdigits2_mul_pow2 by lia. cbn [Zdigits2].
      assert (fexp64 (Zpos (digits2_pos p) + (e - E) + E) = E).
      { unfold E at 3. f_equal. lia. }
      lia.
Qed.

Lemma pow2_pos (k : Z) : 0 <= k -> 0 < 2 ^ k.
Proof. intros. apply Z.pow_pos_nonneg; lia. Qed.

Lemma pow2_split (a b : Z) : 0 <= b <= a -> 2 ^ a = 2 ^ (a - b) * 2 ^ b.
Proof. intros H. rewrite <- Z.pow_add_r by lia. f_equal. lia. Qed.

Lemma rne_mono (M1 M2 n : Z) : 0 < n -> M1 <= M2 -> rne M1 n <= rne M2 n.
Proof.
  intros Hn HM. unfold rne.
  assert (Hp : 0 < 2 ^ n) by (apply pow2_pos; lia).
  pose proof (Z.div_le_mono M1 M2 (2 ^ n) Hp HM) as Hq.
  pose proof (Z.div_mod M1 (2 ^ n) ltac:(lia)) as H1.
  pose proof (Z.div_mod M2 (2 ^ n) ltac:(lia)) as H2.
  pose proof (Z.mod_pos_bound M1 (2 ^ n) Hp) as B1.
  pose proof (Z.mod_pos_bound M2 (2 ^ n) Hp) as B2.
  set (q1 := M1 / 2 ^ n) in *. set (q2 := M2 / 2 ^ n) in *.
  set (r1 := M1 mod 2 ^ n) in *. set (r2 := M2 mod 2 ^ n) in *.
  set (h := 2 ^ (n - 1)).
  destruct (Z.eq_dec q1 q2) as [Heq|Hne].
  - rewrite <- Heq in *. assert (r1 <= r2) by lia.
    destruct (Z.ltb_spec h r1), (Z.ltb_spec h r2), (Z.eqb_spec r1 h), (Z.eqb_spec r2 h),
      (Z.odd q1); cbn [orb andb]; lia.
  - destruct (_ || _), (_ || _); lia.
Qed.

Lemma rne_exact (M n : Z) : 0 < n -> rne (M * 2 ^ n) n = M.
Proof.
  intros Hn. unfold rne. assert (Hp : 0 < 2 ^ n) by (apply pow2_pos; lia).
  rewrite Z.div_mul by lia. rewrite Z.mod_mul by lia.
  assert (0 < 2 ^ (n - 1)) by (apply pow2_pos; lia).
  replace (2 ^ (n - 1) <? 0) with false by (symmetry; apply Z.ltb_ge; lia).
  replace (0 =? 2 ^ (n - 1)) with false by (symmetry; apply Z.eqb_neq; lia).
  reflexivity.
Qed.

Lemma rne_scale (M n j : Z) : 0 < n -> 0 <= j -> rne (M * 2 ^ j) (n + j) = rne M n.
Proof.
  intros Hn Hj. unfold rne.
  assert (Hpn : 0 < 2 ^ n) by (apply pow2_pos; lia).
  assert (Hpj : 0 < 2 ^ j) by (apply pow2_pos; lia).
  assert (Hph : 0 < 2 ^ (n - 1)) by (apply pow2_pos; lia).
  rewrite Z.pow_add_r by lia.
  rewrite Z.div_mul_cancel_r by lia.
  rewrite Zmult_mod_distr_r.
  replace (n + j - 1) with (n - 1 + j) by lia. rewrite Z.pow_add_r by lia.
  set (q := M / 2 ^ n). set (r := M mod 2 ^ n). set (h := 2 ^ (n - 1)).
  replace (h * 2 ^ j <? r * 2 ^ j) with (h <? r).
  2:{ destruct (Z.ltb_spec h r), (Z.ltb_spec (h * 2 ^ j) (r * 2 ^ j)); try reflexivity; nia. }
  replace (r * 2 ^ j =? h * 2 ^ j) with (r =? h).
  2:{ destruct (Z.eqb_spec r h), (Z.eqb_spec (r * 2 ^ j) (h * 2 ^ j)); try reflexivity; nia. }
  reflexivity.
Qed.

Lemma rnd_pre_exponent (M e : Z) : snd (rnd_pre M e) = fexp64 (Z.log2 M + 1 + e).
Proof. unfold rnd_pre. cbv zeta. destruct (_ <=? _); reflexivity. Qed.

(** Bounds on the pre-carry mantissa. *)
Lemma rnd_pre_bounds (M e : Z) :
  0 < M ->
  let m := fst (rnd_pre M e) in
  let E := snd (rnd_pre M e) in
  0 <= m <= 2 ^ 53 /\ -1074 <= E
  /\ (E <= e -> m < 2 ^ 53 /\ 0 < m)
  /\ (-1074 < E -> 2 ^ 52 <= m).
Proof.
  intros HM. cbv zeta. rewrite rnd_pre_exponent. unfold rnd_pre. cbv zeta.
  set (d := Z.log2 M + 1). set (E := fexp64 (d + e)).
  pose proof (log2_bounds M HM) as [Hlo Hhi]. fold d in Hhi.
  assert (Hd : 0 < d) by (unfold d; pose proof (Z.log2_nonneg M); lia).
  replace (Z.log2 M) with (d - 1) in Hlo by (unfold d; lia).
  assert (HE : -1074 <= E /\ d + e - 53 <= E /\ (E = -1074 \/ E = d + e - 53))
    by (unfold E, fexp64; lia).
  destruct (Z.leb_spec E e) as [Hle|Hgt]; cbn [fst snd].
  - assert (Hp : 0 < 2 ^ (e - E)) by (apply pow2_pos; lia).
    assert (Hlt : M * 2 ^ (e - E) < 2 ^ 53).
    { apply Z.lt_le_trans with (2 ^ d * 2 ^ (e - E)); [nia|].
      rewrite <- Z.pow_add_r by lia. apply Z.pow_le_mono_r; lia. }
    split; [nia|]. split; [lia|]. split; [intros _; nia|].
    intros Hn. assert (E = d + e - 53) by lia.
    apply Z.le_trans with (2 ^ (d - 1) * 2 ^ (e - E)); [|nia].
    rewrite <- Z.pow_add_r by lia. apply Z.pow_le_mono_r; lia.
  - pose proof (rne_bounds M (E - e)) as Hr.
    assert (Hp : 0 < 2 ^ (E - e)) by (apply pow2_pos; lia).
    assert (Hq0 : 0 <= M / 2 ^ (E - e)) by (apply Z.div_pos; lia).
    assert (Hq : M / 2 ^ (E - e) < 2 ^ 53).
    { apply div_pow2_lt; try lia.
      eapply Z.lt_le_trans; [exact Hhi|]. apply Z.pow_le_mono_r; lia. }
    split; [lia|]. split; [lia|]. split; [lia|].
    intros Hn. assert (HEq : E = d + e - 53) by lia.
    apply Z.le_trans with (M / 2 ^ (E - e)); [|lia].
    apply Z.div_le_lower_bound; [lia|].
    rewrite <- Z.pow_add_r by lia.
    replace (E - e + 52) with (d - 1) by lia. exact Hlo.
Qed.

Lemma rnd_pos_carry (M e : Z) : 0 < M -> rnd_pos M e = carry (rnd_pre M e).
Proof.
  intros HM. pose proof (rnd_pre_bounds M e HM) as (Hm & HE & Hex & Hn).
  revert Hm HE Hex Hn. cbv zeta. unfold rnd_pos, rnd_pre, carry. cbv zeta.
  destruct (Z.leb_spec (fexp64 (Z.log2 M + 1 + e)) e) as [Hle|Hgt]; cbn [fst snd].
  - intros _ _ Hex _. destruct (Hex Hle) as [Hlt _].
    destruct (Z.eqb_spec (M * 2 ^ (e - fexp64 (Z.log2 M + 1 + e))) (2 ^ 53)); [lia|reflexivity].
  - intros _ _ _ _. reflexivity.
Qed.

Lemma scaled_shift (b' b m e : Z) : b' <= b -> b <= e -> scaled b' m e = scaled b m e * 2 ^ (b - b').
Proof.
  intros H1 H2. unfold scaled. rewrite <- Z.mul_assoc, <- Z.pow_add_r by lia.
  do 2 f_equal. lia.
Qed.

Lemma scaled_le_shift (b' b m1 e1 m2 e2 : Z) :
  b' <= b -> b <= e1 -> b <= e2 ->
  (scaled b' m1 e1 <= scaled b' m2 e2 <-> scaled b m1 e1 <= scaled b m2 e2).
Proof.
  intros H0 H1 H2. rewrite (scaled_shift b' b m1 e1), (scaled_shift b' b m2 e2) by lia.
  assert (0 < 2 ^ (b - b')) by (apply pow2_pos; lia). nia.
Qed.

Lemma dle_scaled (b m1 e1 m2 e2 : Z) :
  b <= e1 -> b <= e2 -> (dle (m1, e1) (m2, e2) <-> scaled b m1 e1 <= scaled b m2 e2).
Proof.
  intros H1 H2. unfold dle. cbn [fst snd]. symmetry. apply scaled_le_shift; lia.
Qed.

Lemma carry_scaled (b : Z) (me : Z * Z) :
  b <= snd me -> scaled b (fst (carry me)) (snd (carry me)) = scaled b (fst me) (snd me).
Proof.
  intros Hb. unfold carry. destruct (Z.eqb_spec (fst me) (2 ^ 53)) as [Heq|]; [|reflexivity].
  cbn [fst snd]. rewrite Heq. unfold scaled.
  replace (snd me + 1 - b) with (1 + (snd me - b)) by lia.
  rewrite Z.pow_add_r by lia. change (2 ^ 53) with (2 ^ 52 * 2 ^ 1). ring.
Qed.

Lemma carry_exponent (me : Z * Z) : snd me <= snd (carry me).
Proof. unfold carry. destruct (_ =? _); cbn [snd]; lia. Qed.

Lemma dle_carry (x y : Z * Z) : dle x y -> dle (carry x) (carry y).
Proof.
  destruct x as [m1 e1], y as [m2 e2]. intros H.
  pose proof (carry_exponent (m1, e1)) as H1. pose proof (carry_exponent (m2, e2)) as H2.
  cbn [snd] in H1, H2.
  rewrite (dle_scaled (Z.min e1 e2)) in H by lia.
  destruct (carry (m1, e1)) as [m1' e1'] eqn:E1, (carry (m2, e2)) as [m2' e2'] eqn:E2.
  cbn [snd] in H1, H2.
  rewrite (dle_scaled (Z.min e1 e2)) by lia.
  pose proof (carry_scaled (Z.min e1 e2) (m1, e1)) as C1.
  pose proof (carry_scaled (Z.min e1 e2) (m2, e2)) as C2.
  rewrite E1 in C1. rewrite E2 in C2. cbn [fst snd] in C1, C2.
  rewrite C1, C2 by lia. exact H.
Qed.

(** Rounding is monotone, for mantissas given at a common exponent. *)
Lemma rnd_pre_mono (M1 M2 e : Z) :
  0 < M1 -> M1 <= M2 -> dle (rnd_pre M1 e) (rnd_pre M2 e).
Proof.
  intros H1 H12. assert (H2 : 0 < M2) by lia.
  pose proof (rnd_pre_bounds M1 e H1) as (Hm1 & HE1 & Hex1 & Hn1).
  pose proof (rnd_pre_bounds M2 e H2) as (Hm2 & HE2 & Hex2 & Hn2).
  cbv zeta in *.
  pose proof (rnd_pre_exponent M1 e) as X1. pose proof (rnd_pre_exponent M2 e) as X2.
  assert (HE : snd (rnd_pre M1 e) <= snd (rnd_pre M2 e)).
  { rewrite X1, X2. pose proof (Z.log2_le_mono M1 M2 H12). unfold fexp64. lia. }
  assert (Hcase : snd (rnd_pre M1 e) = snd (rnd_pre M2 e) /\
                  fst (rnd_pre M1 e) <= fst (rnd_pre M2 e)
               \/ snd (rnd_pre M1 e) < snd (rnd_pre M2 e)).
  { destruct (Z.eq_dec (snd (rnd_pre M1 e)) (snd (rnd_pre M2 e))) as [Heq|Hne]; [left|right; lia].
    split; [exact Heq|]. rewrite X1, X2 in Heq. unfold rnd_pre. cbv zeta. rewrite <- Heq.
    destruct (Z.leb_spec (fexp64 (Z.log2 M1 + 1 + e)) e); cbn [fst].
    - assert (0 < 2 ^ (e - fexp64 (Z.log2 M1 + 1 + e))) by (apply pow2_pos; lia). nia.
    - apply rne_mono; lia. }
  destruct (rnd_pre M1 e) as [m1 E1], (rnd_pre M2 e) as [m2 E2]. cbn [fst snd] in *.
  rewrite (dle_scaled E1) by lia. unfold scaled. rewrite Z.sub_diag, Z.mul_1_r.
  destruct Hcase as [[-> Hle] | Hlt].
  - rewrite Z.sub_diag. lia.
  - specialize (Hn2 ltac:(lia)).
    assert (2 ^ 1 <= 2 ^ (E2 - E1)) by (apply Z.pow_le_mono_r; lia).
    change (2 ^ 1) with 2 in *. change (2 ^ 53) with (2 ^ 52 * 2) in *. nia.
Qed.

Lemma rnd_pos_mono_same (M1 M2 e : Z) :
  0 < M1 -> M1 <= M2 -> dle (rnd_pos M1 e) (rnd_pos M2 e).
Proof.
  intros H1 H12. rewrite !rnd_pos_carry by lia. apply dle_carry, rnd_pre_mono; assumption.
Qed.

Lemma rnd_pre_scale (M e j : Z) :
  0 < M -> 0 <= j -> rnd_pre (M * 2 ^ j) (e - j) = rnd_pre M e.
Proof.
  intros HM Hj. assert (Hp : 0 < 2 ^ j) by (apply pow2_pos; lia).
  unfold rnd_pre. cbv zeta.
  rewrite Z.log2_mul_pow2 by lia.
  replace (j + Z.log2 M + 1 + (e - j)) with (Z.log2 M + 1 + e) by lia.
  set (E := fexp64 (Z.log2 M + 1 + e)).
  destruct (Z.leb_spec E e) as [Hle|Hgt].
  - destruct (Z.leb_spec E (e - j)) as [Hle'|Hgt'].
    + f_equal. rewrite <- Z.mul_assoc, <- Z.pow_add_r by lia. do 2 f_equal. lia.
    + f_equal. replace j with ((e - E) + (E - (e - j))) at 1 by lia.
      rewrite Z.pow_add_r, Z.mul_assoc by lia. apply rne_exact. lia.
  - replace (E <=? e - j) with false by (symmetry; apply Z.leb_gt; lia).
    f_equal. replace (E - (e - j)) with (E - e + j) by lia. apply rne_scale; lia.
Qed.

(** Rounding depends on the value only. *)
Lemma rnd_pos_scale (M e j : Z) :
  0 < M -> 0 <= j -> rnd_pos (M * 2 ^ j) (e - j) = rnd_pos M e.
Proof.
  intros HM Hj. assert (Hp : 0 < 2 ^ j) by (apply pow2_pos; lia).
  rewrite !rnd_pos_carry by nia. rewrite rnd_pre_scale by lia. reflexivity.
Qed.

(** Rounding is monotone. *)
Lemma rnd_pos_mono (M1 e1 M2 e2 : Z) :
  0 < M1 -> dle (M1, e1) (M2, e2) -> dle (rnd_pos M1 e1) (rnd_pos M2 e2).
Proof.
  intros H1 H. unfold dle in H. cbn [fst snd] in H. unfold scaled in H.
  set (b := Z.min e1 e2) in *.
  assert (P1 : 0 < 2 ^ (e1 - b)) by (apply pow2_pos; lia).
  assert (P2 : 0 < 2 ^ (e2 - b)) by (apply pow2_pos; lia).
  assert (H2 : 0 < M2) by nia.
  rewrite <- (rnd_pos_scale M1 e1 (e1 - b)), <- (rnd_pos_scale M2 e2 (e2 - b)) by lia.
  replace (e1 - (e1 - b)) with b by lia. replace (e2 - (e2 - b)) with b by lia.
  apply rnd_pos_mono_same; [nia|exact H].
Qed.

Lemma rnd_pos_canonical (M e : Z) : 0 < M -> canonical (rnd_pos M e).
Proof.
  intros HM. rewrite rnd_pos_carry by exact HM.
  pose proof (rnd_pre_bounds M e HM) as (Hm & HE & Hex & Hn). cbv zeta in *.
  destruct (rnd_pre M e) as [m E]. cbn [fst snd] in *.
  unfold carry, canonical. cbn [fst snd].
  destruct (Z.eqb_spec m (2 ^ 53)) as [->|Hne]; cbn [fst snd].
  - split; [|split]; [ | lia | right; lia]. split; [|reflexivity]. discriminate.
  - split; [lia|]. split; [lia|]. destruct (Z.eq_dec E (-1074)); [left; assumption|right].
    apply Hn. lia.
Qed.

Lemma round64_formula (S e : Z) :
  round64 S e =
  if S =? 0 then S754_zero false
  else let me := rnd_pos (Z.abs S) e in pack (S <? 0) (fst me) (snd me).
Proof.
  unfold round64, binary_normalize. destruct S as [|p|p]; cbn [Z.eqb Z.ltb Z.compare Z.abs].
  - reflexivity.
  - apply binary_round_formula.
  - apply binary_round_formula.
Qed.

Lemma pack_not_nan (s : bool) (m E : Z) : 0 <= m -> pack s m E <> S754_nan.
Proof.
  intros H. unfold pack. destruct m as [|p|p]; [discriminate| |lia].
  destruct (E <=? 971); discriminate.
Qed.

(** The order of canonical pairs is lexicographic. *)
Lemma canonical_lex (a b : Z * Z) :
  canonical a -> canonical b -> dle a b ->
  fst a = 0 \/ (0 < fst a /\ 0 < fst b /\
               (snd a < snd b \/ (snd a = snd b /\ fst a <= fst b))).
Proof.
  destruct a as [m1 E1], b as [m2 E2]. unfold canonical, dle, scaled. cbn [fst snd].
  intros (Hm1 & HE1 & Hc1) (Hm2 & HE2 & Hc2) H.
  destruct (Z.eq_dec m1 0) as [->|Hne]; [left; reflexivity|right].
  assert (P1 : 0 < 2 ^ (E1 - Z.min E1 E2)) by (apply pow2_pos; lia).
  assert (P2 : 0 < 2 ^ (E2 - Z.min E1 E2)) by (apply pow2_pos; lia).
  split; [lia|]. split; [nia|].
  destruct (Z.lt_trichotomy E1 E2) as [Hlt|[Heq|Hgt]]; [left; exact Hlt| |exfalso].
  - right. split; [exact Heq|]. subst E2. rewrite Z.min_id, Z.sub_diag in H. lia.
  - rewrite Z.min_r, Z.sub_diag in H by lia.
    assert (2 ^ 1 <= 2 ^ (E1 - E2)) by (apply Z.pow_le_mono_r; lia).
    change (2 ^ 1) with 2 in *. change (2 ^ 53) with (2 ^ 52 * 2) in *. nia.
Qed.

Lemma lex_dle (m1 E1 m2 E2 : Z) :
  canonical (m1, E1) -> canonical (m2, E2) -> 0 < m2 ->
  E1 < E2 \/ (E1 = E2 /\ m1 <= m2) -> dle (m1, E1) (m2, E2).
Proof.
  unfold canonical, dle, scaled. cbn [fst snd].
  intros (Hm1 & HE1 & Hc1) (Hm2 & HE2 & Hc2) Hpos [Hlt|[-> Hle]].
  - rewrite Z.min_l, Z.sub_diag by lia.
    assert (2 ^ 1 <= 2 ^ (E2 - E1)) by (apply Z.pow_le_mono_r; lia).
    change (2 ^ 1) with 2 in *. change (2 ^ 53) with (2 ^ 52 * 2) in *. nia.
  - rewrite Z.min_id, Z.sub_diag. lia.
Qed.

Lemma pack_order (a b : Z * Z) :
  canonical a -> canonical b -> dle a b ->
  SFleb (pack false (fst a) (snd a)) (pack false (fst b) (snd b)) = true
  /\ SFleb (pack true (fst b) (snd b)) (pack true (fst a) (snd a)) = true.
Proof.
  intros Ha Hb Hab. pose proof (canonical_lex a b Ha Hb Hab) as Hlex.
  destruct a as [m1 E1], b as [m2 E2]. cbn [fst snd] in *.
  destruct Ha as (Hm1 & _), Hb as (Hm2 & _). cbn [fst snd] in *.
  unfold pack, SFleb.
  destruct m1 as [|p1|p1], m2 as [|p2|p2]; try lia;
    repeat match goal with |- context [?x <=? 971] => destruct (Z.leb_spec x 971) end;
    cbn [SFcompare]; try (split; reflexivity); try lia.
  rewrite lex_cases, lex_cases_neg. repeat case_decide; split; try reflexivity; lia.
Qed.

(** Rounding to binary64 is monotone. *)
Lemma round64_mono (S1 e1 S2 e2 : Z) :
  dle (S1, e1) (S2, e2) -> SFleb (round64 S1 e1) (round64 S2 e2) = true.
Proof.
  intros H. rewrite !round64_formula. cbv zeta.
  assert (Hs : forall S e, S <> 0 -> canonical (rnd_pos (Z.abs S) e))
    by (intros; apply rnd_pos_canonical; lia).
  assert (Hsign : (S1 <= 0 <= S2) \/ (0 < S1 /\ 0 < S2) \/ (S1 < 0 /\ S2 < 0)).
  { unfold dle, scaled in H. cbn [fst snd] in H.
    assert (P1 : 0 < 2 ^ (e1 - Z.min e1 e2)) by (apply pow2_pos; lia).
    assert (P2 : 0 < 2 ^ (e2 - Z.min e1 e2)) by (apply pow2_pos; lia). nia. }
  destruct Hsign as [Hsign|[[H1 H2]|[H1 H2]]].
  - destruct (Z.eqb_spec S1 0) as [->|N1], (Z.eqb_spec S2 0) as [->|N2].
    + reflexivity.
    + replace (S2 <? 0) with false by (symmetry; apply Z.ltb_ge; lia).
      specialize (Hs S2 e2 N2). destruct (rnd_pos (Z.abs S2) e2) as [m E].
      destruct Hs as ([Hm _] & _). cbn [fst snd] in *. unfold pack.
      destruct m as [|p|p]; [reflexivity| |lia]. destruct (E <=? 971); reflexivity.
    + replace (S1 <? 0) with true by (symmetry; apply Z.ltb_lt; lia).
      specialize (Hs S1 e1 N1). destruct (rnd_pos (Z.abs S1) e1) as [m E].
      destruct Hs as ([Hm _] & _). cbn [fst snd] in *. unfold pack.
      destruct m as [|p|p]; [reflexivity| |lia]. destruct (E <=? 971); reflexivity.
    + replace (S1 <? 0) with true by (symmetry; apply Z.ltb_lt; lia).
      replace (S2 <? 0) with false by (symmetry; apply Z.ltb_ge; lia).
      pose proof (Hs S1 e1 N1) as C1. pose proof (Hs S2 e2 N2) as C2.
      destruct (rnd_pos (Z.abs S1) e1) as [m1 E1], (rnd_pos (Z.abs S2) e2) as [m2 E2].
      destruct C1 as ([Hm1 _] & _), C2 as ([Hm2 _] & _). cbn [fst snd] in *. unfold pack.
      destruct m1 as [|p1|p1], m2 as [|p2|p2]; try lia;
        repeat match goal with |- context [?x <=? 971] => destruct (x <=? 971) end;
        reflexivity.
  - replace (S1 =? 0) with false by (symmetry; apply Z.eqb_neq; lia).
    replace (S2 =? 0) with false by (symmetry; apply Z.eqb_neq; lia).
    replace (S1 <? 0) with false by (symmetry; apply Z.ltb_ge; lia).
    replace (S2 <? 0) with false by (symmetry; apply Z.ltb_ge; lia).
    rewrite !Z.abs_eq by lia.
    apply pack_order; [apply rnd_pos_canonical; lia..|].
    apply rnd_pos_mono; [lia|exact H].
  - replace (S1 =? 0) with false by (symmetry; apply Z.eqb_neq; lia).
    replace (S2 =? 0) with false by (symmetry; apply Z.eqb_neq; lia).
    replace (S1 <? 0) with true by (symmetry; apply Z.ltb_lt; lia).
    replace (S2 <? 0) with true by (symmetry; apply Z.ltb_lt; lia).
    rewrite !Z.abs_neq by lia.
    apply pack_order; [apply rnd_pos_canonical; lia..|].
    apply rnd_pos_mono; [lia|].
    unfold dle, scaled in *. cbn [fst snd] in *. rewrite (Z.min_comm e2 e1). lia.
Qed.

(** A valid finite binary64 number is in canonical form. *)
Lemma bounded_canonical (m : positive) (e : Z) :
  bounded prec emax m e = true ->
  canonical (Zpos m, e) /\ e <= 971 /\ fexp64 (Z.log2 (Zpos m) + 1 + e) = e.
Proof.
  unfold bounded, canonical_mantissa. rewrite fexp_fexp64, digits2_log2.
  intros H. apply andb_prop in H as [H1 H2].
  apply Z.eqb_eq in H1. apply Z.leb_le in H2. change (emax - prec) with 971 in H2.
  split; [|split; [exact H2|exact H1]].
  pose proof (log2_bounds (Zpos m) ltac:(lia)) as [Hlo Hhi].
  unfold canonical. cbn [fst snd]. unfold fexp64 in H1.
  split; [split; [lia|]|split; [lia|]].
  - eapply Z.lt_le_trans; [exact Hhi|]. apply Z.pow_le_mono_r; lia.
  - destruct (Z.eq_dec e (-1074)); [left; assumption|right].
    replace 52 with (Z.log2 (Zpos m)) by lia. exact Hlo.
Qed.

(** Rounding a binary64 number gives it back. *)
Lemma round64_finite (s : bool) (m : positive) (e : Z) :
  bounded prec emax m e = true -> round64 (cond_Zopp s (Zpos m)) e = S754_finite s m e.
Proof.
  intros H. apply bounded_canonical in H as (_ & He & Hf).
  assert (Hr : rnd_pos (Zpos m) e = (Zpos m, e)).
  { unfold rnd_pos. cbv zeta. rewrite Hf, Z.leb_refl, Z.sub_diag, Z.mul_1_r. reflexivity. }
  assert (Hb : forall s, binary_round prec emax s m e = S754_finite s m e).
  { intros s'. rewrite binary_round_formula. cbv zeta. rewrite Hr. cbn [fst snd pack].
    replace (e <=? 971) with true by (symmetry; apply Z.leb_le; lia). reflexivity. }
  destruct s; [change (round64 (cond_Zopp true (Zpos m)) e) with (binary_round prec emax true m e)
              |change (round64 (cond_Zopp false (Zpos m)) e) with (binary_round prec emax false m e)];
    apply Hb.
Qed.

Lemma round64_dyadic (x : spec_float) (M e : Z) :
  valid_binary x = true -> dyadic x = Some (M, e) -> SFcompare x (round64 M e) = Some Eq.
Proof.
  destruct x as [s|s| |s m ex]; cbn [dyadic valid_binary SpecFloat.valid_binary]; try discriminate.
  - intros _ [= <- <-]. reflexivity.
  - intros Hb [= <- <-]. rewrite round64_finite by exact Hb. apply SFcompare_refl. discriminate.
Qed.

(** The order of binary64 numbers is the order of the numbers they stand for. *)
Lemma SFleb_dle (x y : spec_float) (a b : Z * Z) :
  valid_binary x = true -> valid_binary y = true ->
  dyadic x = Some a -> dyadic y = Some b -> SFleb x y = true -> dle a b.
Proof.
  destruct x as [sx|sx| |sx mx ex], y as [sy|sy| |sy my ey];
    cbn [dyadic valid_binary SpecFloat.valid_binary]; try discriminate;
    intros Vx Vy [= <-] [= <-]; unfold SFleb; cbn [SFcompare].
  - intros _. unfold dle, scaled. cbn [fst snd]. lia.
  - destruct sy; [discriminate|]. intros _. unfold dle, scaled. cbn [fst snd cond_Zopp].
    assert (0 < 2 ^ (ey - Z.min 0 ey)) by (apply pow2_pos; lia). nia.
  - destruct sx; [|discriminate]. intros _. unfold dle, scaled. cbn [fst snd cond_Zopp].
    assert (0 < 2 ^ (ex - Z.min ex 0)) by (apply pow2_pos; lia). nia.
  - apply bounded_canonical in Vx as (Cx & _ & _), Vy as (Cy & _ & _).
    destruct sx, sy; try discriminate; cbn [cond_Zopp].
    + rewrite lex_cases_neg. repeat case_decide; try discriminate; intros _.
      * assert (Hd : dle (Zpos my, ey) (Zpos mx, ex)) by (apply lex_dle; try assumption; lia).
        unfold dle, scaled in *. cbn [fst snd] in *. rewrite (Z.min_comm ex ey). lia.
      * assert (Hd : dle (Zpos my, ey) (Zpos mx, ex)) by (apply lex_dle; try assumption; lia).
        unfold dle, scaled in *. cbn [fst snd] in *. rewrite (Z.min_comm ex ey). lia.
    + intros _. unfold dle, scaled. cbn [fst snd].
      assert (0 < 2 ^ (ex - Z.min ex ey)) by (apply pow2_pos; lia).
      assert (0 < 2 ^ (ey - Z.min ex ey)) by (apply pow2_pos; lia). nia.
    + rewrite lex_cases. repeat case_decide; try discriminate; intros _;
        apply lex_dle; try assumption; lia.
Qed.

Lemma shl_align_mantissa (m : positive) (e e' : Z) :
  e' <= e -> Zpos (fst (shl_align m e e')) = Zpos m * 2 ^ (e - e').
Proof.
  intros H. unfold shl_align. destruct (e' - e) as [|d|d] eqn:Hd; cbn [fst]; try lia.
  - replace (e - e') with 0 by lia. lia.
  - change (Pos.iter xO m d) with (shift_pos d m). rewrite shift_pos_correct.
    replace (e - e') with (Zpos d) by lia. lia.
Qed.

Lemma scaled_zero (b e : Z) : scaled b 0 e = 0.
Proof. reflexivity. Qed.

Lemma round64_not_nan (S e : Z) : round64 S e <> S754_nan.
Proof.
  rewrite round64_formula. destruct (Z.eqb_spec S 0); [discriminate|]. cbv zeta.
  apply pack_not_nan.
  pose proof (rnd_pos_canonical (Z.abs S) e ltac:(lia)) as ([H _] & _). exact H.
Qed.

(** The sum of two binary64 numbers is the rounding of the sum of the numbers. *)
Lemma SFadd_dyadic (x p : spec_float) (Mx ex Mp ep : Z) :
  valid_binary x = true -> valid_binary p = true ->
  dyadic x = Some (Mx, ex) -> dyadic p = Some (Mp, ep) ->
  exists S e,
    SFcompare (SF64add x p) (round64 S e) = Some Eq
    /\ Z.min ex ep <= e
    /\ forall b, b <= Z.min ex ep -> scaled b S e = scaled b Mx ex + scaled b Mp ep.
Proof.
  intros Vx Vp Nx Np.
  destruct x as [sx|sx| |sx mx ex'], p as [sp|sp| |sp mp ep']; try discriminate.
  - injection Nx as <- <-. injection Np as <- <-. exists 0, 0.
    split; [destruct sx, sp; reflexivity|]. split; [lia|]. intros b _. reflexivity.
  - injection Nx as <- <-. exists Mp, ep. split; [|split; [lia|]].
    + cbn [SF64add SFadd]. apply round64_dyadic; assumption.
    + intros b _. rewrite scaled_zero. lia.
  - injection Np as <- <-. exists Mx, ex. split; [|split; [lia|]].
    + cbn [SF64add SFadd]. apply round64_dyadic; assumption.
    + intros b _. rewrite scaled_zero. lia.
  - injection Nx as <- <-. injection Np as <- <-.
    exists (cond_Zopp sx (Zpos (fst (shl_align mx ex' (Z.min ex' ep')))) +
            cond_Zopp sp (Zpos (fst (shl_align mp ep' (Z.min ex' ep'))))), (Z.min ex' ep').
    split; [|split].
    + apply SFcompare_refl. apply round64_not_nan.
    + reflexivity.
    + intros b Hb. rewrite !shl_align_mantissa by lia. unfold scaled.
      set (ez := Z.min ex' ep') in *.
      rewrite (pow2_split (ex' - b) (ez - b)), (pow2_split (ep' - b) (ez - b)) by lia.
      replace (ex' - b - (ez - b)) with (ex' - ez) by lia.
      replace (ep' - b - (ez - b)) with (ep' - ez) by lia.
      destruct sx, sp; cbn [cond_Zopp]; ring.
Qed.

Lemma SFleb_eq_compat (x x' y y' : spec_float) :
  SFcompare x x' = Some Eq -> SFcompare y y' = Some Eq ->
  SFleb x' y' = true -> SFleb x y = true.
Proof.
  intros Hx Hy H. apply SFleb_trans with x'; [unfold SFleb; rewrite Hx; reflexivity|].
  apply SFleb_trans with y'; [exact H|].
  unfold SFleb. rewrite SFcompare_swap, Hy. reflexivity.
Qed.

Lemma SFleb_infinity (z : spec_float) :
  z <> S754_nan -> SFleb z (S754_infinity false) = true.
Proof. destruct z as [[]|[]| |[]]; try reflexivity. congruence. Qed.

Lemma SFleb_neg_infinity (z : spec_float) :
  z <> S754_nan -> SFleb (S754_infinity true) z = true.
Proof. destruct z as [[]|[]| |[]]; try reflexivity. congruence. Qed.

(** Addition of binary64 numbers is monotone. *)
Lemma SFadd_mono (x y p : spec_float) :
  valid_binary x = true -> valid_binary y = true -> valid_binary p = true ->
  SFleb x y = true ->
  SF64add x p <> S754_nan -> SF64add y p <> S754_nan ->
  SFleb (SF64add x p) (SF64add y p) = true.
Proof.
  intros Vx Vy Vp Hxy Nx Ny.
  destruct (dyadic x) as [[Mx ex]|] eqn:Ex, (dyadic y) as [[My ey]|] eqn:Ey,
    (dyadic p) as [[Mp ep]|] eqn:Ep.
  1:{ destruct (SFadd_dyadic x p Mx ex Mp ep Vx Vp Ex Ep) as (S1 & e1 & C1 & B1 & V1).
    destruct (SFadd_dyadic y p My ey Mp ep Vy Vp Ey Ep) as (S2 & e2 & C2 & B2 & V2).
    apply (SFleb_eq_compat _ _ _ _ C1 C2). apply round64_mono.
    set (b := Z.min ex (Z.min ey ep)).
    apply (dle_scaled b); [lia..|]. rewrite V1, V2 by lia.
    pose proof (SFleb_dle x y _ _ Vx Vy Ex Ey Hxy) as Hd.
    apply (dle_scaled b) in Hd; [lia|lia..]. }
  all: destruct x as [[]|[]| |[]]; try discriminate;
    destruct y as [[]|[]| |[]]; try discriminate;
    destruct p as [[]|[]| |[]]; try discriminate;
    cbn [SF64add SFadd] in *; try congruence; try reflexivity;
    try (apply SFleb_infinity; assumption);
    try (apply SFleb_neg_infinity; assumption).
Qed.

Lemma SFadd_nan_l (x p : spec_float) : SF64add x p <> S754_nan -> x <> S754_nan.
Proof. intros H ->. apply H. reflexivity. Qed.

Lemma fadd_mono (x y p : float) :
  fle x y -> not_nan (x + p)%float -> not_nan (y + p)%float -> fle (x + p)%float (y + p)%float.
Proof.
  unfold fle. rewrite !not_nan_spec, !FloatAxioms.leb_spec, !add_spec.
  apply SFadd_mono; apply Prim2SF_valid.
Qed.

Lemma fadd_not_nan_l (x p : float) : not_nan (x + p)%float -> not_nan x.
Proof. rewrite !not_nan_spec, add_spec. apply SFadd_nan_l. Qed.

(** ** The totals of a record (C4) *)

Lemma SF64add_zero_l (x : spec_float) :
  SF64add (S754_zero false) x =
  match x with
  | S754_zero true => S754_zero false
  | _ => x
  end.
Proof. destruct x as [[]|[]| |]; reflexivity. Qed.



Lemma zero_add_fle (a : float) : not_nan a -> fle a (0 + a)%float.
Proof.
  intros H. apply not_nan_spec in H. unfold fle.
  rewrite FloatAxioms.leb_spec, add_spec. change (Prim2SF 0) with (S754_zero false).
  rewrite SF64add_zero_l. destruct (Prim2SF a) as [[]|[]| |] eqn:Ha; try reflexivity;
    try congruence; unfold SFleb; rewrite SFcompare_refl by discriminate; reflexivity.
Qed.

(** Adding a non-negative number first does not make the sum smaller. *)
Lemma fadd_nonneg_first (c a p : float) :
  fle 0 c -> not_nan (a + p)%float -> not_nan (c + a + p)%float ->
  fle (a + p)%float (c + a + p)%float.
Proof.
  intros Hc Hap Hcap.
  pose proof (fadd_not_nan_l _ _ Hap) as Ha.
  pose proof (fadd_not_nan_l _ _ Hcap) as Hca.
  apply fadd_mono; [|exact Hap|exact Hcap].
  apply fle_trans with (0 + a)%float; [apply zero_add_fle; exact Ha|].
  apply fadd_mono; [exact Hc| |exact Hca].
  apply not_nan_spec. rewrite add_spec. change (Prim2SF 0) with (S754_zero false).
  rewrite SF64add_zero_l. apply not_nan_spec in Ha.
  destruct (Prim2SF a) as [[]|[]| |]; try discriminate. exact Ha.
Qed.




(** * Further properties *)

(** ** The steps of a pass *)


Ltac lookups :=
  repeat match goal with
  | |- context [(<[?k := ?v]> ?d) !! ?k'] =>
      first [ constr_eq k k'; rewrite (lookup_insert_eq d k v)
            | rewrite (lookup_insert_ne d k k' v) by discriminate ]
  | |- context [@lookup _ _ (gmap string float) _ ?k ∅] =>
      rewrite (lookup_empty (M:=gmap string) (A:=float) k)
  end.

Lemma iteration_details (env : Env) (model_id prompt region : string)
    (profile : option string) (max_tokens iterations i : Z) (w w' : World)
    (res : result unit) :
  iteration env model_id prompt region profile max_tokens iterations i w = (res, w') ->
  (exists evs : list event, trace w' = (trace w ++ evs)%list)
  /\ sleeps (trace w') =
       (sleeps (trace w) ++
        match res with
        | Ok _ => if (1 <? iterations) && (i <? iterations - 1) then [0.5%float] else []
        | Raise _ => []
        end)%list
  /\ match res with
     | Ok _ =>
         exists (c : client) (rec : timings),
           client_var w' = Some c
           /\ all_timings w' = (all_timings w ++ [rec])%list
           /\ reports env model_id prompt max_tokens c (invocations w) rec
           /\ console (trace w') = (console (trace w) ++ pass_lines iterations i rec)%list
           /\ requests (trace w') =
                (requests (trace w) ++ [request_of env c model_id prompt max_tokens])%list
     | Raise _ => True
     end.
Proof.
  intros H. unfold iteration in H.
  destruct (1 <? iterations) eqn:HN; destruct (i =? 0) eqn:Hi.
  all: repeat (progress step_in H).
  all: injection H as <- <-.
  all: split; [eexists; cbn [trace]; rewrite <- ?app_assoc;
               first [reflexivity | symmetry; apply app_nil_r]|].
  all: split; [unfold sleeps; cbn [trace andb];
               repeat match goal with
                      | E : ?x = _ |- context [if ?x then _ else _] => rewrite E
                      end;
               rewrite ?omap_app; cbn; rewrite ?app_nil_r; reflexivity|].
  all: try exact I.
  all: eexists _, _; split; [reflexivity|]; split; [reflexivity|].
  all: split;
    [unfold reports; cbn [input_tokens output_tokens response_length];
     eexists _, _; repeat split; eassumption|].
  all: split;
    [|unfold requests, request_of; cbn [trace]; rewrite ?List.filter_app;
      cbn [List.filter is_request app]; rewrite ?app_nil_r, <- ?app_assoc; reflexivity].
  all: unfold console, pass_lines, millis;
    cbn [trace durations input_tokens output_tokens response_length];
    lookups; rewrite ?HN, ?List.filter_app;
    cbn [List.filter is_console app default from_option id];
    rewrite ?app_nil_r, <- ?app_assoc; reflexivity.
Qed.

(** ** Output is only ever appended *)

Lemma loop_extends (env : Env) (model_id prompt region : string)
    (profile : option string) (max_tokens iterations : Z) (l : list Z) :
  forall (w w' : World) (res : result unit),
    for_in l (iteration env model_id prompt region profile max_tokens iterations) w
      = (res, w') ->
    exists evs : list event, trace w' = (trace w ++ evs)%list.
Proof.
  induction l as [|i l IH]; intros w w' res H.
  - injection H as <- <-. exists []. symmetry. apply app_nil_r.
  - rewrite for_in_cons in H.
    destruct (iteration _ _ _ _ _ _ _ i w) as [[[]|e] w1] eqn:Hpass.
    + apply iteration_details in Hpass as ([evs1 H1] & _).
      apply IH in H as [evs2 H2]. exists (evs1 ++ evs2)%list.
      rewrite H2, H1, app_assoc. reflexivity.
    + injection H as <- <-. apply iteration_details in Hpass as (Hext & _). exact Hext.
Qed.

Lemma print_summary_extends (ts : list timings) (w w' : World) (res : result unit) :
  print_summary ts w = (res, w') ->
  (exists evs : list event, trace w' = (trace w ++ evs)%list)
  /\ sleeps (trace w') = sleeps (trace w)
  /\ requests (trace w') = requests (trace w).
Proof.
  rewrite print_summary_run. intros H.
  destruct (summary_rows metrics ts) as [table|e]; cbv zeta in H;
    [destruct (token_average input_tokens ts) as [avg_input|e];
     [destruct (token_average output_tokens ts) as [avg_output|e]|]|].
  all: injection H as <- <-; unfold logged, sleeps; cbn [trace];
    (split; [eexists; reflexivity|]);
    (split; [rewrite omap_app; cbn; apply app_nil_r|]);
    unfold requests; rewrite List.filter_app; cbn; apply app_nil_r.
Qed.

(** X2. Whatever the outcome of [run_timing_test], what was printed before is
    untouched and the five heading lines come next. *)
Theorem heading_printed_first :
  forall (env : Env) (model_id prompt region : string) (profile : option string)
         (max_tokens iterations : Z) (w w' : World) (res : result (list timings)),
    run_timing_test env model_id prompt region profile max_tokens iterations w = (res, w') ->
    exists evs : list event,
      trace w' = (trace w ++ run_heading model_id prompt region iterations ++ evs)%list.
Proof.
  intros env model_id prompt region profile max_tokens iterations w w' res.
  rewrite run_timing_test_run.
  destruct (for_in _ _ _) as [[[]|e] w1] eqn:Hloop.
  - apply loop_extends in Hloop as [evs1 H1]. unfold after_heading in H1. cbn [trace] in H1.
    fold (run_heading model_id prompt region iterations) in H1.
    destruct (1 <? iterations).
    + destruct (print_summary (all_timings w1) w1) as [[[]|e] w2] eqn:Hsum;
        apply print_summary_extends in Hsum as [[evs2 H2] _];
        intros [= <- <-]; exists (evs1 ++ evs2)%list;
        rewrite H2, H1, <- !app_assoc; reflexivity.
    + intros [= <- <-]. exists evs1. rewrite H1, <- app_assoc. reflexivity.
  - apply loop_extends in Hloop as [evs1 H1]. unfold after_heading in H1. cbn [trace] in H1.
    fold (run_heading model_id prompt region iterations) in H1.
    intros [= <- <-]. exists evs1. rewrite H1, <- app_assoc. reflexivity.
Qed.

Lemma heading_printed_first_witness :
  exists evs : list event,
    trace (snd (run_timing_test sample_env "us.anthropic.claude-sonnet-4-5-20250929-v1:0"
                  "Hello! Please respond with a short greeting." "us-east-1" None 1000 3
                  start_world)) =
    (run_heading "us.anthropic.claude-sonnet-4-5-20250929-v1:0"
       "Hello! Please respond with a short greeting." "us-east-1" 3 ++ evs)%list.
Proof.
  destruct (run_timing_test sample_env "us.anthropic.claude-sonnet-4-5-20250929-v1:0"
      "Hello! Please respond with a short greeting." "us-east-1" None 1000 3 start_world)
    as [res w'] eqn:Hrun.
  apply heading_printed_first in Hrun as [evs H]. exists evs. exact H.
Defined.

(** ** Sleeping between passes *)








Lemma run_returns_loop (env : Env) (model_id prompt region : string)
    (profile : option string) (max_tokens iterations : Z) (w w' : World)
    (records : list timings) :
  run_timing_test env model_id prompt region profile max_tokens iterations w
    = (Ok records, w') ->
  exists w1 : World,
    for_in (range iterations) (iteration env model_id prompt region profile max_tokens iterations)
      (after_heading model_id prompt region iterations w) = (Ok tt, w1)
    /\ records = all_timings w1
    /\ sleeps (trace w') = sleeps (trace w1)
    /\ requests (trace w') = requests (trace w1).
Proof.
  rewrite run_timing_test_run.
  destruct (for_in _ _ _) as [[[]|e] w1] eqn:Hloop; [|discriminate].
  intros H. exists w1. split; [reflexivity|].
  destruct (1 <? iterations).
  - destruct (print_summary (all_timings w1) w1) as [[[]|e] w2] eqn:Hsum; [|discriminate].
    injection H as <- <-.
    pose proof (print_summary_only_prints _ _ _ _ Hsum) as (_ & _ & Hall & _).
    apply print_summary_extends in Hsum as (_ & Hs & Hr). auto.
  - injection H as <- <-. auto.
Qed.



(** ** What a record reports *)

Lemma later_passes_report (env : Env) (model_id prompt region : string)
    (profile : option string) (max_tokens iterations : Z) (c : client) (l : list Z) :
  Forall (fun i => i <> 0) l ->
  forall (w w' : World),
    client_var w = Some c ->
    for_in l (iteration env model_id prompt region profile max_tokens iterations) w
      = (Ok tt, w') ->
    exists recs : list timings,
      all_timings w' = (all_timings w ++ recs)%list
      /\ (forall (k : nat) (rec : timings),
            recs !! k = Some rec ->
            reports env model_id prompt max_tokens c (k + invocations w) rec)
      /\ requests (trace w') =
           (requests (trace w) ++
            replicate (length l) (request_of env c model_id prompt max_tokens))%list.
Proof.
  induction 1 as [|i l Hi _ IH]; intros w w' Hc H.
  - injection H as <-. exists []. split; [symmetry; apply app_nil_r|].
    split; [|symmetry; apply app_nil_r].
    intros k rec Hk. discriminate.
  - rewrite for_in_cons in H.
    destruct (iteration _ _ _ _ _ _ _ i w) as [[[]|e] w1] eqn:Hpass; [|discriminate].
    pose proof (iteration_details _ _ _ _ _ _ _ _ _ _ _ Hpass)
      as (_ & _ & c' & rec0 & Hc' & Hall & Hrep & _ & Hreq).
    apply iteration_outcome in Hpass
      as (_ & c1 & itok & otok & rlen & setup & Hc1 & _ & _ & Hinv & Hvar & _).
    replace (i =? 0) with false in Hc1 by (symmetry; apply Z.eqb_neq; exact Hi).
    destruct Hc1 as [Hc1 _]. rewrite Hc in Hc1. injection Hc1 as Hc1. subst c1.
    rewrite Hvar in Hc'. injection Hc' as Hc'. subst c'.
    destruct (IH _ _ Hvar H) as (recs & Hall' & Hrecs & Hreqs).
    exists (rec0 :: recs). split; [rewrite Hall', Hall, <- app_assoc; reflexivity|].
    split; [|rewrite Hreqs, Hreq, <- app_assoc; reflexivity].
    intros [|k] rec Hk.
    + injection Hk as <-. exact Hrep.
    + apply Hrecs in Hk. rewrite Hinv in Hk.
      replace (S k + invocations w)%nat with (k + S (invocations w))%nat by lia. exact Hk.
Qed.

Lemma later_indices (n : nat) : Forall (fun i => i <> 0) (Z.of_nat <$> seq 1 n).
Proof.
  apply Forall_forall. intros i Hi.
  apply list_elem_of_fmap in Hi as (k & -> & Hk).
  apply list_elem_of_In, in_seq in Hk. lia.
Qed.

(** The records and the requests of a run that returns. *)
Lemma run_reports (env : Env) (model_id prompt region : string)
    (profile : option string) (max_tokens iterations : Z) (w w' : World)
    (records : list timings) :
  1 <= iterations ->
  run_timing_test env model_id prompt region profile max_tokens iterations w
    = (Ok records, w') ->
  exists (s : session) (c : client),
    boto3_Session env (session_kwargs profile) = Ok s
    /\ session_client env s "bedrock-runtime" region = Ok c
    /\ (forall (i : nat) (rec : timings),
          records !! i = Some rec ->
          reports env model_id prompt max_tokens c (i + invocations w) rec)
    /\ requests (trace w') =
         (requests (trace w) ++
          replicate (Z.to_nat iterations) (request_of env c model_id prompt max_tokens))%list.
Proof.
  intros Hn Hrun.
  apply run_returns_loop in Hrun as (w1 & Hloop & -> & _ & Hreq').
  rewrite (range_positive _ Hn), for_in_cons in Hloop.
  set (w0 := after_heading model_id prompt region iterations w) in *.
  destruct (iteration _ _ _ _ _ _ _ 0 w0) as [[[]|e] wa] eqn:Hfirst; [|discriminate].
  pose proof (iteration_details _ _ _ _ _ _ _ _ _ _ _ Hfirst)
    as (_ & _ & c' & rec0 & Hc' & Hall & Hrep & _ & Hreq).
  apply iteration_outcome in Hfirst
    as (_ & c & itok & otok & rlen & setup & Hc & _ & _ & Hinv & Hvar & _).
  change (0 =? 0) with true in Hc. destruct Hc as (s & Hs & Hcl & _).
  rewrite Hvar in Hc'. injection Hc' as Hc'. subst c'.
  destruct (later_passes_report env model_id prompt region profile max_tokens iterations c
              _ (later_indices _) _ _ Hvar Hloop) as (recs & Hall' & Hrecs & Hreqs).
  exists s, c. split; [exact Hs|]. split; [exact Hcl|]. split.
  - rewrite Hall', Hall. change (all_timings w0) with (@nil timings). cbn [app].
    change (invocations w0) with (invocations w) in *.
    intros [|i] rec Hi.
    + injection Hi as <-. exact Hrep.
    + apply Hrecs in Hi. rewrite Hinv in Hi.
      replace (S i + invocations w)%nat with (i + S (invocations w))%nat by lia. exact Hi.
  - rewrite Hreq', Hreqs, Hreq, <- app_assoc.
    assert (Hw0 : requests (trace w0) = requests (trace w)).
    { unfold w0, after_heading, requests. cbn [trace]. rewrite List.filter_app. cbn.
      apply app_nil_r. }
    rewrite Hw0. f_equal. rewrite length_fmap, length_seq.
    destruct (Z.to_nat iterations) as [|n] eqn:Hnat; [lia|].
    cbn. rewrite Nat.sub_0_r. reflexivity.
Qed.

(** X4. In a run that returns, record [i] reports the response to the
    [i]-th invocation of the run. *)
Theorem records_report_their_response :
  forall (env : Env) (model_id prompt region : string) (profile : option string)
         (max_tokens iterations : Z) (w w' : World) (records : list timings),
    1 <= iterations ->
    run_timing_test env model_id prompt region profile max_tokens iterations w
      = (Ok records, w') ->
    exists (s : session) (c : client),
      boto3_Session env (session_kwargs profile) = Ok s
      /\ session_client env s "bedrock-runtime" region = Ok c
      /\ forall (i : nat) (rec : timings),
           records !! i = Some rec ->
           reports env model_id prompt max_tokens c (i + invocations w) rec.
Proof.
  intros env model_id prompt region profile max_tokens iterations w w' records Hn Hrun.
  destruct (run_reports _ _ _ _ _ _ _ _ _ _ Hn Hrun) as (s & c & Hs & Hc & Hrep & _).
  exists s, c. auto.
Qed.

Lemma records_report_their_response_witness :
  exists (records : list timings) (w' : World),
    run_timing_test sample_env "us.anthropic.claude-sonnet-4-5-20250929-v1:0"
      "Hello! Please respond with a short greeting." "us-east-1" None 1000 3 start_world
      = (Ok records, w')
    /\ forall (i : nat) (rec : timings),
         records !! i = Some rec ->
         input_tokens rec = PInt 12 /\ output_tokens rec = PInt 5 /\ response_length rec = 6.
Proof.
  destruct (run_timing_test sample_env "us.anthropic.claude-sonnet-4-5-20250929-v1:0"
      "Hello! Please respond with a short greeting." "us-east-1" None 1000 3 start_world)
    as [[records|e] w'] eqn:Hrun;
    [|vm_compute in Hrun; discriminate].
  exists records, w'. split; [reflexivity|].
  apply records_report_their_response in Hrun as (s & c & _ & _ & Hrep); [|lia].
  intros i rec Hi. destruct (Hrep i rec Hi) as (response & content & Hresp & Hparse & Hlen).
  cbn in Hresp. injection Hresp as <-.
  assert (Hp : parse_response__wrapped sample_env (Response "<claude response>")
                 "us.anthropic.claude-sonnet-4-5-20250929-v1:0" =
               Ok (PStr "Hello!", PInt 12, PInt 5)) by reflexivity.
  rewrite Hp in Hparse. injection Hparse as <- Hi' Ho'.
  assert (Hl : len (PStr "Hello!") = Ok 6) by reflexivity.
  rewrite Hl in Hlen. injection Hlen as Hl'. auto.
Defined.

(** X5. A run that returns has sent the service the same request once per
    iteration, and nothing else. *)
Theorem same_request_every_pass :
  forall (env : Env) (model_id prompt region : string) (profile : option string)
         (max_tokens iterations : Z) (w w' : World) (records : list timings),
    1 <= iterations ->
    run_timing_test env model_id prompt region profile max_tokens iterations w
      = (Ok records, w') ->
    exists (s : session) (c : client),
      boto3_Session env (session_kwargs profile) = Ok s
      /\ session_client env s "bedrock-runtime" region = Ok c
      /\ requests (trace w') =
           (requests (trace w) ++
            replicate (Z.to_nat iterations)
              (ClientInvokeModel c model_id
                 (json_dumps env (request_body model_id prompt max_tokens))
                 "application/json" "application/json"))%list.
Proof.
  intros env model_id prompt region profile max_tokens iterations w w' records Hn Hrun.
  destruct (run_reports _ _ _ _ _ _ _ _ _ _ Hn Hrun) as (s & c & Hs & Hc & _ & Hreq).
  exists s, c. auto.
Qed.

Lemma same_request_every_pass_witness :
  exists (records : list timings) (w' : World),
    run_timing_test sample_env "us.anthropic.claude-sonnet-4-5-20250929-v1:0"
      "Hello! Please respond with a short greeting." "us-east-1" None 1000 3 start_world
      = (Ok records, w')
    /\ requests (trace w') =
         replicate 3
           (ClientInvokeModel (ClientHandle 0) "us.anthropic.claude-sonnet-4-5-20250929-v1:0"
              "<request>" "application/json" "application/json").
Proof.
  destruct (run_timing_test sample_env "us.anthropic.claude-sonnet-4-5-20250929-v1:0"
      "Hello! Please respond with a short greeting." "us-east-1" None 1000 3 start_world)
    as [[records|e] w'] eqn:Hrun;
    [|vm_compute in Hrun; discriminate].
  exists records, w'. split; [reflexivity|].
  apply same_request_every_pass in Hrun as (s & c & _ & Hc & Hreq); [|lia].
  rewrite Hreq. injection Hc as <-. reflexivity.
Defined.

(** ** Failing to obtain the client *)

Lemma first_pass_no_client (env : Env) (model_id prompt region : string)
    (profile : option string) (max_tokens iterations : Z) (w : World) (e : exn) :
  (s ← boto3_Session env (session_kwargs profile);
   session_client env s "bedrock-runtime" region) = Raise e ->
  exists w' : World,
    iteration env model_id prompt region profile max_tokens iterations 0 w = (Raise e, w')
    /\ invocations w' = invocations w
    /\ invoke_clients (trace w') = invoke_clients (trace w)
    /\ all_timings w' = all_timings w.
Proof.
  intros Hfail.
  destruct (iteration env model_id prompt region profile max_tokens iterations 0 w)
    as [res w'] eqn:H.
  exists w'. unfold iteration in H. change (0 =? 0) with true in H.
  destruct (1 <? iterations).
  all: run_in H.
  all: destruct (boto3_Session env (session_kwargs profile)) as [s|e'];
    cbn [mbind result_bind] in Hfail.
  all: run_in H.
  all: try rewrite Hfail in H.
  all: run_in H.
  all: try (injection Hfail as <-).
  all: injection H as <- <-.
  all: unfold invoke_clients; cbn [trace invocations all_timings]; rewrite ?omap_app; cbn;
    rewrite ?app_nil_r; repeat split; reflexivity.
Qed.

(** X6. When boto3 fails to create the session or the client, the run
    fails with boto3's exception before any invocation of the service. *)
Theorem client_failure_before_any_call :
  forall (env : Env) (a : args) (w : World) (e : exn),
    1 <= arg_iterations a ->
    (s ← boto3_Session env (session_kwargs (arg_profile a));
     session_client env s "bedrock-runtime" (arg_region a)) = Raise e ->
    exists wf : World,
      run_of env a w = (Raise e, wf)
      /\ invocations wf = invocations w
      /\ invoke_clients (trace wf) = invoke_clients (trace w)
      /\ all_timings wf = []
      /\ main env a w = (Ok 1, logged [PrintError e; PrintTraceback e] wf).
Proof.
  intros env a w e Hn Hfail.
  destruct (first_pass_no_client env (arg_model a) (arg_prompt a) (arg_region a)
              (arg_profile a) (arg_max_tokens a) (arg_iterations a)
              (heading_of a w) e Hfail) as (wf & Hpass & Hinv & Hcalls & Hall).
  assert (Hrun : run_of env a w = (Raise e, wf)).
  { unfold run_of. rewrite run_timing_test_run, (range_positive _ Hn), for_in_cons.
    unfold heading_of in Hpass. rewrite Hpass. reflexivity. }
  exists wf. split; [exact Hrun|]. split; [rewrite Hinv; reflexivity|].
  split; [rewrite Hcalls; unfold heading_of, after_heading, invoke_clients; cbn [trace];
          rewrite omap_app; cbn; apply app_nil_r|].
  split; [rewrite Hall; reflexivity|].
  rewrite main_run. unfold run_of in Hrun. rewrite Hrun. reflexivity.
Qed.

Lemma client_failure_before_any_call_witness :
  exists wf : World,
    main no_session_env default_args start_world =
      (Ok 1,
       logged [PrintError (ServiceError "NoCredentialsError" "Unable to locate credentials");
               PrintTraceback
                 (ServiceError "NoCredentialsError" "Unable to locate credentials")] wf)
    /\ invocations wf = 0%nat /\ invoke_clients (trace wf) = [].
Proof.
  destruct (client_failure_before_any_call no_session_env default_args start_world
              (ServiceError "NoCredentialsError" "Unable to locate credentials"))
    as (wf & _ & Hinv & Hcalls & _ & Hmain).
  - cbn. lia.
  - reflexivity.
  - exists wf. auto.
Defined.

(** ** A non-positive number of iterations *)

(** X7. With [iterations <= 0] nothing is done beyond the heading. *)
Theorem nonpositive_iterations :
  forall (env : Env) (model_id prompt region : string) (profile : option string)
         (max_tokens iterations : Z) (w : World),
    iterations <= 0 ->
    run_timing_test env model_id prompt region profile max_tokens iterations w =
      (Ok [], MkWorld (ticks w) (invocations w)
                (trace w ++ run_heading model_id prompt region iterations) [] (client_var w))
    /\ fst (main env (Args model_id prompt region profile max_tokens iterations) w) = Ok 0.
Proof.
  intros env model_id prompt region profile max_tokens iterations w Hn.
  assert (Hrun : run_timing_test env model_id prompt region profile max_tokens iterations w =
      (Ok [], MkWorld (ticks w) (invocations w)
                (trace w ++ run_heading model_id prompt region iterations) [] (client_var w))).
  { rewrite run_timing_test_run, (range_nonpositive _ Hn).
    replace (1 <? iterations) with false by (symmetry; apply Z.ltb_ge; lia). reflexivity. }
  split; [exact Hrun|].
  rewrite main_run. cbn [arg_model arg_prompt arg_region arg_profile arg_max_tokens
                         arg_iterations]. rewrite Hrun. reflexivity.
Qed.

Lemma nonpositive_iterations_witness :
  fst (run_timing_test sample_env "us.anthropic.claude-sonnet-4-5-20250929-v1:0"
         "Hello! Please respond with a short greeting." "us-east-1" None 1000 (-3)
         start_world) = Ok []
  /\ fst (main sample_env
            (Args "us.anthropic.claude-sonnet-4-5-20250929-v1:0"
               "Hello! Please respond with a short greeting." "us-east-1" None 1000 (-3))
            start_world) = Ok 0.
Proof.
  destruct (nonpositive_iterations sample_env "us.anthropic.claude-sonnet-4-5-20250929-v1:0"
              "Hello! Please respond with a short greeting." "us-east-1" None 1000 (-3)
              start_world) as [Hrun Hmain]; [lia|].
  rewrite Hrun. split; [reflexivity | exact Hmain].
Defined.

(** ** Durations under a monotone clock *)

Lemma round64_zero (e : Z) : round64 0 e = S754_zero false.
Proof. reflexivity. Qed.

Lemma round64_nonneg (S e : Z) : 0 <= S -> SFleb (S754_zero false) (round64 S e) = true.
Proof.
  intros H. rewrite <- (round64_zero 0). apply round64_mono.
  unfold dle, scaled. cbn [fst snd].
  assert (0 < 2 ^ (e - Z.min 0 e)) by (apply pow2_pos; lia). nia.
Qed.

Lemma SFsub_nonneg (x y : spec_float) (a b : Z * Z) :
  valid_binary x = true -> valid_binary y = true ->
  dyadic x = Some a -> dyadic y = Some b ->
  SFleb x y = true -> SFleb (S754_zero false) (SF64sub y x) = true.
Proof.
  intros Vx Vy Dx Dy Hxy. pose proof (SFleb_dle x y a b Vx Vy Dx Dy Hxy) as Hd.
  destruct x as [sx|sx| |sx mx ex], y as [sy|sy| |sy my ey]; try discriminate.
  - destruct sx, sy; reflexivity.
  - destruct sy; [discriminate|]. reflexivity.
  - destruct sx; [|discriminate]. reflexivity.
  - injection Dx as <-. injection Dy as <-.
    cbn [SF64sub SFsub]. cbv zeta.
    change (binary_normalize prec emax ?S ?e false) with (round64 S e).
    apply round64_nonneg. rewrite !shl_align_mantissa by lia.
    apply (dle_scaled (Z.min ey ex)) in Hd; [|lia..]. unfold scaled in Hd.
    destruct sx, sy; cbn [cond_Zopp] in *; lia.
Qed.

Lemma SFadd_nonneg (x y : spec_float) :
  SFleb (S754_zero false) x = true -> SFleb (S754_zero false) y = true ->
  SFleb (S754_zero false) (SF64add x y) = true.
Proof.
  destruct x as [sx|sx| |sx mx ex], y as [sy|sy| |sy my ey];
    try destruct sx; try destruct sy; try discriminate; try reflexivity.
  intros _ _. cbn [SF64add SFadd]. cbv zeta.
  change (binary_normalize prec emax ?S ?e false) with (round64 S e).
  apply round64_nonneg. cbn [cond_Zopp]. lia.
Qed.

Lemma is_finite_dyadic (x : float) :
  is_finite x = true -> exists a, dyadic (Prim2SF x) = Some a.
Proof.
  unfold is_finite, is_nan, is_infinity.
  rewrite !FloatAxioms.eqb_spec, abs_spec.
  change (Prim2SF infinity) with (S754_infinity false).
  destruct (Prim2SF x) as [s|[]| |s m e]; cbn [dyadic SFabs];
    try (intros _; eexists; reflexivity); intros H; cbv in H; discriminate.
Qed.

Lemma fsub_nonneg (x y : float) :
  is_finite x = true -> is_finite y = true -> fle x y -> fle 0 (y - x)%float.
Proof.
  intros Fx Fy. apply is_finite_dyadic in Fx as [a Ha], Fy as [b Hb].
  unfold fle. rewrite !FloatAxioms.leb_spec, sub_spec.
  change (Prim2SF 0) with (S754_zero false).
  apply (SFsub_nonneg _ _ a b); try assumption; apply Prim2SF_valid.
Qed.

Lemma fadd_nonneg (x y : float) : fle 0 x -> fle 0 y -> fle 0 (x + y)%float.
Proof.
  unfold fle. rewrite !FloatAxioms.leb_spec, add_spec.
  change (Prim2SF 0) with (S754_zero false). apply SFadd_nonneg.
Qed.

Lemma fle_not_nan_r (x y : float) : fle x y -> not_nan y.
Proof.
  unfold fle. rewrite FloatAxioms.leb_spec. intros H. apply not_nan_spec. intros Hy.
  rewrite Hy in H. unfold SFleb in H. destruct (Prim2SF x); discriminate.
Qed.

Lemma pass_record_durations (env : Env) (first : bool) (t : nat)
    (input_tokens output_tokens : pyval) (response_length : Z) :
  monotone_clock env ->
  let rec := pass_record env first t input_tokens output_tokens response_length in
  (forall (key : string) (v : float), durations rec !! key = Some v -> fle 0 v)
  /\ exists without_init with_init : float,
       durations rec !! "total_without_init" = Some without_init
       /\ durations rec !! "total_with_init" = Some with_init
       /\ fle without_init with_init.
Proof.
  intros Hclock. cbv zeta.
  assert (Hd : forall n, fle 0 (perf_counter_at env (S n) - perf_counter_at env n)%float).
  { intros n. destruct (Hclock n) as [Fn Hle]. destruct (Hclock (S n)) as [FSn _].
    apply fsub_nonneg; assumption. }
  unfold pass_record, iteration_record. cbn [durations].
  set (t0 := ((if first then 2 else 0) + t)%nat).
  set (a := (perf_counter_at env (2 + t0) - perf_counter_at env (1 + t0))%float).
  set (p := (perf_counter_at env (5 + t0) - perf_counter_at env (4 + t0))%float).
  set (ci := if first then Some (perf_counter_at env (S t) - perf_counter_at env t)%float
             else None).
  assert (Ha : fle 0 a) by apply Hd.
  assert (Hp : fle 0 p) by apply Hd.
  assert (Hc : fle 0 (default 0%float ci)).
  { unfold ci. destruct first; cbn [default from_option]; [apply Hd|].
    apply fle_refl. reflexivity. }
  assert (Hap : fle 0 (a + p)%float) by (apply fadd_nonneg; assumption).
  assert (Hcap : fle 0 (default 0 ci + a + p)%float)
    by (apply fadd_nonneg; [apply fadd_nonneg|]; assumption).
  set (base := match ci with Some t1 => <["client_init" := t1]> (∅ : gmap string float)
                           | None => ∅ end).
  split.
  - intros key v Hv.
    repeat (apply lookup_insert_Some in Hv as [[_ <-]|[_ Hv]]; [assumption|]).
    unfold base in Hv. destruct ci as [t1|].
    + apply lookup_insert_Some in Hv as [[_ <-]|[_ Hv]]; [exact Hc|].
      rewrite lookup_empty in Hv. discriminate.
    + rewrite lookup_empty in Hv. discriminate.
  - exists (a + p)%float, (default 0 ci + a + p)%float.
    split; [apply lookup_insert_eq|].
    split; [rewrite lookup_insert_ne by discriminate; apply lookup_insert_eq|].
    apply fadd_nonneg_first; [exact Hc | |]; eapply fle_not_nan_r; eassumption.
Qed.

(** X8. Under a clock that never runs backwards, every duration of every
    record is non-negative and total_without_init <= total_with_init. *)
Theorem durations_under_monotone_clock :
  forall (env : Env) (model_id prompt region : string) (profile : option string)
         (max_tokens iterations : Z) (w w' : World) (records : list timings)
         (rec : timings),
    monotone_clock env ->
    run_timing_test env model_id prompt region profile max_tokens iterations w
      = (Ok records, w') ->
    In rec records ->
    (forall (key : string) (v : float), durations rec !! key = Some v -> fle 0 v)
    /\ exists without_init with_init : float,
         durations rec !! "total_without_init" = Some without_init
         /\ durations rec !! "total_with_init" = Some with_init
         /\ fle without_init with_init.
Proof.
  intros env model_id prompt region profile max_tokens iterations w w' records rec
    Hclock Hrun Hin.
  apply run_timing_test_records in Hrun as (_ & Hzero & Hpos).
  destruct (Z_le_gt_dec iterations 0) as [Hn|Hn].
  { rewrite (Hzero Hn) in Hin. destruct Hin. }
  destruct Hpos as (_ & Hrecs & _); [lia|].
  apply list_elem_of_In, list_elem_of_lookup in Hin as [i Hi].
  destruct (Hrecs i rec Hi) as (itok & otok & rlen & ->).
  apply pass_record_durations. exact Hclock.
Qed.

Lemma rounding_clock_monotone : monotone_clock rounding_env.
Proof.
  intros n. cbn [perf_counter_at rounding_env]. unfold rounding_clock.
  do 9 (destruct n as [|n]; [split; reflexivity|]).
  destruct n; split; reflexivity.
Qed.

Lemma durations_under_monotone_clock_witness :
  exists (records : list timings) (w' : World),
    run_timing_test rounding_env "us.anthropic.claude-sonnet-4-5-20250929-v1:0"
      "Hello! Please respond with a short greeting." "us-east-1" None 1000 1 start_world
      = (Ok records, w')
    /\ forall rec : timings,
         In rec records ->
         (forall (key : string) (v : float), durations rec !! key = Some v -> fle 0 v)
         /\ exists without_init with_init : float,
              durations rec !! "total_without_init" = Some without_init
              /\ durations rec !! "total_with_init" = Some with_init
              /\ fle without_init with_init.
Proof.
  destruct (run_timing_test rounding_env "us.anthropic.claude-sonnet-4-5-20250929-v1:0"
      "Hello! Please respond with a short greeting." "us-east-1" None 1000 1 start_world)
    as [[records|e] w'] eqn:Hrun;
    [|vm_compute in Hrun; discriminate].
  exists records, w'. split; [reflexivity|].
  intros rec Hin.
  exact (durations_under_monotone_clock _ _ _ _ _ _ _ _ _ _ rec rounding_clock_monotone
           Hrun Hin).
Defined.

(** ** The summary of no record at all *)

Lemma summary_rows_total (ms : list string) (ts : list timings) :
  exists rows, summary_rows ms ts = Ok rows.
Proof. destruct (summary_rows_ok ms ts) as (rows & H & _). eauto. Qed.

Lemma int_truediv_nonzero (a b : Z) (e : exn) :
  b <> 0 -> int_truediv a b = Raise e -> e <> ZeroDivisionError.
Proof.
  intros Hb. unfold int_truediv.
  replace (b =? 0) with false by (symmetry; apply Z.eqb_neq; exact Hb).
  cbv zeta. destruct (is_infinity _); [|discriminate]. intros [= <-]. discriminate.
Qed.

Lemma float_of_int_no_division (n : Z) (e : exn) :
  float_of_int n = Raise e -> e <> ZeroDivisionError.
Proof.
  unfold float_of_int. cbv zeta. destruct (is_infinity _); [|discriminate].
  intros [= <-]. discriminate.
Qed.

Lemma num_add_no_division (acc : num) (v : pyval) (e : exn) :
  num_add acc v = Raise e -> e <> ZeroDivisionError.
Proof.
  destruct acc as [a|f], v; cbn [num_add]; try discriminate;
    try (intros [= <-]; discriminate).
  - destruct (float_of_int a) eqn:H; cbn [mbind result_bind]; [discriminate|].
    intros [= <-]. exact (float_of_int_no_division _ _ H).
  - destruct (float_of_int n) eqn:H; cbn [mbind result_bind]; [discriminate|].
    intros [= <-]. exact (float_of_int_no_division _ _ H).
Qed.

Lemma sum_from_no_division (values : list pyval) (e : exn) :
  forall acc, sum_from acc values = Raise e -> e <> ZeroDivisionError.
Proof.
  induction values as [|v values IH]; intros acc; cbn [sum_from]; [discriminate|].
  destruct (num_add acc v) as [acc'|e'] eqn:H; cbn [mbind result_bind]; [apply IH|].
  intros [= <-]. exact (num_add_no_division _ _ _ H).
Qed.

Lemma token_average_no_division (key : timings -> pyval) (ts : list timings) (e : exn) :
  ts <> [] -> token_average key ts = Raise e -> e <> ZeroDivisionError.
Proof.
  intros Hts. unfold token_average, Py.sum.
  destruct (sum_from (NInt 0) (key <$> ts)) as [[a|f]|e'] eqn:H;
    cbn [mbind result_bind num_div_len].
  - apply int_truediv_nonzero. destruct ts; [congruence | cbn; lia].
  - destruct ts; [congruence|]. cbn [length Nat.eqb]. discriminate.
  - intros [= <-]. exact (sum_from_no_division _ _ _ H).
Qed.

(** X9. [print_summary] divides by the number of records: it raises
    ZeroDivisionError exactly on the empty list, after printing the heading
    and an empty table. *)
Theorem summary_division_by_zero :
  forall (ts : list timings) (w : World),
    (fst (print_summary ts w) = Raise ZeroDivisionError <-> ts = [])
    /\ print_summary [] w =
         (Raise ZeroDivisionError,
          logged [Print "\n[bold cyan]Summary Statistics[/bold cyan]" []; PrintTable []] w).
Proof.
  intros ts w. split; [|rewrite print_summary_run; reflexivity]. split.
  - intros H. destruct ts as [|t ts]; [reflexivity|]. exfalso.
    assert (Hne : t :: ts <> []) by discriminate.
    rewrite print_summary_run in H.
    destruct (summary_rows_total metrics (t :: ts)) as [rows Hrows]. rewrite Hrows in H.
    cbv zeta in H.
    destruct (token_average input_tokens (t :: ts)) as [ai|e] eqn:Hi.
    2:{ cbn in H. injection H as ->.
        exact (token_average_no_division _ _ _ Hne Hi eq_refl). }
    destruct (token_average output_tokens (t :: ts)) as [ao|e] eqn:Ho; cbn in H;
      [discriminate|].
    injection H as ->.
    exact (token_average_no_division _ _ _ Hne Ho eq_refl).
  - intros ->. rewrite print_summary_run. reflexivity.
Qed.

(** ** Token counts that are not numbers *)

Lemma sum_from_not_number (ns : list Z) (v : pyval) (rest : list pyval) :
  is_number v = false ->
  forall a : Z, sum_from (NInt a) ((PInt <$> ns) ++ v :: rest) = Raise TypeError.
Proof.
  intros Hv. induction ns as [|n ns IH]; intros a; cbn [fmap list_fmap app sum_from].
  - destruct v; try discriminate; reflexivity.
  - cbn [num_add mbind result_bind]. apply IH.
Qed.

Lemma print_summary_not_number (ts : list timings) (w : World) (ns : list Z) (v : pyval)
    (rest : list pyval) :
  input_tokens <$> ts = ((PInt <$> ns) ++ v :: rest)%list ->
  is_number v = false ->
  exists rows : list table_row,
    print_summary ts w =
      (Raise TypeError,
       logged [Print "\n[bold cyan]Summary Statistics[/bold cyan]" []; PrintTable rows] w).
Proof.
  intros Htok Hv.
  destruct (summary_rows_total metrics ts) as [rows Hrows]. exists rows.
  rewrite print_summary_run, Hrows. cbv zeta.
  unfold token_average at 1, Py.sum. rewrite Htok, (sum_from_not_number ns v rest Hv).
  reflexivity.
Qed.

(** X10. A token count that is not a number makes the summary fail with
    TypeError, after the table has been printed. *)
Theorem summary_type_error :
  forall (ts : list timings) (w : World) (ns : list Z) (v : pyval) (rest : list pyval),
    input_tokens <$> ts = ((PInt <$> ns) ++ v :: rest)%list ->
    is_number v = false ->
    exists rows : list table_row,
      print_summary ts w =
        (Raise TypeError,
         logged [Print "\n[bold cyan]Summary Statistics[/bold cyan]" []; PrintTable rows] w).
Proof. intros ts w ns v rest. apply print_summary_not_number. Qed.

Lemma summary_type_error_witness :
  exists rows : list table_row,
    print_summary null_token_records start_world =
      (Raise TypeError,
       logged [Print "\n[bold cyan]Summary Statistics[/bold cyan]" []; PrintTable rows]
         start_world).
Proof.
  apply (summary_type_error null_token_records start_world [] PNone [PInt 12]); reflexivity.
Defined.

(** X11. When the summary of a run of more than one iteration fails on a
    token count that is not a number, the run raises TypeError although
    every iteration has returned and its record was collected, and [main]
    returns 1. *)
Theorem summary_failure_fails_run :
  forall (env : Env) (a : args) (w w1 : World) (ns : list Z) (v : pyval)
         (rest : list pyval),
    1 < arg_iterations a ->
    for_in (range (arg_iterations a)) (pass_of env a) (heading_of a w) = (Ok tt, w1) ->
    input_tokens <$> all_timings w1 = ((PInt <$> ns) ++ v :: rest)%list ->
    is_number v = false ->
    exists rows : list table_row,
      run_of env a w =
        (Raise TypeError,
         logged [Print "\n[bold cyan]Summary Statistics[/bold cyan]" []; PrintTable rows] w1)
      /\ main env a w =
           (Ok 1,
            logged [PrintError TypeError; PrintTraceback TypeError]
              (logged [Print "\n[bold cyan]Summary Statistics[/bold cyan]" [];
                       PrintTable rows] w1))
      /\ length (all_timings w1) = Z.to_nat (arg_iterations a).
Proof.
  intros env a w w1 ns v rest Hn Hloop Htok Hv.
  destruct (print_summary_not_number (all_timings w1) w1 ns v rest Htok Hv) as [rows Hsum].
  exists rows.
  assert (Hrun : run_of env a w =
                 (Raise TypeError,
                  logged [Print "\n[bold cyan]Summary Statistics[/bold cyan]" [];
                          PrintTable rows] w1)).
  { unfold run_of, pass_of, heading_of in *. rewrite run_timing_test_run, Hloop.
    replace (1 <? arg_iterations a) with true by (symmetry; apply Z.ltb_lt; exact Hn).
    rewrite Hsum. reflexivity. }
  split; [exact Hrun|]. split.
  - rewrite main_run. unfold run_of in Hrun. rewrite Hrun. reflexivity.
  - unfold pass_of, heading_of in Hloop. apply loop_outcome in Hloop as (_ & _ & Hpos).
    destruct Hpos as (recs & Hall & Hlen & _); [lia|].
    rewrite Hall. cbn. exact Hlen.
Qed.

Lemma summary_failure_fails_run_witness :
  fst (main null_tokens_env three_iterations start_world) = Ok 1
  /\ fst (run_of null_tokens_env three_iterations start_world) = Raise TypeError
  /\ fst (main null_tokens_env default_args start_world) = Ok 0.
Proof.
  destruct (for_in (range (arg_iterations three_iterations))
              (pass_of null_tokens_env three_iterations)
              (heading_of three_iterations start_world)) as [[[]|e0] w1] eqn:Hloop;
    [|vm_compute in Hloop; discriminate].
  destruct (summary_failure_fails_run null_tokens_env three_iterations start_world w1
              [] PNone [PNone; PNone]) as (rows & Hrun & Hmain & _).
  - cbn. lia.
  - exact Hloop.
  - vm_compute in Hloop. injection Hloop as <-. reflexivity.
  - reflexivity.
  - rewrite Hmain, Hrun. split; [reflexivity|]. split; [reflexivity|].
    vm_compute. reflexivity.
Defined.

(** ** The rows of the table *)

Lemma summary_rows_titles (ts : list timings) :
  (forall metric, In metric metrics -> metric_values metric ts <> []) ->
  exists rows : list table_row,
    summary_rows metrics ts = Ok rows
    /\ row_title <$> rows = ["Api Call"; "Response Parse"; "Total Without Init"].
Proof.
  intros Hall. unfold metrics in *. cbn [summary_rows].
  destruct (metric_values "api_call" ts) as [|f1 r1] eqn:H1;
    [exfalso; apply (Hall "api_call"); [cbn; auto | exact H1]|].
  destruct (metric_values "response_parse" ts) as [|f2 r2] eqn:H2;
    [exfalso; apply (Hall "response_parse"); [cbn; auto | exact H2]|].
  destruct (metric_values "total_without_init" ts) as [|f3 r3] eqn:H3;
    [exfalso; apply (Hall "total_without_init"); [cbn; auto | exact H3]|].
  destruct (summary_row_nonempty "api_call" f1 r1) as (m1 & _ & ->).
  destruct (summary_row_nonempty "response_parse" f2 r2) as (m2 & _ & ->).
  destruct (summary_row_nonempty "total_without_init" f3 r3) as (m3 & _ & ->).
  cbn [mbind result_bind option_list app]. eexists. split; [reflexivity|]. reflexivity.
Qed.

Lemma run_returns_summary (env : Env) (model_id prompt region : string)
    (profile : option string) (max_tokens iterations : Z) (w w' : World)
    (records : list timings) :
  1 < iterations ->
  run_timing_test env model_id prompt region profile max_tokens iterations w
    = (Ok records, w') ->
  exists w1 : World,
    for_in (range iterations) (iteration env model_id prompt region profile max_tokens iterations)
      (after_heading model_id prompt region iterations w) = (Ok tt, w1)
    /\ print_summary (all_timings w1) w1 = (Ok tt, w').
Proof.
  intros Hn. rewrite run_timing_test_run.
  destruct (for_in _ _ _) as [[[]|e] w1] eqn:Hloop; [|discriminate].
  replace (1 <? iterations) with true by (symmetry; apply Z.ltb_lt; exact Hn).
  destruct (print_summary (all_timings w1) w1) as [[[]|e] w2] eqn:Hsum; [|discriminate].
  intros [= <- <-]. exists w1. split; [reflexivity | exact Hsum].
Qed.

(** X12. The table of a run of more than one iteration has the three rows
    Api Call, Response Parse and Total Without Init, in this order. *)
Theorem summary_table_rows :
  forall (env : Env) (model_id prompt region : string) (profile : option string)
         (max_tokens iterations : Z) (w w' : World) (records : list timings),
    1 < iterations ->
    run_timing_test env model_id prompt region profile max_tokens iterations w
      = (Ok records, w') ->
    exists (rows : list table_row) (avg_input avg_output : float),
      List.filter is_summary_event (trace w') =
        (List.filter is_summary_event (trace w) ++
         [Print "\n[bold cyan]Summary Statistics[/bold cyan]" [];
          PrintTable rows;
          Print "\nAverage tokens - Input: {:.0f}, Output: {:.0f}"
            [PFloat avg_input; PFloat avg_output]])%list
      /\ row_title <$> rows = ["Api Call"; "Response Parse"; "Total Without Init"].
Proof.
  intros env model_id prompt region profile max_tokens iterations w w' records Hn Hrun.
  apply run_returns_summary in Hrun as (w1 & Hloop & Hsum); [|exact Hn].
  pose proof (loop_no_summary _ _ _ _ _ _ _ _ _ _ _ Hloop) as Hquiet.
  apply loop_outcome in Hloop as (_ & _ & Hpos).
  destruct Hpos as (recs & Hall & Hlen & Hrecs & _); [lia|].
  change (all_timings (after_heading model_id prompt region iterations w))
    with (@nil timings) in Hall. cbn [app] in Hall.
  destruct (summary_rows_titles (all_timings w1)) as (rows & Hrows & Htitles).
  { intros metric Hm Hnil. apply (f_equal length) in Hnil.
    rewrite metric_values_all in Hnil.
    - rewrite Hall, Hlen in Hnil. cbn in Hnil. lia.
    - rewrite Hall. apply Forall_lookup. intros i rec Hi.
      destruct (Hrecs i rec Hi) as (itok & otok & rlen & ->).
      apply pass_record_metric. exact Hm. }
  rewrite print_summary_run, Hrows in Hsum. cbv zeta in Hsum.
  destruct (token_average input_tokens (all_timings w1)) as [avg_input|e]; [|discriminate].
  destruct (token_average output_tokens (all_timings w1)) as [avg_output|e]; [|discriminate].
  injection Hsum as <-. exists rows, avg_input, avg_output. split; [|exact Htitles].
  unfold logged. cbn [trace]. rewrite List.filter_app, Hquiet.
  unfold after_heading. cbn [trace]. rewrite List.filter_app. cbn. rewrite app_nil_r.
  reflexivity.
Qed.

Lemma summary_table_rows_witness :
  exists (records : list timings) (w' : World) (rows : list table_row),
    run_timing_test sample_env "us.anthropic.claude-sonnet-4-5-20250929-v1:0"
      "Hello! Please respond with a short greeting." "us-east-1" None 1000 3 start_world
      = (Ok records, w')
    /\ In (PrintTable rows) (trace w')
    /\ row_title <$> rows = ["Api Call"; "Response Parse"; "Total Without Init"].
Proof.
  destruct (run_timing_test sample_env "us.anthropic.claude-sonnet-4-5-20250929-v1:0"
      "Hello! Please respond with a short greeting." "us-east-1" None 1000 3 start_world)
    as [[records|e] w'] eqn:Hrun;
    [|vm_compute in Hrun; discriminate].
  apply summary_table_rows in Hrun as (rows & ai & ao & Htrace & Htitles); [|lia].
  exists records, w', rows. split; [reflexivity|]. split; [|exact Htitles].
  assert (Hin : In (PrintTable rows) (List.filter is_summary_event (trace w'))).
  { rewrite Htrace. apply in_or_app. right. right. left. reflexivity. }
  apply filter_In in Hin as [Hin _]. exact Hin.
Defined.

(** X13. In a row of the table the median is one of the values and lies
    between the minimum and the maximum. *)
Theorem row_median_between :
  forall (metric heading : string) (values : list float)
         (min_val max_val avg_val median_val : float),
    summary_row metric values = Ok (Some (heading, min_val, max_val, avg_val, median_val)) ->
    Forall not_nan values ->
    In median_val values /\ fle min_val median_val /\ fle median_val max_val.
Proof.
  intros metric heading [|first rest] mn mx av med Hrow Hnum; [discriminate|].
  destruct (summary_row_nonempty metric first rest) as (med' & Hmed & Hrow').
  rewrite Hrow' in Hrow. injection Hrow as _ <- <- _ <-.
  assert (Hin : In med' (first :: rest)).
  { apply list_elem_of_In. rewrite <- (sorted_perm (first :: rest)).
    eapply list_elem_of_lookup_2. exact Hmed. }
  pose proof (Forall_cons_1 _ _ _ Hnum) as [Hf Hr].
  destruct (py_min_spec rest first Hf Hr) as [_ Hmin].
  destruct (py_max_spec rest first Hf Hr) as [_ Hmax].
  rewrite Forall_forall in Hmin, Hmax. apply list_elem_of_In in Hin.
  split; [apply list_elem_of_In; exact Hin|]. split; [apply Hmin | apply Hmax]; exact Hin.
Qed.

Lemma row_median_between_witness :
  In 6%float [2; 4; 6; 8]%float /\ fle 2 6 /\ fle 6 8.
Proof.
  apply (row_median_between "api_call" "Api Call" [2; 4; 6; 8]%float 2 8 5 6).
  - vm_compute. reflexivity.
  - repeat constructor.
Defined.

(** ** initialize_client *)

(** X14. The session is created with the profile name when a non-empty
    profile is given and without arguments otherwise; the client is asked
    for only when the session exists, for the service bedrock-runtime in
    the given region; a failure of either call is the failure of
    [initialize_client]. *)
Theorem initialize_client_calls :
  forall (env : Env) (region : string) (profile : option string) (w : World),
    session_kwargs profile =
      match profile with
      | Some p => if String.eqb p "" then ∅ else {["profile_name" := p]}
      | None => ∅
      end
    /\ match boto3_Session env (session_kwargs profile) with
       | Raise e =>
           fst (initialize_client env region profile w) = Raise e
           /\ trace (snd (initialize_client env region profile w)) =
                (trace w ++ [Boto3Session (session_kwargs profile)])%list
       | Ok s =>
           trace (snd (initialize_client env region profile w)) =
             (trace w ++ [Boto3Session (session_kwargs profile);
                          SessionClient s "bedrock-runtime" region])%list
           /\ match session_client env s "bedrock-runtime" region with
              | Raise e => fst (initialize_client env region profile w) = Raise e
              | Ok c =>
                  fst (initialize_client env region profile w) =
                    Ok (c, (perf_counter_at env (S (ticks w))
                            - perf_counter_at env (ticks w))%float)
              end
       end.
Proof.
  intros env region profile w. split.
  - destruct profile as [[|c p]|]; reflexivity.
  - rewrite initialize_client_run.
    destruct (boto3_Session env (session_kwargs profile)) as [s|e]; [|split; reflexivity].
    cbv zeta. destruct (session_client env s "bedrock-runtime" region); split; reflexivity.
Qed.

(** ** The console output of a run *)

Lemma passes_lines_cons (iterations : Z) (a : nat) (rec : timings) (recs : list timings) :
  passes_lines iterations a (rec :: recs) =
  (pass_lines iterations (Z.of_nat a) rec ++ passes_lines iterations (S a) recs)%list.
Proof.
  unfold passes_lines. rewrite imap_cons. cbn [concat]. rewrite Nat.add_0_r.
  f_equal. f_equal. apply imap_ext. intros k x _. cbn. do 2 f_equal. lia.
Qed.

Lemma loop_lines (env : Env) (model_id prompt region : string)
    (profile : option string) (max_tokens iterations : Z) (count : nat) :
  forall (a : nat) (w w' : World),
    for_in (Z.of_nat <$> seq a count)
      (iteration env model_id prompt region profile max_tokens iterations) w = (Ok tt, w') ->
    exists recs : list timings,
      all_timings w' = (all_timings w ++ recs)%list
      /\ console (trace w') = (console (trace w) ++ passes_lines iterations a recs)%list.
Proof.
  induction count as [|count IH]; intros a w w' H.
  - injection H as <-. exists []. split; symmetry; apply app_nil_r.
  - change (Z.of_nat <$> seq a (S count))
      with (Z.of_nat a :: (Z.of_nat <$> seq (S a) count)) in H.
    rewrite for_in_cons in H.
    destruct (iteration _ _ _ _ _ _ _ _ w) as [[[]|e] w1] eqn:Hpass; [|discriminate].
    apply iteration_details in Hpass as (_ & _ & c & rec & _ & Hall & _ & Hlines & _).
    apply IH in H as (recs & Hall' & Hlines').
    exists (rec :: recs). split; [rewrite Hall', Hall, <- app_assoc; reflexivity|].
    rewrite Hlines', Hlines, passes_lines_cons, <- app_assoc. reflexivity.
Qed.

(** X15. The console output of a run that returns is the heading, the lines
    of each pass showing the entries of its record in milliseconds, and for
    more than one iteration the summary: its heading, the table and the
    token averages. *)
Theorem console_output :
  forall (env : Env) (model_id prompt region : string) (profile : option string)
         (max_tokens iterations : Z) (w w' : World) (records : list timings),
    run_timing_test env model_id prompt region profile max_tokens iterations w
      = (Ok records, w') ->
    exists summary : list event,
      console (trace w') =
        (console (trace w) ++ run_heading model_id prompt region iterations ++
         passes_lines iterations 0 records ++ summary)%list
      /\ (iterations <= 1 -> summary = [])
      /\ (1 < iterations ->
          exists (rows : list table_row) (avg_input avg_output : float),
            summary_rows metrics records = Ok rows
            /\ token_average input_tokens records = Ok avg_input
            /\ token_average output_tokens records = Ok avg_output
            /\ summary =
                 [Print "\n[bold cyan]Summary Statistics[/bold cyan]" [];
                  PrintTable rows;
                  Print "\nAverage tokens - Input: {:.0f}, Output: {:.0f}"
                    [PFloat avg_input; PFloat avg_output]]).
Proof.
  intros env model_id prompt region profile max_tokens iterations w w' records.
  rewrite run_timing_test_run.
  destruct (for_in _ _ _) as [[[]|e] w1] eqn:Hloop; [|discriminate].
  unfold range in Hloop. apply loop_lines in Hloop as (recs & Hall & Hlines).
  change (all_timings (after_heading model_id prompt region iterations w))
    with (@nil timings) in Hall. cbn [app] in Hall.
  assert (Hhead : console (trace (after_heading model_id prompt region iterations w)) =
                  (console (trace w) ++ run_heading model_id prompt region iterations)%list).
  { unfold after_heading, console. cbn [trace]. rewrite List.filter_app. reflexivity. }
  rewrite Hhead in Hlines. clear Hhead.
  destruct (Z.ltb_spec 1 iterations) as [Hn|Hn].
  - rewrite print_summary_run.
    destruct (summary_rows metrics (all_timings w1)) as [rows|e] eqn:Hrows; [|discriminate].
    cbv zeta.
    destruct (token_average input_tokens (all_timings w1)) as [avg_input|e] eqn:Hi;
      [|discriminate].
    destruct (token_average output_tokens (all_timings w1)) as [avg_output|e] eqn:Ho;
      [|discriminate].
    intros [= <- <-]. cbn [all_timings logged].
    eexists. split; [|split; [lia|]].
    + unfold logged, console. cbn [trace]. rewrite List.filter_app. fold (console (trace w1)).
      rewrite Hlines, Hall, <- !app_assoc. cbn [List.filter is_console]. reflexivity.
    + intros _. exists rows, avg_input, avg_output. auto.
  - intros [= <- <-]. exists []. split; [|split; [reflexivity|lia]].
    rewrite Hlines, Hall, <- !app_assoc, app_nil_r. reflexivity.
Qed.

Lemma console_output_witness :
  exists (records : list timings) (w' : World) (summary : list event),
    run_timing_test sample_env "us.anthropic.claude-sonnet-4-5-20250929-v1:0"
      "Hello! Please respond with a short greeting." "us-east-1" None 1000 1 start_world
      = (Ok records, w')
    /\ console (trace w') =
         (run_heading "us.anthropic.claude-sonnet-4-5-20250929-v1:0"
            "Hello! Please respond with a short greeting." "us-east-1" 1 ++
          passes_lines 1 0 records ++ summary)%list
    /\ summary = [].
Proof.
  destruct (run_timing_test sample_env "us.anthropic.claude-sonnet-4-5-20250929-v1:0"
      "Hello! Please respond with a short greeting." "us-east-1" None 1000 1 start_world)
    as [[records|e] w'] eqn:Hrun;
    [|vm_compute in Hrun; discriminate].
  apply console_output in Hrun as (summary & Hout & Hone & _).
  exists records, w', summary. split; [reflexivity|]. split; [exact Hout|].
  apply Hone. lia.
Defined.

(** ** A body that is not an object *)

(** X16. A response body that decodes to something else than an object makes
    [parse_response] raise AttributeError for the claude and titan
    identifiers, while any other identifier gets its string rendering. *)
Theorem non_object_body :
  forall (env : Env) (response : response) (model_id : string) (body : pyval),
    decode_body env response = Ok body ->
    is_object body = false ->
    parse_response__wrapped env response model_id =
      if str_in "claude" model_id || str_in "titan" model_id
      then Raise AttributeError
      else Ok (PStr (py_str env body), PInt 0, PInt 0).
Proof.
  intros env response model_id body Hbody Hobj.
  unfold parse_response__wrapped. rewrite Hbody. cbn [mbind result_bind].
  destruct (str_in "claude" model_id); [|destruct (str_in "titan" model_id)];
    cbn [orb]; destruct body; try discriminate; reflexivity.
Qed.

Lemma non_object_body_witness :
  parse_response__wrapped array_body_env (Response "[1, 2]")
    "us.anthropic.claude-sonnet-4-5-20250929-v1:0" = Raise AttributeError
  /\ parse_response__wrapped array_body_env (Response "[1, 2]") "meta.llama3-8b-instruct-v1:0"
     = Ok (PStr "[1, 2]", PInt 0, PInt 0).
Proof.
  split.
  - apply (non_object_body array_body_env (Response "[1, 2]")
             "us.anthropic.claude-sonnet-4-5-20250929-v1:0" (PList [PInt 1; PInt 2]));
      reflexivity.
  - apply (non_object_body array_body_env (Response "[1, 2]")
             "meta.llama3-8b-instruct-v1:0" (PList [PInt 1; PInt 2])); reflexivity.
Defined.

(** ** The keys of a record *)

Lemma pass_record_keys (env : Env) (first : bool) (t : nat)
    (input_tokens output_tokens : pyval) (response_length : Z) :
  dom (durations (pass_record env first t input_tokens output_tokens response_length)) =
  (if first then {["client_init"]} ∪ duration_keys else duration_keys).
Proof.
  unfold pass_record, iteration_record, duration_keys. cbn [durations].
  rewrite !dom_insert_L. destruct first.
  - rewrite dom_insert_L, dom_empty_L. set_solver.
  - rewrite dom_empty_L. set_solver.
Qed.

(** X17. The records of a run that returns all have the duration keys
    api_call, response_parse, total_with_init and total_without_init; the
    first record has client_init besides, and no record has any other
    duration key. *)
Theorem record_keys :
  forall (env : Env) (model_id prompt region : string) (profile : option string)
         (max_tokens iterations : Z) (w w' : World) (records : list timings)
         (i : nat) (rec : timings),
    run_timing_test env model_id prompt region profile max_tokens iterations w
      = (Ok records, w') ->
    records !! i = Some rec ->
    dom (durations rec) =
      (if (i =? 0)%nat then {["client_init"]} ∪ duration_keys else duration_keys).
Proof.
  intros env model_id prompt region profile max_tokens iterations w w' records i rec
    Hrun Hi.
  apply run_timing_test_records in Hrun as (_ & Hzero & Hpos).
  destruct (Z_le_gt_dec iterations 0) as [Hn|Hn].
  { rewrite (Hzero Hn) in Hi. discriminate. }
  destruct Hpos as (_ & Hrecs & _); [lia|].
  destruct (Hrecs i rec Hi) as (itok & otok & rlen & ->).
  apply pass_record_keys.
Qed.

Lemma record_keys_witness :
  exists (records : list timings) (w' : World),
    run_timing_test sample_env "us.anthropic.claude-sonnet-4-5-20250929-v1:0"
      "Hello! Please respond with a short greeting." "us-east-1" None 1000 3 start_world
      = (Ok records, w')
    /\ forall rec : timings,
         records !! 1%nat = Some rec -> dom (durations rec) = duration_keys.
Proof.
  destruct (run_timing_test sample_env "us.anthropic.claude-sonnet-4-5-20250929-v1:0"
      "Hello! Please respond with a short greeting." "us-east-1" None 1000 3 start_world)
    as [[records|e] w'] eqn:Hrun;
    [|vm_compute in Hrun; discriminate].
  exists records, w'. split; [reflexivity|].
  intros rec Hrec. exact (record_keys _ _ _ _ _ _ _ _ _ _ 1%nat rec Hrun Hrec).
Defined.
